(** * Outage-schedule pipeline of [main.py]: a shallow embedding

    The development follows the pipeline of the program: the slot normaliser
    ([parse_github_day], [extract_github], [extract_yasno]), the period
    compressor ([slots_to_periods]), the source merger ([format_msg]), the
    change detector (the [serialize] / [==] test of [main]) and the numeral
    agreement of the renderer ([format_hours_full]).

    Conventions of the embedding.
    - Python [int] is [Z] (or [nat] for list positions that the code only
      ever builds from [0], [len] and [range]); [//] and [%] by a positive
      constant are [Z.div] and [Z.modulo] (both floor, as in Python).
    - A finite Python [float] is the rational number it denotes ([Q]); the
      only floats of the pipeline are multiples of [0.5], on which binary
      floating point is exact.
    - A Python [dict] is an association list in insertion order with
      distinct keys; [==] on dicts is the length-then-lookup comparison of
      the interpreter, not list equality.
    - An exception that leaves a function ([IndexError], [ValueError],
      [OverflowError], [KeyError]) is [None] in the [option] monad.
    - Built-ins whose result depends on the whole of Unicode or on the
      locale ([int] on a [str], the [repr] of a float, the day-and-month
      text of [strftime]) are parameters; whether the platform pads the
      year of [%Y] is a flag; the rest is written out.
    - A call to the outside world either returns or raises; which of the
      two is given by a [World]. *)

From Stdlib Require Import String Ascii DecimalString Decimal.
From Stdlib Require Import ZArith QArith Bool Arith List Permutation Sorted Lia.
Import ListNotations.

Open Scope string_scope.
Open Scope list_scope.

(* ================================================================== *)
(** * Python values: keys, dictionaries, strings, exceptions *)
(* ================================================================== *)

Module Py.

(** Keys of a dictionary: a type with a boolean equality that decides [=]. *)
Class EqKey (K : Type) := {
  keqb : K -> K -> bool;
  keqb_spec : forall a b : K, reflect (a = b) (keqb a b)
}.

#[export] Instance EqKey_string : EqKey string :=
  {| keqb := String.eqb; keqb_spec := String.eqb_spec |}.

#[export] Instance EqKey_Z : EqKey Z :=
  {| keqb := Z.eqb; keqb_spec := Z.eqb_spec |}.

(** [dict K V]: bindings in insertion order. *)
Definition dict (K V : Type) : Type := list (K * V).

Section Dict.
Context {K V : Type} `{EqKey K}.

(** [d.get(k)] *)
Fixpoint get (d : dict K V) (k : K) : option V :=
  match d with
  | [] => None
  | (k', v) :: d' => if keqb k' k then Some v else get d' k
  end.

(** [d[k] = v]: an existing key keeps its position, a new one is appended. *)
Fixpoint set (d : dict K V) (k : K) (v : V) : dict K V :=
  match d with
  | [] => [(k, v)]
  | (k', v') :: d' => if keqb k' k then (k', v) :: d' else (k', v') :: set d' k v
  end.

(** [d.keys()] and [d.values()] *)
Definition keys (d : dict K V) : list K := map fst d.
Definition values (d : dict K V) : list V := map snd d.

(** [k in d] *)
Definition mem (d : dict K V) (k : K) : bool :=
  match get d k with Some _ => true | None => false end.

(** The invariant of every Python dictionary: keys are distinct. *)
Definition wf (d : dict K V) : Prop := NoDup (keys d).

(** [a == b] on dictionaries, as the interpreter computes it: equal sizes,
    and every key of [a] is bound in [b] to an equal value. *)
Definition dict_eqb (veqb : V -> V -> bool) (a b : dict K V) : bool :=
  (length a =? length b)%nat
  && forallb (fun kv => match get b (fst kv) with
                        | Some v' => veqb (snd kv) v'
                        | None => false
                        end) a.
End Dict.

(** [a == b] on lists: same length and element-wise equal. *)
Fixpoint list_eqb {A : Type} (eqb : A -> A -> bool) (a b : list A) : bool :=
  match a, b with
  | [], [] => true
  | x :: a', y :: b' => eqb x y && list_eqb eqb a' b'
  | _, _ => false
  end.

(** [a == b] where either side may be [None]. *)
Definition option_eqb {A : Type} (eqb : A -> A -> bool) (a b : option A) : bool :=
  match a, b with
  | None, None => true
  | Some x, Some y => eqb x y
  | _, _ => false
  end.

(** [str(n)] for an int. *)
Definition str_nat (n : nat) : string := NilZero.string_of_uint (Nat.to_uint n).
Definition str (n : Z) : string := NilZero.string_of_int (Z.to_int n).

(** [f"{n:02d}"] for a non-negative int: at least two digits, zero padded. *)
Definition fmt_02d (n : nat) : string :=
  if (n <? 10)%nat then "0" ++ str_nat n else str_nat n.

(** A non-negative int in at least four digits, zero padded. *)
Definition fmt_04d (n : nat) : string :=
  let s := str_nat n in
  match String.length s with
  | 1%nat => "000" ++ s
  | 2%nat => "00" ++ s
  | 3%nat => "0" ++ s
  | _ => s
  end%string.

(** [s.replace(old, new)] for a non-empty [old]: occurrences are found left
    to right and do not overlap.  [skip] counts the characters of the
    occurrence being replaced that are still to be dropped. *)
Fixpoint replace_from (old new : string) (skip : nat) (s : string) : string :=
  match s with
  | EmptyString => EmptyString
  | String c s' =>
      match skip with
      | S k => replace_from old new k s'
      | O => if String.prefix old s
             then new ++ replace_from old new (String.length old - 1) s'
             else String c (replace_from old new O s')
      end
  end.

Definition replace (old new s : string) : string := replace_from old new 0 s.

(** [range(a, b)] over ints. *)
Definition range (a b : Z) : list Z :=
  map (fun k => (a + Z.of_nat k)%Z) (seq 0 (Z.to_nat (b - a))).

(** [l[i] = v] on a list: a negative index counts from the end; an index
    outside [-len, len) raises [IndexError]. *)
Fixpoint update_nth {A : Type} (l : list A) (n : nat) (v : A) : list A :=
  match l, n with
  | [], _ => []
  | _ :: l', O => v :: l'
  | x :: l', S n' => x :: update_nth l' n' v
  end.

Definition setitem {A : Type} (l : list A) (i : Z) (v : A) : option (list A) :=
  let n := Z.of_nat (length l) in
  if ((0 <=? i) && (i <? n))%Z then Some (update_nth l (Z.to_nat i) v)
  else if ((- n <=? i) && (i <? 0))%Z then Some (update_nth l (Z.to_nat (n + i)) v)
  else None.

(** [sorted(l)] and [sorted(l, key=...)]: a stable insertion sort.  [ltb x y]
    says that [x] goes strictly before [y]; an element is put behind the
    elements it does not go before, so equal elements keep their order. *)
Section Sorting.
Context {A : Type} (ltb : A -> A -> bool).

Fixpoint insert_sorted (x : A) (l : list A) : list A :=
  match l with
  | [] => [x]
  | y :: l' => if ltb x y then x :: l else y :: insert_sorted x l'
  end.

Definition sorted (l : list A) : list A :=
  fold_left (fun acc x => insert_sorted x acc) l [].
End Sorting.

(** The exception monad. *)
Definition bind {A B : Type} (m : option A) (f : A -> option B) : option B :=
  match m with Some x => f x | None => None end.

(** A [for] loop whose body may raise. *)
Fixpoint for_each {A S : Type} (body : S -> A -> option S) (l : list A) (s : S)
  : option S :=
  match l with
  | [] => Some s
  | x :: l' => bind (body s x) (for_each body l')
  end.

End Py.

Import Py.

Notation "x <- m ;; k" := (Py.bind m (fun x => k))
  (at level 61, m at next level, right associativity).

(* ================================================================== *)
(** * Formatting helpers *)
(* ================================================================== *)

(** [format_slot_time]: half-hour index to ["HH:MM"]; every index whose hour
    is 24 is rendered ["24:00"]. *)
Definition format_slot_time (slot : nat) : string :=
  let mins := (slot * 30)%nat in
  let h := (mins / 60)%nat in
  let m := (mins mod 60)%nat in
  if (h =? 24)%nat then "24:00" else fmt_02d h ++ ":" ++ fmt_02d m.

(** [int(hours)]: truncation towards zero. *)
Definition int_of_float (hours : Q) : Z := Z.quot (Qnum hours) (Zpos (Qden hours)).

Section HoursFull.
(** [float_repr]: the text Python prints for a float inside an f-string
    (its [repr]); it is a built-in of the language, and only reached for
    values with a fractional part. *)
Variable float_repr : Q -> string.

(** [format_hours_full] *)
Definition format_hours_full (hours : Q) : string :=
  if Qeq_bool hours (inject_Z (int_of_float hours)) then
    let hours := int_of_float hours in
    if ((hours mod 10 =? 1) && negb (hours mod 100 =? 11))%Z then
      str hours ++ " година"
    else if (existsb (Z.eqb (hours mod 10)) [2; 3; 4]
             && negb (existsb (Z.eqb (hours mod 100)) [12; 13; 14]))%Z then
      str hours ++ " години"
    else
      str hours ++ " годин"
  else
    float_repr hours ++ " години".
End HoursFull.

(** The [repr] of a float that is an odd multiple of [0.5]: ["<n>.5"] (with
    the sign in front); used to run [format_hours_full] on the durations of
    the pipeline. *)
Definition repr_half (h : Q) : string :=
  (if Qle_bool 0 h then "" else "-") ++ str (Z.abs (int_of_float h)) ++ ".5".

(* ================================================================== *)
(** * Period compressor *)
(* ================================================================== *)

(** A period: the dictionary with keys ["start"], ["end"], ["is_on"],
    ["hours"]. *)
Record Period : Type := mkPeriod {
  p_start : string;
  p_end : string;
  p_is_on : bool;
  p_hours : Q
}.

(** [(j - i) * 0.5] *)
Definition half_hours (i j : nat) : Q :=
  inject_Z (Z.of_nat j - Z.of_nat i) * (1 # 2).

(** The body of [for i in range(1, len(slots))]: [rest] is [slots[i:]], the
    state is [(periods, curr, start)]. *)
Fixpoint scan (rest : list bool) (i : nat) (periods : list Period)
              (curr : bool) (start : nat) : list Period * bool * nat :=
  match rest with
  | [] => (periods, curr, start)
  | s_i :: rest' =>
      if negb (Bool.eqb s_i curr) then
        scan rest' (S i)
             (periods ++ [mkPeriod (format_slot_time start) (format_slot_time i)
                                   curr (half_hours start i)])
             s_i i
      else scan rest' (S i) periods curr start
  end.

(** [slots_to_periods] *)
Definition slots_to_periods (slots : list bool) : list Period :=
  match slots with
  | [] => []
  | s0 :: rest =>
      let '(periods, curr, start) := scan rest 1 [] s0 0 in
      periods ++ [mkPeriod (format_slot_time start)
                           (format_slot_time (length slots))
                           curr (half_hours start (length slots))]
  end.


(* ================================================================== *)
(** * Slot normaliser *)
(* ================================================================== *)

(** An aware [datetime]: an instant (seconds since the epoch) and the UTC
    offset of its time zone, in seconds. *)
Record datetime : Type := mkDatetime {
  epoch : Z;
  utcoffset : Z
}.

(** [KYIV_TZ = timezone(timedelta(hours=2))] *)
Definition KYIV_TZ : Z := 7200.

(** The first and the last second of the years 1 to 9999, the years a
    [datetime] can hold, in seconds since the epoch. *)
Definition MIN_TS : Z := -62135596800.    (* 0001-01-01 00:00:00 UTC *)
Definition MAX_TS : Z := 253402300799.    (* 9999-12-31 23:59:59 UTC *)

(** [datetime.fromtimestamp(ts, tz=KYIV_TZ)] for an int [ts], where the
    platform's [time_t] has 64 bits.  The UTC time is built first
    ([ValueError] when its year is not one of 1..9999, [OverflowError] when
    [ts] does not fit [time_t]), then the offset of the zone is added
    ([OverflowError] when that leaves the year 9999). *)
Definition fromtimestamp (ts : Z) : option datetime :=
  if ((MIN_TS <=? ts) && (ts <=? MAX_TS) && (ts + KYIV_TZ <=? MAX_TS))%Z
  then Some (mkDatetime ts KYIV_TZ)
  else None.

(** [dt.strftime("%Y-%m-%d")], as a key.  The text names the local calendar
    day of [dt] and nothing else, so two texts are equal exactly when the
    days are: as a dictionary key it is represented by the number of that
    day (days since 1970-01-01).  The text itself is [date_text] below; it
    is what [sorted] compares. *)
Definition strftime_Ymd (dt : datetime) : Z := ((epoch dt + utcoffset dt) / 86400)%Z.

(** The calendar date (year, month, day) of a day number, in the proleptic
    Gregorian calendar of [datetime]. *)
Definition civil (day : Z) : Z * Z * Z :=
  let z := (day + 719468)%Z in
  let era := (z / 146097)%Z in
  let doe := (z - era * 146097)%Z in
  let yoe := ((doe - doe / 1460 + doe / 36524 - doe / 146096) / 365)%Z in
  let doy := (doe - (365 * yoe + yoe / 4 - yoe / 100))%Z in
  let mp := ((5 * doy + 2) / 153)%Z in
  let d := (doy - (153 * mp + 2) / 5 + 1)%Z in
  let m := (if mp <? 10 then mp + 3 else mp - 9)%Z in
  let y := (yoe + era * 400 + (if m <=? 2 then 1 else 0))%Z in
  (y, m, d).

(** The text ["%Y-%m-%d"] of a day number.  Month and day are two digits;
    the year is four digits where the platform pads [%Y] ([padded_year])
    and the plain decimal number where it does not (so ["999-01-01"] for a
    day of the year 999). *)
Definition date_text (padded_year : bool) (day : Z) : string :=
  let '(y, m, d) := civil day in
  ((if padded_year then fmt_04d (Z.to_nat y) else str y)
   ++ "-" ++ fmt_02d (Z.to_nat m) ++ "-" ++ fmt_02d (Z.to_nat d))%string.

(** A day of a snapshot: the dictionary with keys ["slots"], ["date"],
    ["status"]. *)
Record DaySchedule : Type := mkDay {
  slots : option (list bool);
  date : datetime;
  status : string
}.

(** group -> date -> day *)
Definition Snapshot : Type := dict string (dict Z DaySchedule).

(** ** Source A: the hour-state feed *)

(** One day of one group: hour key (["1"] .. ["24"]) -> state. *)
Definition DayData : Type := dict string string.

(** [range(1, 25)] *)
Definition hours_of_day : list nat := seq 1 24.

(** [day_data.get(str(h), "yes")] *)
Definition hour_state (day_data : DayData) (h : nat) : string :=
  match get day_data (str_nat h) with Some s => s | None => "yes" end.

(** [parse_github_day] *)
Definition parse_github_day (day_data : DayData) : list bool :=
  fold_left
    (fun slots h =>
       let s := hour_state day_data h in
       if s =? "yes" then slots ++ [true; true]
       else if s =? "no" then slots ++ [false; false]
       else if s =? "first" then slots ++ [false; true]
       else if s =? "second" then slots ++ [true; false]
       else slots ++ [true; true])
    hours_of_day [].

(** [fact]: day key (the text of a unix timestamp) -> group -> day. *)
Definition GithubFact : Type := dict string (dict string DayData).

(** [fact.get(ts, {}).get(grp)], with the falsy results ([None] and the
    empty dictionary) mapped to [None]. *)
Definition group_day (fact : GithubFact) (ts : string) (grp : string) : option DayData :=
  match get fact ts with
  | None => None
  | Some day =>
      match get day grp with
      | None | Some [] => None
      | Some d => Some d
      end
  end.

(** [all(d.get(str(h), "yes") == "yes" for h in range(1, 25))] *)
Definition all_yes (d : DayData) : bool :=
  forallb (fun h => hour_state d h =? "yes") hours_of_day.

(** Lines 139-142: the day stored for a non-empty payload [d] whose
    timestamp reads as the time [dt]. *)
Definition github_day (dt : datetime) (d : DayData) : DaySchedule :=
  if all_yes d then mkDay None dt "pending"
  else mkDay (Some (parse_github_day d)) dt "normal".

Section SourceA.
(** [int]: the built-in applied to a day key, a [str]; [None] is its
    [ValueError]. *)
Variable int : string -> option Z.

(** [sorted(ks, key=int)]: [int] is applied to every key first, so one key
    that is not a number makes the call raise; the keys are then ordered by
    these values. *)
Definition sorted_key_int (ks : list string) : option (list string) :=
  decorated <- for_each (fun acc k => n <- int k ;; Some (acc ++ [(n, k)])) ks [] ;;
  Some (map snd (sorted (fun a b => (fst a <? fst b)%Z) decorated)).

(** [sorted(fact.keys(), key=int)[:2]] *)
Definition earliest_keys (fact : GithubFact) : option (list string) :=
  ks <- sorted_key_int (keys fact) ;;
  Some (firstn 2 ks).

(** The body of [for ts in ...], on [res[grp]]. *)
Definition github_step (fact : GithubFact) (grp : string)
                       (days : dict Z DaySchedule) (ts : string)
  : option (dict Z DaySchedule) :=
  match group_day fact ts grp with
  | None => Some days
  | Some d =>
      n <- int ts ;;
      dt <- fromtimestamp n ;;
      let d_str := strftime_Ymd dt in
      Some (set days d_str (github_day dt d))
  end.

(** The inner loop of [extract_github]: the dictionary [res[grp]] after
    [for ts in sorted(fact.keys(), key=int)[:2]]. *)
Definition github_group (fact : GithubFact) (grp : string)
  : option (dict Z DaySchedule) :=
  ks <- earliest_keys fact ;;
  for_each (github_step fact grp) ks [].

(** [extract_github].  [data] is [None] for a falsy payload; otherwise it is
    [data.get("fact", {}).get("data", {})].  The dictionary [res[grp]] is
    created empty and filled in place; binding [grp] to the filled
    dictionary is the same store.  The result is [None] when [int] or
    [datetime.fromtimestamp] raises. *)
Definition extract_github (data : option GithubFact) (groups : list string)
  : option Snapshot :=
  match data with
  | None => Some []
  | Some fact =>
      for_each (fun res grp => days <- github_group fact grp ;; Some (set res grp days))
               groups []
  end.
End SourceA.

(** ** Source B: the interval feed *)

(** An outage interval; a missing key is [None]. *)
Record Interval : Type := mkInterval {
  i_start : option Z;
  i_end : option Z;
  i_type : option string
}.

(** One day of the feed.  [y_date] is the [datetime] that
    [datetime.fromisoformat] reads from the ["date"] key. *)
Record YasnoDay : Type := mkYasnoDay {
  y_date : option datetime;
  y_status : option string;
  y_slots : option (list Interval)
}.

(** [data[key]]: the days under ["today"] and ["tomorrow"]. *)
Record YasnoGroup : Type := mkYasnoGroup {
  today : option YasnoDay;
  tomorrow : option YasnoDay
}.

Definition YasnoData : Type := dict string YasnoGroup.

(** [s.get(k, 0)] *)
Definition get0 (v : option Z) : Z := match v with Some z => z | None => 0%Z end.

(** The body of [for s in d["slots"]]: paint one interval. *)
Definition paint_interval (slots : list bool) (s : Interval) : option (list bool) :=
  let start := (get0 (i_start s) / 30)%Z in
  let end_ := (get0 (i_end s) / 30)%Z in
  let is_on := option_eqb String.eqb (i_type s) (Some "NotPlanned") in
  for_each (fun slots i => setitem slots i is_on) (range start (Z.min end_ 48)) slots.

(** Lines 174-179: [slots = [True] * 48], then every interval in turn. *)
Definition yasno_timeline (intervals : list Interval) : option (list bool) :=
  for_each paint_interval intervals (repeat true 48).

(** The body of [for day in ["today", "tomorrow"]], on [res[grp]]. *)
Definition yasno_day (days : dict Z DaySchedule) (d : option YasnoDay)
  : option (dict Z DaySchedule) :=
  match d with
  | None => Some days
  | Some d =>
      match y_date d with
      | None => Some days
      | Some dt =>
          let d_str := strftime_Ymd dt in
          let status := match y_status d with Some s => s | None => "" end in
          if status =? "EmergencyShutdowns" then
            Some (set days d_str (mkDay None dt "emergency"))
          else
            match y_slots d with
            | None | Some [] => Some (set days d_str (mkDay None dt "pending"))
            | Some intervals =>
                slots <- yasno_timeline intervals ;;
                Some (set days d_str (mkDay (Some slots) dt "normal"))
            end
      end
  end.

(** [extract_yasno].  [data] is [None] for a falsy payload. *)
Definition extract_yasno (data : option YasnoData) (groups : list string)
  : option Snapshot :=
  match data with
  | None => Some []
  | Some data =>
      for_each
        (fun res grp =>
           let key := replace "GPV" "" grp in
           match get data key with
           | None => Some res
           | Some g =>
               days <- for_each yasno_day [today g; tomorrow g] [] ;;
               Some (set res grp days)
           end)
        groups []
  end.


(* ================================================================== *)
(** * Source merger *)
(* ================================================================== *)

(** The part of the configuration the merger reads. *)
Record Config : Type := mkConfig {
  groups : list string;            (* cfg['settings']['groups'] *)
  github_name : string;            (* cfg['sources']['github']['name'] *)
  yasno_name : string;             (* cfg['sources']['yasno']['name'] *)
  separator_source : string;       (* cfg['ui']['format']['separator_source'] *)
  separator_day : string           (* cfg['ui']['format']['separator_day'] *)
}.

(** The line feed. *)
Definition nl : string := String (ascii_of_nat 10) EmptyString.

(** [s.get(grp, {}).get(d_str)] *)
Definition day_of (s : Snapshot) (grp : string) (d_str : Z) : option DaySchedule :=
  match get s grp with
  | Some days => get days d_str
  | None => None
  end.

(** Lines 349-353: the agreement test of the two sources.  A day, when
    present, is a dictionary of three keys and therefore truthy. *)
Definition is_match (g_d y_d : option DaySchedule) : bool :=
  match g_d, y_d with
  | Some g, Some y =>
      if (status g =? "normal") && (status y =? "normal") then
        if option_eqb (list_eqb Bool.eqb) (slots g) (slots y) then true else false
      else false
  | _, _ => false
  end.

(** [sorted(dates)] for the set [dates] of the day keys of a group: the
    keys are texts, and [sorted] orders them as texts. *)
Definition group_dates (padded_year : bool) (gh ya : Snapshot) (grp : string) : list Z :=
  let dates_in s := match get s grp with Some days => keys days | None => [] end in
  sorted (fun a b => (date_text padded_year a <? date_text padded_year b)%string)
         (nodup Z.eq_dec (dates_in gh ++ dates_in ya)).

Section Merger.
(** The renderer of one day ([format_day], with the configuration applied),
    the header of a group ([header_template.format(group=...)]) and the
    footer with the wall-clock time are taken as given: the merger only
    places their results.  [padded_year] says whether the platform pads
    [%Y] to four digits. *)
Variable cfg : Config.
Variable padded_year : bool.
Variable format_day : DaySchedule -> datetime -> string -> string.
Variable header_of : string -> string.
Variable footer : string.

(** Lines 342-365: the list [src_msgs] of one date.  [(g_d or y_d)["date"]]
    raises when both are [None]. *)
Definition day_sources (g_d y_d : option DaySchedule) : option (list string) :=
  dt <- match g_d, y_d with
        | Some g, _ => Some (date g)
        | None, Some y => Some (date y)
        | None, None => None
        end ;;
  if is_match g_d y_d then
    let names := (github_name cfg ++ ", " ++ yasno_name cfg)%string in
    g <- g_d ;;
    let base := format_day g dt "github" in
    Some [replace ("[" ++ github_name cfg ++ "]")%string ("[" ++ names ++ "]")%string base]
  else
    Some ((match g_d with Some g => [format_day g dt "github"] | None => [] end)
          ++ (match y_d with Some y => [format_day y dt "yasno"] | None => [] end)).

(** Lines 340-368: the list [day_msgs] of one group. *)
Definition group_days (gh ya : Snapshot) (grp : string) : option (list string) :=
  for_each
    (fun day_msgs d_str =>
       src_msgs <- day_sources (day_of gh grp d_str) (day_of ya grp d_str) ;;
       match src_msgs with
       | [] => Some day_msgs
       | _ => Some (day_msgs
                    ++ [String.concat (nl ++ separator_source cfg ++ nl)%string src_msgs])
       end)
    (firstn 2 (group_dates padded_year gh ya grp)) [].

(** [format_msg]: [None] when an exception is raised, [Some None] for the
    result [None]. *)
Definition format_msg (gh ya : Snapshot) : option (option string) :=
  blocks <-
    for_each
      (fun blocks grp =>
         let grp_num := replace "GPV" "" grp in
         let header := header_of grp_num in
         match group_dates padded_year gh ya grp with
         | [] => Some blocks
         | _ =>
             day_msgs <- group_days gh ya grp ;;
             match day_msgs with
             | [] => Some blocks
             | _ =>
                 let body := String.concat (nl ++ separator_day cfg ++ nl)%string day_msgs in
                 Some (blocks ++ [(header ++ nl ++ body)%string])
             end
         end)
      (groups cfg) [] ;;
  match blocks with
  | [] => Some None
  | _ => Some (Some (String.concat (nl ++ nl ++ nl) blocks ++ footer)%string)
  end.
End Merger.

(* ================================================================== *)
(** * Change detector *)
(* ================================================================== *)

(** A day of the cache: the dictionary with keys ["status"] and ["slots"]. *)
Record CacheDay : Type := mkCacheDay {
  c_status : string;
  c_slots : option (list bool)
}.

(** group -> date -> cached day, and source -> group -> date -> cached day *)
Definition CacheGroups : Type := dict string (dict Z CacheDay).
Definition CacheState : Type := dict string CacheGroups.

(** [serialize] of [main] *)
Definition serialize (s : Snapshot) : CacheGroups :=
  fold_left
    (fun r gd =>
       set r (fst gd)
           (fold_left
              (fun c kv => set c (fst kv) (mkCacheDay (status (snd kv)) (slots (snd kv))))
              (snd gd) []))
    s [].

(** [new_c] *)
Definition new_cache (gh_sched ya_sched : Snapshot) : CacheState :=
  [("github", serialize gh_sched); ("yasno", serialize ya_sched)].

(** [==] on the values of the cache, level by level. *)
Definition cacheday_eqb (a b : CacheDay) : bool :=
  (c_status a =? c_status b) && option_eqb (list_eqb Bool.eqb) (c_slots a) (c_slots b).

Definition cache_eqb (a b : CacheState) : bool :=
  dict_eqb (dict_eqb (dict_eqb cacheday_eqb)) a b.

(** The run goes on past line 461 exactly when [new_c == old_c] is false. *)
Definition changed (new_c old_c : CacheState) : bool := negb (cache_eqb new_c old_c).


(* ================================================================== *)
(** * Vocabulary of the properties *)
(* ================================================================== *)

(** ** Periods *)

(** The list [slots_to_periods] returns, as a function of the loop state:
    the run [curr] that began at [start] is still open at index [i], [rest]
    is what remains to be read and [total] is [len(slots)]. *)
Fixpoint emit (rest : list bool) (i : nat) (curr : bool) (start total : nat)
  : list Period :=
  match rest with
  | [] => [mkPeriod (format_slot_time start) (format_slot_time total)
                    curr (half_hours start total)]
  | s_i :: rest' =>
      if negb (Bool.eqb s_i curr) then
        mkPeriod (format_slot_time start) (format_slot_time i) curr (half_hours start i)
          :: emit rest' (S i) s_i i total
      else emit rest' (S i) curr start total
  end.

(** Reading a slot index back from the ["HH:MM"] text of a period. *)
Definition digit_of (c : ascii) : option nat :=
  let n := nat_of_ascii c in
  if ((48 <=? n) && (n <=? 57))%nat then Some (n - 48)%nat else None.

Definition slot_of_time (t : string) : option nat :=
  match t with
  | String h1 (String h0 (String ":" (String m1 (String m0 EmptyString)))) =>
      a <- digit_of h1 ;; b <- digit_of h0 ;;
      c <- digit_of m1 ;; d <- digit_of m0 ;;
      Some ((((10 * a + b) * 60 + (10 * c + d)) / 30)%nat)
  | _ => None
  end.

(** Re-expansion of a period list: every period contributes
    [end_slot - start_slot] copies of its [is_on] value, in order. *)
Fixpoint expand_periods (ps : list Period) : option (list bool) :=
  match ps with
  | [] => Some []
  | p :: ps' =>
      start_slot <- slot_of_time (p_start p) ;;
      end_slot <- slot_of_time (p_end p) ;;
      rest <- expand_periods ps' ;;
      Some (repeat (p_is_on p) (end_slot - start_slot) ++ rest)
  end.

(** [covers from ps to]: the periods tile the slots [from .. to] in order;
    each one is non-empty, begins where the previous one ended, carries the
    times of its two boundaries and half an hour per slot. *)
Fixpoint covers (from : nat) (ps : list Period) (to : nat) : Prop :=
  match ps with
  | [] => from = to
  | p :: ps' =>
      exists e : nat,
        (from < e)%nat /\
        p_start p = format_slot_time from /\
        p_end p = format_slot_time e /\
        p_hours p = half_hours from e /\
        covers e ps' to
  end.

(** Consecutive periods have different [is_on] values. *)
Fixpoint alternating (ps : list Period) : Prop :=
  match ps with
  | p :: ((q :: _) as ps') => p_is_on p <> p_is_on q /\ alternating ps'
  | _ => True
  end.

(** The sum of the ["hours"] fields. *)
Definition total_hours (ps : list Period) : Q :=
  fold_right (fun p acc => p_hours p + acc) 0 ps.

(** ** Source A *)

(** The two slots that hour [h] appends in [parse_github_day]. *)
Definition hour_slots (day_data : DayData) (h : nat) : list bool :=
  let s := hour_state day_data h in
  if s =? "yes" then [true; true]
  else if s =? "no" then [false; false]
  else if s =? "first" then [false; true]
  else if s =? "second" then [true; false]
  else [true; true].

(** The state an hour resolves to, in the words of the description of the
    feed: one of the four states, and [yes] for a missing or unrecognised
    hour. *)
Definition recognised (s : string) : bool :=
  existsb (String.eqb s) ["yes"; "no"; "first"; "second"].

Definition resolved_state (d : DayData) (h : nat) : string :=
  match get d (str_nat h) with
  | Some s => if recognised s then s else "yes"
  | None => "yes"
  end.

(** Every hour of [d] is literally [yes], or absent. *)
Definition literal_yes (d : DayData) : Prop :=
  forall h : nat, (1 <= h <= 24)%nat ->
    get d (str_nat h) = None \/ get d (str_nat h) = Some "yes".

(** The day key [ts] has a non-empty payload for [grp]. *)
Definition has_group (fact : GithubFact) (grp : string) (ts : string) : bool :=
  match group_day fact ts grp with Some _ => true | None => false end.

(** The time a day key stands for: [int], then [datetime.fromtimestamp]. *)
Definition key_time (int : string -> option Z) (ts : string) : option datetime :=
  n <- int ts ;; fromtimestamp n.

(** The dates available for [grp] in the feed, earliest first. *)
Definition available_dates (int : string -> option Z) (fact : GithubFact) (grp : string)
  : list Z :=
  sorted Z.ltb
         (nodup Z.eq_dec
            (flat_map (fun ts => match key_time int ts with
                                 | Some dt => [strftime_Ymd dt]
                                 | None => []
                                 end)
                      (filter (has_group fact grp) (keys fact)))).

(** The day the loop body stores for the payload [d] of a key that reads as
    the time [dt], in the words of the rule: [pending] without a timeline
    when every hour is literally [yes] or absent, [normal] with the 48
    slots of the payload otherwise. *)
Definition day_by_rule (dt : datetime) (d : DayData) (day : DaySchedule) : Prop :=
  (literal_yes d -> day = mkDay None dt "pending")
  /\ (~ literal_yes d -> day = mkDay (Some (parse_github_day d)) dt "normal").

(** The key at [ts] is the last of the keys [ks] that the loop stores under
    the date [d_str] for [grp]: no key behind it has a payload for the
    group and reads as a time of that date. *)
Definition last_of_date (int : string -> option Z) (fact : GithubFact) (grp : string)
                        (ks : list string) (ts : string) (d_str : Z) : Prop :=
  exists before behind,
    ks = before ++ ts :: behind
    /\ forall ts' dt', In ts' behind -> has_group fact grp ts' = true ->
                       key_time int ts' = Some dt' -> strftime_Ymd dt' <> d_str.

(** [int] on the keys of the samples: plain decimal digits, with an optional
    minus sign in front. *)
Definition int_decimal (s : string) : option Z :=
  option_map Z.of_int (NilZero.int_of_string s).

(** ** Source B *)

Definition clamp (lo hi x : Z) : Z := Z.max lo (Z.min hi x).

(** Slot [i] lies in [[lo, hi)]. *)
Definition in_slots (lo hi : Z) (i : nat) : bool :=
  ((lo <=? Z.of_nat i) && (Z.of_nat i <? hi))%Z.

(** Set every slot of [[lo, hi)] to [v]. *)
Definition set_slots (lo hi : Z) (v : bool) (tl : list bool) : list bool :=
  map (fun iv => if in_slots lo hi (fst iv) then v else snd iv)
      (combine (seq 0 (length tl)) tl).

(** One interval, in the words of the description of the parser:
    [start_slot = start_minute div 30], [end_slot = end_minute div 30]
    clamped to [[0, 48]], every slot of [[start_slot, end_slot)] set to [on]
    for an unplanned interval and to [off] otherwise. *)
Definition paint_spec (tl : list bool) (s : Interval) : list bool :=
  let start_slot := (get0 (i_start s) / 30)%Z in
  let end_slot := clamp 0 48 (get0 (i_end s) / 30)%Z in
  let on := option_eqb String.eqb (i_type s) (Some "NotPlanned") in
  set_slots start_slot end_slot on tl.

(** All intervals in input order over an all-on day: the last write wins. *)
Definition timeline_spec (intervals : list Interval) : list bool :=
  fold_left paint_spec intervals (repeat true 48).

(** The day [d] of the feed carries a date, which renders as [d_str]. *)
Definition dated (d : option YasnoDay) (d_str : Z) : Prop :=
  exists yd dt, d = Some yd /\ y_date yd = Some dt /\ strftime_Ymd dt = d_str.

(** ** Days *)

(** Status exclusivity of a day. *)
Definition exclusive (day : DaySchedule) : Prop :=
  (slots day <> None <-> status day = "normal")
  /\ (forall tl, slots day = Some tl -> length tl = 48%nat)
  /\ In (status day) ["normal"; "pending"; "emergency"].

(** ** Merger *)

(** Two timelines are element-wise identical. *)
Definition same_slots (a b : option (list bool)) : Prop :=
  match a, b with
  | Some ta, Some tb => forall i : nat, nth_error ta i = nth_error tb i
  | None, None => True
  | _, _ => False
  end.

(** Two timelines of one length differ in exactly one slot. *)
Definition differ_in_one_slot (ta tb : list bool) : Prop :=
  length ta = length tb /\
  exists i : nat, (i < length ta)%nat /\ nth_error ta i <> nth_error tb i
                  /\ forall j : nat, j <> i -> nth_error ta j = nth_error tb j.

(** The two sources match on a day, in the words of the description: both
    days are present, both have status [normal] and their timelines are
    element-wise identical. *)
Definition sources_match (g_d y_d : option DaySchedule) : Prop :=
  exists g y, g_d = Some g /\ y_d = Some y
              /\ status g = "normal" /\ status y = "normal"
              /\ same_slots (slots g) (slots y).

(** The entry of one date in the message of a group ([day_msg]), in the
    words of the description.  On a match it is one rendering, that of
    source A with the label of both sources; otherwise every source that is
    present is rendered on its own, source A before source B, and the
    renderings are joined by the source separator.  Two days whose
    timelines differ in exactly one slot get the two renderings. *)
Definition merged_entry (cfg : Config)
                        (format_day : DaySchedule -> datetime -> string -> string)
                        (g_d y_d : option DaySchedule) (day_msg : string) : Prop :=
  let join := String.concat (nl ++ separator_source cfg ++ nl)%string in
  (sources_match g_d y_d ->
   exists g, g_d = Some g
     /\ day_msg = replace ("[" ++ github_name cfg ++ "]")%string
                          ("[" ++ github_name cfg ++ ", " ++ yasno_name cfg ++ "]")%string
                          (format_day g (date g) "github"))
  /\ (~ sources_match g_d y_d ->
      forall g y, g_d = Some g -> y_d = Some y ->
        day_msg = join [format_day g (date g) "github"; format_day y (date g) "yasno"])
  /\ (forall g, g_d = Some g -> y_d = None -> day_msg = join [format_day g (date g) "github"])
  /\ (forall y, g_d = None -> y_d = Some y -> day_msg = join [format_day y (date y) "yasno"])
  /\ (forall g y tg ty,
        g_d = Some g -> y_d = Some y -> slots g = Some tg -> slots y = Some ty ->
        differ_in_one_slot tg ty ->
        day_msg = join [format_day g (date g) "github"; format_day y (date g) "yasno"]).

(** The block of one group in the message: the header of the group, then
    one entry for each of its first two dates, in order, joined by the day
    separator. *)
Definition merged_block (cfg : Config) (padded_year : bool)
                        (format_day : DaySchedule -> datetime -> string -> string)
                        (header_of : string -> string)
                        (gh ya : Snapshot) (grp : string) (block : string) : Prop :=
  exists day_msgs : list string,
    block = (header_of (replace "GPV" "" grp) ++ nl
             ++ String.concat (nl ++ separator_day cfg ++ nl)%string day_msgs)%string
    /\ Forall2 (fun d_str day_msg =>
                  merged_entry cfg format_day (day_of gh grp d_str) (day_of ya grp d_str)
                               day_msg)
               (firstn 2 (group_dates padded_year gh ya grp)) day_msgs.

(** The group has a date in one of the two snapshots. *)
Definition has_dates (padded_year : bool) (gh ya : Snapshot) (grp : string) : bool :=
  match group_dates padded_year gh ya grp with [] => false | _ => true end.

(** ** Change detector *)

(** [b] holds the bindings of [a] in another order, values related by [R]. *)
Definition reordered {K V : Type} (R : V -> V -> Prop) (a b : dict K V) : Prop :=
  exists b' : dict K V,
    Permutation a b' /\ Forall2 (fun x y => fst x = fst y /\ R (snd x) (snd y)) b' b.

(** The same cache with the keys of the source, group and date mappings in
    any order. *)
Definition reordered_cache : CacheState -> CacheState -> Prop :=
  reordered (reordered (reordered (@eq CacheDay))).

(** [d[k] = f(d[k])] for a key that is present. *)
Definition update {K V : Type} `{EqKey K} (d : dict K V) (k : K) (f : V -> V) : dict K V :=
  match get d k with Some v => set d k (f v) | None => d end.

(** The cache with the timeline of one day rewritten by [f]. *)
Definition edit_day (f : list bool -> list bool) (day : CacheDay) : CacheDay :=
  mkCacheDay (c_status day) (option_map f (c_slots day)).

Definition edit_cache (src grp : string) (d_str : Z) (f : list bool -> list bool)
                      (c : CacheState) : CacheState :=
  update c src (fun gs => update gs grp (fun ds => update ds d_str (edit_day f))).

(** Slot [i] negated. *)
Definition flip_slot (i : nat) (tl : list bool) : list bool :=
  match nth_error tl i with Some v => update_nth tl i (negb v) | None => tl end.

(** The timeline cached for a source, group and date. *)
Definition cached_timeline (c : CacheState) (src grp : string) (d_str : Z)
  : option (list bool) :=
  gs <- get c src ;; ds <- get gs grp ;; day <- get ds d_str ;; c_slots day.

(** Distinct keys at every level of a cache. *)
Definition wf_groups (gs : CacheGroups) : Prop := wf gs /\ Forall wf (values gs).
Definition wf_cache (c : CacheState) : Prop := wf c /\ Forall wf_groups (values c).

(** ** Numerals *)

(** The value of [hours] is a whole number. *)
Definition whole (hours : Q) : Prop := exists n : Z, hours == inject_Z n.

(** ** Sample inputs *)

(** Sixteen half-hours on, an outage from 08:00 to 09:00, on again. *)
Definition sample_timeline : list bool :=
  repeat true 16 ++ [false; false] ++ repeat true 30.

(** Hour 9 off, the other hours [yes]. *)
Definition sample_day : DayData := [("9", "no")].

(** A day whose only listed hour has a state outside the four known ones. *)
Definition day_with_unrecognised : DayData := [("1", "maybe")].

Definition fact_unrecognised : GithubFact :=
  [("0", [("GPV1.1", day_with_unrecognised)])].

(** Three day keys; the earliest one has no entry for group [GPV1.1]. *)
Definition fact_gap : GithubFact :=
  [ ("0", [("GPV2.1", [("1", "no")])]);
    ("86400", [("GPV1.1", [("1", "no")])]);
    ("172800", [("GPV1.1", [("2", "no")])]) ].

(** A day whose hours are all [yes], and the feed that holds it and the day
    with an unrecognised hour under the next key. *)
Definition day_all_yes : DayData := [("1", "yes")].

Definition fact_pending : GithubFact :=
  [ ("0", [("GPV1.1", day_all_yes)]);
    ("86400", [("GPV1.1", day_with_unrecognised)]) ].

(** An interval that starts half an hour before midnight of the day. *)
Definition interval_before_midnight : Interval :=
  mkInterval (Some (-30)%Z) (Some 0%Z) (Some "Definite").

Definition yasno_before_midnight : YasnoData :=
  [("1.1", mkYasnoGroup
             (Some (mkYasnoDay (Some (mkDatetime 0 7200)) (Some "ScheduleApplies")
                               (Some [interval_before_midnight])))
             None)].

(** An outage from 08:00 to 12:00, then a planned interval cancelled from
    10:00 on. *)
Definition sample_intervals : list Interval :=
  [ mkInterval (Some 480%Z) (Some 720%Z) (Some "Definite");
    mkInterval (Some 600%Z) (Some 1440%Z) (Some "NotPlanned") ].

Definition yasno_sample : YasnoData :=
  [("1.1", mkYasnoGroup
             (Some (mkYasnoDay (Some (mkDatetime 0 7200)) (Some "ScheduleApplies")
                               (Some sample_intervals)))
             (Some (mkYasnoDay (Some (mkDatetime 86400 7200)) (Some "WaitingForSchedule")
                               None)))].

(** A snapshot of one group and two dates, and the same cache with the
    sources and the dates in the opposite order. *)
Definition sample_snapshot : Snapshot :=
  [("GPV1.1", [ (1%Z, mkDay (Some sample_timeline) (mkDatetime 86400 7200) "normal");
                (2%Z, mkDay None (mkDatetime 172800 7200) "pending") ])].

Definition sample_old_cache : CacheState :=
  [ ("yasno", []);
    ("github", [("GPV1.1", [ (2%Z, mkCacheDay "pending" None);
                             (1%Z, mkCacheDay "normal" (Some sample_timeline)) ])]) ].


(* ================================================================== *)
(** * Renderer *)
(* ================================================================== *)

(** The part of [cfg['ui']] and [cfg['settings']] the renderers read. *)
Record Ui : Type := mkUi {
  icon_on : string;                (* cfg['ui']['icons']['on'] *)
  icon_off : string;               (* cfg['ui']['icons']['off'] *)
  icon_calendar : string;          (* cfg['ui']['icons']['calendar'] *)
  text_on : string;                (* cfg['ui']['text']['on'] *)
  text_off : string;               (* cfg['ui']['text']['off'] *)
  text_time_header : string;       (* cfg['ui']['text']['time_header'] *)
  text_emergency : string;         (* cfg['ui']['text']['emergency'] *)
  text_pending : string;           (* cfg['ui']['text']['pending'] *)
  style : string                   (* cfg['settings']['style'] *)
}.

(** [len(s)]: a [str] is a sequence of code points; in the UTF-8 bytes of
    the model those are the bytes that are not continuation bytes. *)
Definition is_continuation (c : ascii) : bool :=
  let n := nat_of_ascii c in ((128 <=? n) && (n <? 192))%nat.

Fixpoint py_len (s : string) : nat :=
  match s with
  | EmptyString => 0
  | String c s' => ((if is_continuation c then 0 else 1) + py_len s')%nat
  end.

(** [c * n] for a one-character string. *)
Fixpoint str_repeat (c : ascii) (n : nat) : string :=
  match n with
  | O => EmptyString
  | S n' => String c (str_repeat c n')
  end.

Definition space : ascii := ascii_of_nat 32.
Definition dash : ascii := ascii_of_nat 45.

(** [f"{s:^{width}}"]: centred in [width], the odd space going right; a
    text that does not fit is left as it is. *)
Definition center (width : nat) (s : string) : string :=
  let pad := (width - py_len s)%nat in
  (str_repeat space (pad / 2) ++ s ++ str_repeat space (pad - pad / 2))%string.

(** [f"{s:{width}}"]: a string is left-aligned by default. *)
Definition ljust (width : nat) (s : string) : string :=
  (s ++ str_repeat space (width - py_len s))%string.

(** ["\n".join(lines)] *)
Definition join_lines (lines : list string) : string := String.concat nl lines.

Definition COL1 : nat := 13.
Definition COL2 : nat := 13.
Definition COL3 : nat := 8.

Section Renderer.
Variable float_repr : Q -> string.
Variable ui : Ui.

(** [format_hours_short] *)
Definition format_hours_short (hours : Q) : string :=
  if Qeq_bool hours (inject_Z (int_of_float hours)) then
    (str (int_of_float hours) ++ "г")%string
  else
    (float_repr hours ++ "г")%string.

(** The summary lines both layouts end with. *)
Definition summary_on (total_on : Q) : string :=
  (icon_on ui ++ " " ++ text_on ui ++ ": " ++ format_hours_full float_repr total_on)%string.

Definition summary_off (total_off : Q) : string :=
  (icon_off ui ++ " " ++ text_off ui ++ ": " ++ format_hours_full float_repr total_off)%string.

(** The [for p in periods] loop of [render_table]; the state is
    [(lines, total_on, total_off)]. *)
Definition table_row (p : Period) : string :=
  let time_range := (p_start p ++ "-" ++ p_end p)%string in
  let dur := format_hours_short (p_hours p) in
  if p_is_on p then
    (ljust COL1 "" ++ "|" ++ center COL2 time_range ++ "|" ++ center COL3 dur)%string
  else
    (center COL1 time_range ++ "|" ++ ljust COL2 "" ++ "|" ++ center COL3 dur)%string.

Definition render_table_loop (periods : list Period) (lines : list string)
  : list string * Q * Q :=
  fold_left
    (fun st p =>
       let '(lines, total_on, total_off) := st in
       if p_is_on p then (lines ++ [table_row p], total_on + p_hours p, total_off)
       else (lines ++ [table_row p], total_on, total_off + p_hours p))
    periods (lines, 0, 0).

(** [render_table] *)
Definition render_table (periods : list Period) : string :=
  let total_width := (COL1 + COL2 + COL3 + 4)%nat in
  let header1 := (center COL1 (text_off ui) ++ "|" ++ center COL2 (text_on ui)
                  ++ "|" ++ center COL3 (text_time_header ui))%string in
  let sep_line := str_repeat dash total_width in
  let '(lines, total_on, total_off) :=
    render_table_loop periods [sep_line; header1; sep_line] in
  let lines := lines ++ [sep_line] in
  let summary := [""; summary_on total_on; summary_off total_off] in
  let table_text := join_lines lines in
  ("<pre>" ++ table_text ++ "</pre>" ++ join_lines summary)%string.

(** The [for p in periods] loop of [render_list]. *)
Definition list_line (p : Period) : string :=
  let ico := if p_is_on p then icon_on ui else icon_off ui in
  (ico ++ " " ++ p_start p ++ " - " ++ p_end p ++ " … ("
   ++ format_hours_full float_repr (p_hours p) ++ ")")%string.

Definition render_list_loop (periods : list Period) : list string * Q * Q :=
  fold_left
    (fun st p =>
       let '(lines, total_on, total_off) := st in
       if p_is_on p then (lines ++ [list_line p], total_on + p_hours p, total_off)
       else (lines ++ [list_line p], total_on, total_off + p_hours p))
    periods ([], 0, 0).

(** [render_list] *)
Definition render_list (periods : list Period) : string :=
  let '(lines, total_on, total_off) := render_list_loop periods in
  join_lines (lines ++ [""; summary_on total_on; summary_off total_off]).
End Renderer.

(** [DAYS_UA] *)
Definition DAYS_UA : dict Z string :=
  [ (0%Z, "Понеділок"); (1%Z, "Вівторок"); (2%Z, "Середа"); (3%Z, "Четвер");
    (4%Z, "П'ятниця"); (5%Z, "Субота"); (6%Z, "Неділя") ].

(** [date.weekday()]: Monday is 0; day 0 (1970-01-01) was a Thursday. *)
Definition weekday (dt : datetime) : Z := ((strftime_Ymd dt + 3) mod 7)%Z.

Section FormatDay.
(** [strftime_dm] is [date.strftime("%d.%m")], a built-in of the language. *)
Variable float_repr : Q -> string.
Variable ui : Ui.
Variable cfg : Config.
Variable strftime_dm : datetime -> string.

(** [cfg['sources'].get(src, {}).get('name', src)] *)
Definition source_name (src : string) : string :=
  if src =? "github" then github_name cfg
  else if src =? "yasno" then yasno_name cfg
  else src.

(** [format_day]; [None] is the [KeyError] of [DAYS_UA[...]]. *)
Definition format_day (data : DaySchedule) (date : datetime) (src : string)
  : option string :=
  let d_str := strftime_dm date in
  day_name <- get DAYS_UA (weekday date) ;;
  let src_name := source_name src in
  let lines := [(icon_calendar ui ++ "  " ++ d_str ++ " (" ++ day_name ++ ") ["
                 ++ src_name ++ "]:")%string; ""%string] in
  let st := status data in
  let lines :=
    if st =? "emergency" then lines ++ [text_emergency ui]
    else if st =? "pending" then lines ++ [text_pending ui]
    else match slots data with
         | Some ((_ :: _) as tl) =>
             let periods := slots_to_periods tl in
             if style ui =? "table" then lines ++ [render_table float_repr ui periods]
             else lines ++ [render_list float_repr ui periods]
         | _ => lines
         end in
  Some (join_lines lines).
End FormatDay.

(* ================================================================== *)
(** * Message bookkeeping and the run *)
(* ================================================================== *)

(** The requests [manage_msgs] posts to the messaging service. *)
Inductive Request : Type :=
| PinChatMessage (message_id : Z)
| DeleteMessage (message_id : Z).

Definition MAX_MESSAGES : nat := 3.

(** [while len(ids) > MAX_MESSAGES: old = ids.pop(0); delete old]: the
    requests posted and the list that is left. *)
Fixpoint prune_msgs (ids : list Z) : list Request * list Z :=
  match ids with
  | [] => ([], [])
  | old :: rest =>
      if (MAX_MESSAGES <? length ids)%nat then
        let '(reqs, ids') := prune_msgs rest in (DeleteMessage old :: reqs, ids')
      else ([], ids)
  end.

(** [manage_msgs]: [ids] is the list read from the message file ([[]] when
    it cannot be read); the result is the requests in the order they are
    posted and the list written back.  The answer of a request is never
    read, so both are functions of [ids] and [mid]; an exception cuts the
    sequence short, see [post_all] and [main]. *)
Definition manage_msgs (ids : list Z) (mid : Z) : list Request * list Z :=
  let ids := ids ++ [mid] in
  let '(reqs, ids) := prune_msgs ids in
  (PinChatMessage mid :: reqs, ids).

(** [get_cache]: the parsed cache file, or the empty cache when the file
    cannot be read. *)
Definition default_cache : CacheState := [("github", []); ("yasno", [])].

Definition get_cache (cache_file : option CacheState) : CacheState :=
  match cache_file with Some c => c | None => default_cache end.

(** How a run of [main] ends. *)
Inductive Outcome : Type :=
| NoData          (* "No data from any source" *)
| Raised          (* an exception leaves [main] *)
| NoChanges       (* "No changes." *)
| NoMessage       (* "No message generated" *)
| SendFailed      (* "Failed to send message" *)
| Done.           (* "Done." *)

(** What the outside world does to the unguarded calls of one run: the calls
    of [requests.post] in [manage_msgs] and the two file writes.  A call
    either returns or raises.  A write that raises may leave the file as it
    was, damaged or complete: the world says what the file reads as
    afterwards. *)
Record World : Type := mkWorld {
  post_raises : nat -> bool;
    (* the call number [k] of [requests.post] raises *)
  write_ids_fault : option (list Z);
    (* [Some l]: writing the ids file raises and the file then reads as [l] *)
  save_cache_fault : option (option CacheState)
    (* [Some c]: [save_cache] raises and the cache file then reads as [c] *)
}.

(** The calls of [requests.post] made for the requests [reqs], the first of
    them being call number [k]: they stop with the first call that raises.
    The flag says whether every call returned. *)
Fixpoint post_all (raises : nat -> bool) (k : nat) (reqs : list Request)
  : list Request * bool :=
  match reqs with
  | [] => ([], true)
  | r :: reqs' =>
      if raises k then ([r], false)
      else let '(made, ok) := post_all raises (S k) reqs' in (r :: made, ok)
  end.

(** What a run leaves behind: what the two files read as, the text handed
    to [send_tg] and the calls of [requests.post] that were made. *)
Record Run : Type := mkRun {
  outcome : Outcome;
  cache_after : option CacheState;
  ids_after : list Z;
  sent : option string;
  requests : list Request
}.

Section Main.
(** The configuration, the built-in [int], the padding of [%Y], the renderer
    pieces of the merger and the delivery [send_tg] (its answer is the
    message id, [None] on failure; it catches its own exceptions) are
    given. *)
Variable cfg : Config.
Variable int : string -> option Z.
Variable padded_year : bool.
Variable format_day : DaySchedule -> datetime -> string -> string.
Variable header_of : string -> string.
Variable footer : string.
Variable send_tg : string -> option Z.

(** Lines 473-475, after [send_tg] has answered [mid]: [manage_msgs] posts
    its requests and writes the ids, then [save_cache] writes the cache;
    the first call that raises ends the run. *)
Definition deliver (w : World) (cache_file : option CacheState) (ids : list Z)
                   (new_c : CacheState) (msg : string) (mid : Z) : Run :=
  let '(reqs, ids') := manage_msgs ids mid in
  match post_all (post_raises w) 0 reqs with
  | (made, false) => mkRun Raised cache_file ids (Some msg) made
  | (made, true) =>
      match write_ids_fault w with
      | Some ids_left => mkRun Raised cache_file ids_left (Some msg) made
      | None =>
          match save_cache_fault w with
          | Some cache_left => mkRun Raised cache_left ids' (Some msg) made
          | None => mkRun Done (Some new_c) ids' (Some msg) made
          end
      end
  end.

(** [main], from the two fetched payloads ([None] for a falsy one; an empty
    dictionary is falsy as well) and the two files, in the world [w].  The
    calls of [print] are left out. *)
Definition main (w : World) (gh_data : option GithubFact) (ya_data : option YasnoData)
                (cache_file : option CacheState) (ids : list Z) : Run :=
  let untouched o s := mkRun o cache_file ids s [] in
  let gh_truthy := match gh_data with Some _ => true | None => false end in
  let ya_truthy := match ya_data with Some (_ :: _) => true | _ => false end in
  if negb gh_truthy && negb ya_truthy then untouched NoData None
  else
    match extract_github int gh_data (groups cfg) with
    | None => untouched Raised None
    | Some gh_sched =>
        match extract_yasno ya_data (groups cfg) with
        | None => untouched Raised None
        | Some ya_sched =>
            let new_c := new_cache gh_sched ya_sched in
            let old_c := get_cache cache_file in
            if cache_eqb new_c old_c then untouched NoChanges None
            else
              match format_msg cfg padded_year format_day header_of footer
                               gh_sched ya_sched with
              | None => untouched Raised None
              | Some None | Some (Some EmptyString) => untouched NoMessage None
              | Some (Some msg) =>
                  match send_tg msg with
                  | None | Some 0%Z => untouched SendFailed (Some msg)
                  | Some mid => deliver w cache_file ids new_c msg mid
                  end
              end
        end
    end.
End Main.

(* ================================================================== *)
(** * Vocabulary of the further properties *)
(* ================================================================== *)

(** The number of half-hours in a duration. *)
Definition half_hour_count (hours : Q) : nat :=
  Z.to_nat ((Qnum hours * 2) / Zpos (Qden hours)).

(** Re-expansion of a period list by durations: every period contributes
    two copies of its [is_on] value per hour. *)
Definition expand_by_hours (ps : list Period) : list bool :=
  flat_map (fun p => repeat (p_is_on p) (half_hour_count (p_hours p))) ps.

(** The number of places where a timeline changes value. *)
Fixpoint changes (slots : list bool) : nat :=
  match slots with
  | a :: ((b :: _) as rest) => ((if Bool.eqb a b then 0 else 1) + changes rest)%nat
  | _ => 0
  end.

(** The interval [s] makes the loop write outside the list: its first index
    lies more than 48 slots before the day and the range is not empty. *)
Definition raises_index_error (s : Interval) : Prop :=
  ((get0 (i_start s) / 30 < -48) /\
   (get0 (i_start s) / 30 < Z.min (get0 (i_end s) / 30) 48))%Z.

(** The interval [s] covers slot [i]. *)
Definition covers_slot (s : Interval) (i : nat) : bool :=
  in_slots (get0 (i_start s) / 30) (clamp 0 48 (get0 (i_end s) / 30)) i.

Definition interval_on (s : Interval) : bool :=
  option_eqb String.eqb (i_type s) (Some "NotPlanned").

(** Two dictionaries bind the same keys, to values related by [R]. *)
Definition dict_sim {K V : Type} `{EqKey K} (R : V -> V -> Prop) (a b : dict K V) : Prop :=
  forall k : K,
    match get a k, get b k with
    | Some x, Some y => R x y
    | None, None => True
    | _, _ => False
    end.

(** Two caches hold the same sources, groups, dates and days. *)
Definition cache_sim : CacheState -> CacheState -> Prop :=
  dict_sim (dict_sim (dict_sim (@eq CacheDay))).

(** Distinct keys at both levels of a snapshot. *)
Definition wf_snapshot (s : Snapshot) : Prop := wf s /\ Forall wf (values s).

(** The cached form of a day. *)
Definition strip_day (day : DaySchedule) : CacheDay :=
  mkCacheDay (status day) (slots day).

(** The number of slots of a timeline that hold [v]. *)
Definition count_slots (v : bool) (slots : list bool) : nat :=
  length (filter (Bool.eqb v) slots).

(** [n] half-hours, in hours. *)
Definition hours_of_slots (n : nat) : Q := inject_Z (Z.of_nat n) * (1 # 2).

(** The hours of the periods with [is_on = v], added up. *)
Definition hours_where (v : bool) (ps : list Period) : Q :=
  fold_right (fun p acc => (if Bool.eqb (p_is_on p) v then p_hours p else 0) + acc) 0 ps.

(** A sample configuration of the renderers, with ASCII icons. *)
Definition sample_ui : Ui :=
  mkUi "+" "-" "#" "On" "Off" "Time" "Emergency outages" "Schedule pending" "list".

(** The loop over interval [s] writes slot [i]: index [i] lies in
    [range(start, min(end, 48))], or the negative index [i - 48] does. *)
Definition writes_slot (s : Interval) (i : nat) : bool :=
  let start := (get0 (i_start s) / 30)%Z in
  let stop := Z.min (get0 (i_end s) / 30) 48 in
  (((start <=? Z.of_nat i) && (Z.of_nat i <? stop))
   || ((start <=? Z.of_nat i - 48) && (Z.of_nat i - 48 <? stop)))%Z%bool.

(** The value slot [i] holds after all intervals: that of the last interval
    that writes it, [on] when none does. *)
Definition last_write (intervals : list Interval) (i : nat) : bool :=
  fold_left (fun v s => if writes_slot s i then interval_on s else v) intervals true.

(** The character [c] occurs in [s]. *)
Fixpoint has_char (c : ascii) (s : string) : bool :=
  match s with
  | EmptyString => false
  | String c' s' => Ascii.eqb c' c || has_char c s'
  end.

Definition bracket : ascii := ascii_of_nat 91.

(** The header line of [format_day] up to the source label. *)
Definition day_header_prefix (ui : Ui) (strftime_dm : datetime -> string)
                             (date : datetime) (day_name : string) : string :=
  (icon_calendar ui ++ "  " ++ strftime_dm date ++ " (" ++ day_name ++ ") ")%string.

(** The interval raises, as a test. *)
Definition raises_dec (s : Interval) : bool :=
  ((get0 (i_start s) / 30 <? -48) &&
   (get0 (i_start s) / 30 <? Z.min (get0 (i_end s) / 30) 48))%Z.

(** ** Further sample inputs *)

Definition sample_cfg : Config := mkConfig ["GPV1.1"] "GitHub" "Yasno" "--" "==".

(** A stand-in renderer that only names the source, a header, and a
    delivery that always answers message id 7. *)
Definition sample_format_day (_ : DaySchedule) (_ : datetime) (src : string) : string := src.
Definition sample_header (grp_num : string) : string := ("Group " ++ grp_num)%string.
Definition sample_send (_ : string) : option Z := Some 7%Z.

(** A feed of Source A with one day for the group. *)
Definition sample_fact : GithubFact := [("86400", [("GPV1.1", sample_day)])].

(** The snapshots of the two sources for one group and one date, with
    timelines that differ in slot 20 only. *)
Definition snapshot_a : Snapshot :=
  [("GPV1.1", [(1%Z, mkDay (Some sample_timeline) (mkDatetime 86400 7200) "normal")])].

Definition snapshot_b : Snapshot :=
  [("GPV1.1", [(1%Z, mkDay (Some (flip_slot 20 sample_timeline))
                           (mkDatetime 86400 10800) "normal")])].

(** A feed whose day key is in milliseconds, and one whose key is no number. *)
Definition fact_milliseconds : GithubFact :=
  [("1767304800000", [("GPV1.1", sample_day)])].

Definition fact_not_a_number : GithubFact :=
  [("86400", [("GPV1.1", sample_day)]); ("tomorrow", [])].

(** A world in which every call returns, one in which the second call of
    [requests.post] raises, and one in which [save_cache] raises and leaves
    the file as it was before any cache was written. *)
Definition calm : World := mkWorld (fun _ => false) None None.

Definition second_post_raises : World :=
  mkWorld (fun k => (k =? 1)%nat) None None.

Definition save_cache_raises : World :=
  mkWorld (fun _ => false) None (Some None).



(* ================================================================== *)
(** * Facts about dictionaries, loops and sorting *)
(* ================================================================== *)

Ltac zbool :=
  repeat match goal with
         | |- context [Z.leb ?x ?y] => destruct (Z.leb_spec x y)
         | |- context [Z.ltb ?x ?y] => destruct (Z.ltb_spec x y)
         end;
  cbn [andb]; try reflexivity; try lia.

Section DictFacts.
Context {K V : Type} `{EqKey K}.

Lemma keqb_refl (k : K) : keqb k k = true.
Proof. destruct (keqb_spec k k); congruence. Qed.

Lemma keqb_neq (a b : K) : keqb a b = false <-> a <> b.
Proof. destruct (keqb_spec a b); split; congruence. Qed.

Lemma get_In (d : dict K V) k v : get d k = Some v -> In (k, v) d.
Proof.
  induction d as [|[k' v'] d IH]; simpl; [discriminate|].
  destruct (keqb_spec k' k) as [->|]; intros E.
  - injection E as ->. now left.
  - right. now apply IH.
Qed.

Lemma In_get (d : dict K V) k v : wf d -> In (k, v) d -> get d k = Some v.
Proof.
  unfold wf. induction d as [|[k' v'] d IH]; simpl; [tauto|].
  intros Hnd [E|Hin]; inversion Hnd as [|? ? Hk Hd]; subst.
  - injection E as -> ->. now rewrite keqb_refl.
  - destruct (keqb_spec k' k) as [->|].
    + exfalso. apply Hk. unfold keys. change k with (fst (k, v)). now apply in_map.
    + now apply IH.
Qed.

Lemma set_In (d : dict K V) k v k' v' :
  In (k', v') (set d k v) -> (k' = k /\ v' = v) \/ In (k', v') d.
Proof.
  induction d as [|[k0 v0] d IH]; simpl.
  - intros [E|[]]. injection E as <- <-. now left.
  - destruct (keqb_spec k0 k) as [->|]; simpl.
    + intros [E|Hin]; [injection E as <- <-; now left | right; now right].
    + intros [E|Hin]; [right; now left|].
      destruct (IH Hin); [now left | right; now right].
Qed.

Lemma get_set_same (d : dict K V) k v : get (set d k v) k = Some v.
Proof.
  induction d as [|[k0 v0] d IH]; simpl.
  - now rewrite keqb_refl.
  - destruct (keqb_spec k0 k) as [->|E]; simpl.
    + now rewrite keqb_refl.
    + apply keqb_neq in E. now rewrite E.
Qed.

Lemma keys_set (d : dict K V) k v k' :
  In k' (keys (set d k v)) <-> k' = k \/ In k' (keys d).
Proof.
  induction d as [|[k0 v0] d IH]; simpl.
  - intuition congruence.
  - destruct (keqb_spec k0 k) as [->|E]; simpl.
    + intuition congruence.
    + rewrite IH. intuition congruence.
Qed.

Lemma set_wf (d : dict K V) k v : wf d -> wf (set d k v).
Proof.
  unfold wf. induction d as [|[k0 v0] d IH]; simpl; intros Hnd.
  - constructor; [tauto | constructor].
  - inversion Hnd as [|? ? Hk Hd]; subst.
    destruct (keqb_spec k0 k) as [->|E]; simpl.
    + now constructor.
    + constructor; [|now apply IH].
      intros Hin. apply keys_set in Hin. destruct Hin; [congruence | tauto].
Qed.

Lemma set_length (d : dict K V) k v : (length (set d k v) <= S (length d))%nat.
Proof.
  induction d as [|[k0 v0] d IH]; simpl; [lia|].
  destruct (keqb k0 k); simpl; lia.
Qed.

Lemma get_update (d : dict K V) k f v :
  get d k = Some v -> get (update d k f) k = Some (f v).
Proof. intros E. unfold update. rewrite E. apply get_set_same. Qed.

Lemma values_In (P : V -> Prop) (d : dict K V) k v :
  Forall P (values d) -> In (k, v) d -> P v.
Proof.
  unfold values. rewrite Forall_forall. intros HP Hin. apply HP.
  change v with (snd (k, v)). now apply in_map.
Qed.

(** What [==] on dictionaries guarantees for a key of the left operand. *)
Lemma dict_eqb_find (veqb : V -> V -> bool) (a b : dict K V) k x :
  dict_eqb veqb a b = true -> get a k = Some x ->
  exists y, get b k = Some y /\ veqb x y = true.
Proof.
  unfold dict_eqb. rewrite andb_true_iff, forallb_forall. intros [_ Hall] Hg.
  specialize (Hall (k, x) (get_In _ _ _ Hg)). simpl in Hall.
  destruct (get b k) as [y|]; [|discriminate]. now exists y.
Qed.

Lemma reordered_keys (R : V -> V -> Prop) (a b : dict K V) :
  reordered R a b -> Permutation (keys a) (keys b).
Proof.
  intros (b' & Hp & Hf). unfold keys. rewrite Hp. clear Hp.
  induction Hf as [|x y l l' [E _] _ IH]; simpl; [reflexivity|].
  rewrite E. now constructor.
Qed.

Lemma reordered_wf (R : V -> V -> Prop) (a b : dict K V) :
  reordered R a b -> wf a -> wf b.
Proof.
  intros Hr. unfold wf. apply Permutation_NoDup. now apply (reordered_keys R).
Qed.

Lemma reordered_In (R : V -> V -> Prop) (a b : dict K V) k x :
  reordered R a b -> In (k, x) a -> exists y, In (k, y) b /\ R x y.
Proof.
  intros (b' & Hp & Hf) Hin. apply (Permutation_in _ Hp) in Hin. clear Hp.
  induction Hf as [|[k1 x1] [k2 y2] l l' [E Hr] _ IH]; simpl in *; [tauto|].
  destruct Hin as [Hin|Hin].
  - injection Hin as -> ->. exists y2. subst. auto.
  - destruct (IH Hin) as (y & ? & ?). exists y. auto.
Qed.

Lemma reordered_In_rev (R : V -> V -> Prop) (a b : dict K V) k y :
  reordered R a b -> In (k, y) b -> exists x, In (k, x) a /\ R x y.
Proof.
  intros (b' & Hp & Hf) Hin.
  enough (exists x, In (k, x) b' /\ R x y) as (x & Hx & Hr).
  { exists x. split; [|exact Hr]. apply (Permutation_in _ (Permutation_sym Hp)), Hx. }
  clear Hp.
  induction Hf as [|[k1 x1] [k2 y2] l l' [E Hr] _ IH]; simpl in *; [tauto|].
  destruct Hin as [Hin|Hin].
  - injection Hin as -> ->. exists x1. subst. auto.
  - destruct (IH Hin) as (x & ? & ?). exists x. auto.
Qed.

(** The entry of [a] that a reordering [b] holds under the same key. *)
Lemma reordered_get (R : V -> V -> Prop) (a b : dict K V) k y :
  wf a -> reordered R a b -> get b k = Some y -> exists x, get a k = Some x /\ R x y.
Proof.
  intros Wa Hr Hg.
  destruct (reordered_In_rev R a b k y Hr (get_In _ _ _ Hg)) as (x & Hx & Hxy).
  exists x. split; [now apply In_get | exact Hxy].
Qed.

(** [==] does not see the order of the bindings. *)
Lemma reordered_dict_eqb (veqb : V -> V -> bool) (R : V -> V -> Prop) (a b : dict K V) :
  (forall x y, In x (values a) -> R x y -> veqb x y = true) ->
  wf a -> reordered R a b -> dict_eqb veqb a b = true.
Proof.
  intros HR Hwf Hr. unfold dict_eqb. apply andb_true_iff. split.
  - apply Nat.eqb_eq. pose proof (Permutation_length (reordered_keys R a b Hr)) as E.
    unfold keys in E. now rewrite !length_map in E.
  - apply forallb_forall. intros [k x] Hin. simpl.
    destruct (reordered_In R a b k x Hr Hin) as (y & Hy & Hxy).
    rewrite (In_get b k y (reordered_wf R a b Hr Hwf) Hy).
    apply HR; [|exact Hxy]. unfold values. change x with (snd (k, x)). now apply in_map.
Qed.
End DictFacts.

(** Invariants of the two kinds of loop. *)
Lemma fold_left_inv {A B : Type} (P : A -> Prop) (f : A -> B -> A) (l : list B) :
  forall a, P a -> (forall a x, In x l -> P a -> P (f a x)) -> P (fold_left f l a).
Proof.
  induction l as [|x l IH]; intros a Ha Hf; simpl; [exact Ha|].
  apply IH; [apply Hf; [now left | exact Ha]|].
  intros a' y Hy. apply Hf. now right.
Qed.

Lemma for_each_inv {A S : Type} (P : S -> Prop) (body : S -> A -> option S) (l : list A) :
  forall s s', for_each body l s = Some s' -> P s ->
  (forall s x s', In x l -> P s -> body s x = Some s' -> P s') -> P s'.
Proof.
  induction l as [|x l IH]; intros s s' E Hs Hb; simpl in E.
  - now injection E as <-.
  - destruct (body s x) as [s1|] eqn:E1; simpl in E; [|discriminate].
    apply (IH s1 s' E).
    + apply (Hb s x s1); [now left | exact Hs | exact E1].
    + intros s2 y s3 Hy. apply Hb. now right.
Qed.

(** A loop of [d[k] = v] assignments builds a dictionary. *)
Lemma fold_set_wf {K V A : Type} `{EqKey K} (P : V -> Prop)
      (kf : A -> K) (vf : A -> V) (l : list A) :
  (forall x, In x l -> P (vf x)) ->
  forall acc : dict K V, wf acc -> Forall P (values acc) ->
  let r := fold_left (fun r x => set r (kf x) (vf x)) l acc in
  wf r /\ Forall P (values r).
Proof.
  intros HP acc Wa Pa. cbv zeta.
  apply (fold_left_inv (fun r => wf r /\ Forall P (values r))); [now split|].
  intros r x Hx [Wr Pr]. split; [now apply set_wf|].
  apply Forall_forall. intros v Hv. unfold values in Hv. apply in_map_iff in Hv.
  destruct Hv as ([k v'] & <- & Hin). simpl.
  apply set_In in Hin. destruct Hin as [[-> ->]|Hin]; [now apply HP|].
  apply (values_In P r k v' Pr Hin).
Qed.

(** [sorted] is a sort: it permutes its argument, and in the result no
    element goes strictly before its predecessor. *)
Section SortFacts.
Context {A : Type} (ltb : A -> A -> bool).

Lemma insert_sorted_perm x l : Permutation (x :: l) (insert_sorted ltb x l).
Proof.
  induction l as [|y l IH]; simpl; [reflexivity|].
  destruct (ltb x y); [reflexivity|].
  rewrite perm_swap. now constructor.
Qed.

Lemma sorted_perm l : Permutation l (sorted ltb l).
Proof.
  unfold sorted. rewrite <- (app_nil_r l) at 1. generalize (@nil A) as acc.
  induction l as [|x l IH]; intros acc; simpl; [reflexivity|].
  rewrite <- IH, <- insert_sorted_perm. now rewrite Permutation_middle.
Qed.

Hypothesis ltb_asym : forall x y, ltb x y = true -> ltb y x = false.

Lemma insert_sorted_Sorted x l :
  Sorted (fun a b => ltb b a = false) l ->
  Sorted (fun a b => ltb b a = false) (insert_sorted ltb x l).
Proof.
  induction l as [|y l IH]; simpl; intros Hs.
  - repeat constructor.
  - destruct (ltb x y) eqn:E.
    + constructor; [exact Hs | constructor; now apply ltb_asym].
    + inversion Hs as [|? ? Hl Hhd]; subst. constructor; [now apply IH|].
      destruct l as [|z l]; simpl.
      * constructor; exact E.
      * destruct (ltb x z); constructor; [exact E|]. now inversion Hhd.
Qed.

Lemma sorted_Sorted l : Sorted (fun a b => ltb b a = false) (sorted ltb l).
Proof.
  unfold sorted. apply fold_left_inv; [constructor|].
  intros a x _. apply insert_sorted_Sorted.
Qed.

Hypothesis ltb_trans : forall x y z, ltb y x = false -> ltb z y = false -> ltb z x = false.

Lemma Sorted_firstn_le (l : list A) n x y :
  Sorted (fun a b => ltb b a = false) l ->
  In x (firstn n l) -> In y (skipn n l) -> ltb y x = false.
Proof.
  intros Hs. apply Sorted_StronglySorted in Hs; [|intros a b c; apply ltb_trans].
  revert n. induction Hs as [|a l Hl IH Hall]; intros n Hx Hy.
  - now rewrite firstn_nil in Hx.
  - destruct n as [|n]; simpl in *; [tauto|].
    destruct Hx as [->|Hx].
    + rewrite Forall_forall in Hall. apply Hall.
      rewrite <- (firstn_skipn n l). apply in_or_app. now right.
    + now apply (IH n).
Qed.

Lemma sorted_StronglySorted l :
  StronglySorted (fun a b => ltb b a = false) (sorted ltb l).
Proof.
  apply Sorted_StronglySorted; [intros a b c; apply ltb_trans | apply sorted_Sorted].
Qed.
End SortFacts.

(** Lists of slots. *)
Lemma list_eqb_bool_eq (a b : list bool) : list_eqb Bool.eqb a b = true <-> a = b.
Proof.
  revert b. induction a as [|x a IH]; intros [|y b]; simpl; split; try congruence.
  - intros E. apply andb_true_iff in E. destruct E as [E1 E2].
    apply Bool.eqb_prop in E1. apply IH in E2. congruence.
  - intros E. injection E as -> ->. rewrite Bool.eqb_reflx. now apply IH.
Qed.

Lemma update_nth_length {A} (l : list A) n v : length (update_nth l n v) = length l.
Proof.
  revert n. induction l as [|x l IH]; intros [|n]; simpl; auto.
Qed.

Lemma nth_error_update_nth {A} (l : list A) n v i :
  nth_error (update_nth l n v) i
  = if (i =? n)%nat then (if (n <? length l)%nat then Some v else None)
    else nth_error l i.
Proof.
  revert n i. induction l as [|x l IH]; intros [|n] [|i]; simpl; auto.
  all: now destruct (i =? n)%nat.
Qed.

Lemma setitem_length {A} (l : list A) i v l' :
  setitem l i v = Some l' -> length l' = length l.
Proof.
  unfold setitem.
  destruct (_ && _)%bool; [intros E; injection E as <-; apply update_nth_length|].
  destruct (_ && _)%bool; [intros E; injection E as <-; apply update_nth_length|discriminate].
Qed.

Lemma setitem_in_range {A} (l : list A) i v :
  (0 <= i < Z.of_nat (length l))%Z -> setitem l i v = Some (update_nth l (Z.to_nat i) v).
Proof.
  intros Hi. unfold setitem.
  destruct (Z.leb_spec 0 i), (Z.ltb_spec i (Z.of_nat (length l))); simpl;
    try reflexivity; lia.
Qed.

Lemma nth_error_enumerate {A} (tl : list A) : forall b i x,
  nth_error tl i = Some x ->
  nth_error (combine (seq b (length tl)) tl) i = Some ((b + i)%nat, x).
Proof.
  induction tl as [|y tl IH]; intros b [|i] x E; simpl in *; try discriminate.
  - injection E as ->. now rewrite Nat.add_0_r.
  - rewrite (IH (S b) i x E). f_equal. f_equal. lia.
Qed.


(** ** Loops, dictionaries and strings, continued *)

Lemma for_each_cons {A S : Type} (body : S -> A -> option S) x l s :
  for_each body (x :: l) s = bind (body s x) (for_each body l).
Proof. reflexivity. Qed.

Section MoreDictFacts.
Context {K V : Type} `{EqKey K}.

Lemma get_set_other (d : dict K V) k v k' :
  k' <> k -> get (set d k v) k' = get d k'.
Proof.
  intros Hne. induction d as [|[k0 v0] d IH]; simpl.
  - destruct (keqb_spec k k'); congruence.
  - destruct (keqb_spec k0 k) as [->|E]; simpl.
    + destruct (keqb_spec k k'); congruence.
    + now rewrite IH.
Qed.

Lemma In_keys_get (d : dict K V) k :
  In k (keys d) <-> exists v, get d k = Some v.
Proof.
  induction d as [|[k0 v0] d IH]; simpl.
  - split; [tauto | intros [v E]; discriminate].
  - destruct (keqb_spec k0 k) as [->|Hne].
    + split; [eauto | auto].
    + rewrite <- IH. intuition congruence.
Qed.

(** A loop of assignments [r[g] = f(g)]: the last write for a key is the
    only one that can be seen. *)
Lemma get_fold_set (f : K -> V) (l : list K) : forall (acc : dict K V) k,
  get (fold_left (fun r g => set r g (f g)) l acc) k
  = if existsb (keqb k) l then Some (f k) else get acc k.
Proof.
  induction l as [|g l IH]; intros acc k; simpl; [reflexivity|].
  rewrite IH. destruct (existsb (keqb k) l); [now rewrite orb_true_r|].
  rewrite orb_false_r. destruct (keqb_spec k g) as [->|Hne].
  - apply get_set_same.
  - now apply get_set_other.
Qed.

Lemma set_fresh (d : dict K V) k v :
  ~ In k (keys d) -> set d k v = d ++ [(k, v)].
Proof.
  induction d as [|[k0 v0] d IH]; simpl; intros Hn; [reflexivity|].
  destruct (keqb_spec k0 k) as [->|Hne]; [tauto|]. rewrite IH; tauto.
Qed.

Lemma dict_sim_refl (R : V -> V -> Prop) (a : dict K V) :
  (forall x, R x x) -> dict_sim R a a.
Proof. intros HR k. destruct (get a k); [apply HR | exact I]. Qed.

Lemma dict_eqb_keys (veqb : V -> V -> bool) (a b : dict K V) :
  dict_eqb veqb a b = true -> wf a -> forall k, In k (keys b) -> In k (keys a).
Proof.
  unfold dict_eqb. rewrite andb_true_iff, forallb_forall, Nat.eqb_eq.
  intros [Hlen Hall] Wa.
  assert (Hincl : incl (keys a) (keys b)).
  { intros k Hk. apply In_keys_get in Hk. destruct Hk as [x Hx].
    specialize (Hall (k, x) (get_In _ _ _ Hx)). simpl in Hall.
    apply In_keys_get. destruct (get b k); [eauto | discriminate]. }
  apply (NoDup_length_incl Wa); [|exact Hincl].
  unfold keys. rewrite !length_map. lia.
Qed.

(** [==] on dictionaries with distinct keys is equality of the bindings. *)
Lemma dict_eqb_sim (veqb : V -> V -> bool) (R : V -> V -> Prop) (a b : dict K V) :
  wf a -> wf b ->
  (forall x y, In x (values a) -> In y (values b) -> (veqb x y = true <-> R x y)) ->
  (dict_eqb veqb a b = true <-> dict_sim R a b).
Proof.
  intros Wa Wb HR. split.
  - intros E k. destruct (get a k) as [x|] eqn:Ea.
    + destruct (dict_eqb_find veqb a b k x E Ea) as (y & Eb & Exy). rewrite Eb.
      apply HR; [| |exact Exy].
      * apply get_In in Ea. unfold values. change x with (snd (k, x)). now apply in_map.
      * apply get_In in Eb. unfold values. change y with (snd (k, y)). now apply in_map.
    + destruct (get b k) as [y|] eqn:Eb; [|exact I].
      assert (Hk : In k (keys a)).
      { apply (dict_eqb_keys veqb a b E Wa). apply In_keys_get. eauto. }
      apply In_keys_get in Hk. destruct Hk as [x Hx]. congruence.
  - intros Hs. unfold dict_eqb. apply andb_true_iff. split.
    + apply Nat.eqb_eq.
      assert (Hp : Permutation (keys a) (keys b)).
      { apply NoDup_Permutation; [exact Wa | exact Wb|]. intros k.
        rewrite !In_keys_get. specialize (Hs k).
        destruct (get a k), (get b k); split; intros [w Hw]; try discriminate; eauto;
          contradiction. }
      apply Permutation_length in Hp. unfold keys in Hp. now rewrite !length_map in Hp.
    + apply forallb_forall. intros [k x] Hin. simpl.
      pose proof (In_get a k x Wa Hin) as Ea. specialize (Hs k). rewrite Ea in Hs.
      destruct (get b k) as [y|] eqn:Eb; [|contradiction].
      apply HR; [| |exact Hs].
      * unfold values. change x with (snd (k, x)). now apply in_map.
      * apply get_In in Eb. unfold values. change y with (snd (k, y)). now apply in_map.
Qed.
End MoreDictFacts.

(** A comprehension over a dictionary with distinct keys keeps the keys in
    place. *)
Lemma fold_set_map {K V W : Type} `{EqKey K} (f : V -> W) (l : dict K V) :
  forall acc : dict K W,
  NoDup (keys acc ++ keys l) ->
  fold_left (fun c kv => set c (fst kv) (f (snd kv))) l acc
  = acc ++ map (fun kv => (fst kv, f (snd kv))) l.
Proof.
  induction l as [|[k v] l IH]; intros acc Hnd; simpl; [now rewrite app_nil_r|].
  simpl in Hnd. rewrite set_fresh.
  - rewrite IH; [now rewrite <- app_assoc|].
    unfold keys in *. rewrite map_app. simpl. rewrite <- app_assoc. exact Hnd.
  - apply NoDup_remove_2 in Hnd. intros Hin. apply Hnd. apply in_or_app. now left.
Qed.

Lemma get_map_values {K V W : Type} `{EqKey K} (f : V -> W) (l : dict K V) k :
  get (map (fun kv => (fst kv, f (snd kv))) l) k = option_map f (get l k).
Proof.
  induction l as [|[k0 v0] l IH]; simpl; [reflexivity|].
  destruct (keqb k0 k); [reflexivity | exact IH].
Qed.

(** Strings. *)
Lemma append_assoc (a b c : string) : ((a ++ b) ++ c = a ++ (b ++ c))%string.
Proof. induction a as [|x a IH]; simpl; [reflexivity|]. now rewrite IH. Qed.

Lemma has_char_app c a b : has_char c (a ++ b)%string = has_char c a || has_char c b.
Proof. induction a as [|x a IH]; simpl; [reflexivity|]. now rewrite IH, orb_assoc. Qed.

Lemma py_len_app a b : py_len (a ++ b)%string = (py_len a + py_len b)%nat.
Proof. induction a as [|c a IH]; simpl; [reflexivity|]. rewrite IH. lia. Qed.

Lemma py_len_spaces n : py_len (str_repeat space n) = n.
Proof. induction n as [|n IH]; simpl; [reflexivity|]. now rewrite IH. Qed.

Lemma py_len_dashes n : py_len (str_repeat dash n) = n.
Proof. induction n as [|n IH]; simpl; [reflexivity|]. now rewrite IH. Qed.

Lemma center_fits w s : (py_len s <= w)%nat -> py_len (center w s) = w.
Proof.
  intros H. unfold center. rewrite !py_len_app, !py_len_spaces.
  pose proof (Nat.div_mod_eq (w - py_len s) 2). lia.
Qed.

Lemma ljust_fits w s : (py_len s <= w)%nat -> py_len (ljust w s) = w.
Proof. intros H. unfold ljust. rewrite py_len_app, py_len_spaces. lia. Qed.

(** [replace] skips its own occurrence, and a prefix in which the first
    character of the pattern does not occur. *)
Lemma replace_from_skip old new s1 : forall s2,
  replace_from old new (String.length s1) (s1 ++ s2)%string = replace_from old new 0 s2.
Proof.
  induction s1 as [|c s1 IH]; intros s2; simpl.
  - destruct s2; reflexivity.
  - apply IH.
Qed.

Lemma prefix_self_app old post : String.prefix old (old ++ post)%string = true.
Proof.
  induction old as [|c old IH]; simpl; [now destruct post|].
  destruct (ascii_dec c c); [exact IH | congruence].
Qed.

Lemma replace_at c0 old new post :
  replace (String c0 old) new (String c0 old ++ post)%string
  = (new ++ replace (String c0 old) new post)%string.
Proof.
  unfold replace. cbn [append replace_from].
  change (String c0 (old ++ post)%string) with (String c0 old ++ post)%string.
  rewrite prefix_self_app. f_equal.
  replace (String.length (String c0 old) - 1)%nat with (String.length old) by (simpl; lia).
  apply replace_from_skip.
Qed.

Lemma replace_skips_prefix c0 old new pre : forall s,
  has_char c0 pre = false ->
  replace (String c0 old) new (pre ++ s)%string
  = (pre ++ replace (String c0 old) new s)%string.
Proof.
  unfold replace. induction pre as [|c pre IH]; intros s Hc; [reflexivity|].
  simpl in Hc. apply orb_false_iff in Hc. destruct Hc as [Hc Hpre].
  cbn [append replace_from].
  replace (String.prefix (String c0 old) (String c (pre ++ s)%string)) with false.
  - f_equal. now apply IH.
  - simpl. destruct (ascii_dec c0 c) as [->|]; [|reflexivity].
    rewrite Ascii.eqb_refl in Hc. discriminate.
Qed.

Lemma join_lines_head h l : exists r, join_lines (h :: l) = (h ++ r)%string.
Proof.
  unfold join_lines. destruct l as [|x l]; simpl.
  - exists EmptyString. clear. induction h as [|c h IH]; simpl; [reflexivity|].
    now rewrite <- IH.
  - eexists. reflexivity.
Qed.


(* ================================================================== *)
(** * The period compressor *)
(* ================================================================== *)

Lemma scan_emit rest : forall i periods curr start total,
  (let '(ps, c, s) := scan rest i periods curr start in
   ps ++ [mkPeriod (format_slot_time s) (format_slot_time total) c (half_hours s total)])
  = periods ++ emit rest i curr start total.
Proof.
  induction rest as [|b rest IH]; intros; simpl.
  - reflexivity.
  - destruct (negb (Bool.eqb b curr)).
    + rewrite IH. rewrite <- app_assoc. reflexivity.
    + apply IH.
Qed.

Lemma slots_to_periods_emit s0 rest :
  slots_to_periods (s0 :: rest) = emit rest 1 s0 0 (S (length rest)).
Proof.
  unfold slots_to_periods.
  pose proof (scan_emit rest 1 [] s0 0 (length (s0 :: rest))) as H.
  destruct (scan rest 1 [] s0 0) as [[ps c] s]. simpl in H. exact H.
Qed.

(** Within one day the time text determines the slot. *)
Lemma slot_of_time_format n :
  (n <= 48)%nat -> slot_of_time (format_slot_time n) = Some n.
Proof.
  intros H.
  assert (E : forallb (fun n => match slot_of_time (format_slot_time n) with
                                | Some m => (m =? n)%nat
                                | None => false
                                end) (seq 0 49) = true) by (vm_compute; reflexivity).
  rewrite forallb_forall in E. specialize (E n).
  destruct (slot_of_time (format_slot_time n)).
  - f_equal. apply Nat.eqb_eq. apply E. apply in_seq. lia.
  - discriminate E. apply in_seq. lia.
Qed.

Lemma expand_emit rest : forall i curr start total,
  (start <= i)%nat -> (i + length rest = total)%nat -> (total <= 48)%nat ->
  expand_periods (emit rest i curr start total) = Some (repeat curr (i - start) ++ rest).
Proof.
  induction rest as [|b rest IH]; intros i curr start total Hs Hl Ht; simpl in *.
  - rewrite !slot_of_time_format by lia. simpl. rewrite Nat.add_0_r in Hl. subst.
    rewrite app_nil_r. reflexivity.
  - destruct (Bool.eqb b curr) eqn:E; simpl.
    + apply Bool.eqb_prop in E. subst b.
      rewrite IH by lia.
      f_equal. replace (S i - start)%nat with ((i - start) + 1)%nat by lia.
      rewrite repeat_app. rewrite <- app_assoc. reflexivity.
    + rewrite !slot_of_time_format by lia. cbn [bind].
      rewrite IH by lia. cbn [bind]. replace (S i - i)%nat with 1%nat by lia.
      reflexivity.
Qed.

Lemma emit_covers rest : forall i curr start total,
  (start < i)%nat -> (i + length rest = total)%nat ->
  covers start (emit rest i curr start total) total.
Proof.
  induction rest as [|b rest IH]; intros i curr start total Hs Hl; simpl in *.
  - exists total. repeat split; lia.
  - destruct (negb (Bool.eqb b curr)).
    + simpl. exists i. repeat split; try lia. apply IH; lia.
    + apply IH; lia.
Qed.

Lemma emit_head rest : forall i curr start total,
  exists p ps, emit rest i curr start total = p :: ps /\ p_is_on p = curr.
Proof.
  induction rest as [|b rest IH]; intros; simpl.
  - eauto.
  - destruct (negb (Bool.eqb b curr)); eauto.
Qed.

Lemma emit_alternating rest : forall i curr start total,
  alternating (emit rest i curr start total).
Proof.
  induction rest as [|b rest IH]; intros; simpl.
  - exact I.
  - destruct (Bool.eqb b curr) eqn:E; simpl.
    + apply IH.
    + destruct (emit_head rest (S i) b i total) as (p & ps & Hp & Hon).
      specialize (IH (S i) b i total). rewrite Hp in *. split; [|exact IH].
      simpl. rewrite Hon. intros ->. rewrite Bool.eqb_reflx in E. discriminate.
Qed.

Lemma half_hours_split a b c : half_hours a b + half_hours b c == half_hours a c.
Proof.
  unfold half_hours. rewrite <- Qmult_plus_distr_l, <- inject_Z_plus.
  replace (Z.of_nat b - Z.of_nat a + (Z.of_nat c - Z.of_nat b))%Z
    with (Z.of_nat c - Z.of_nat a)%Z by lia.
  reflexivity.
Qed.

Lemma emit_total rest : forall i curr start total,
  total_hours (emit rest i curr start total) == half_hours start total.
Proof.
  induction rest as [|b rest IH]; intros; simpl.
  - apply Qplus_0_r.
  - destruct (negb (Bool.eqb b curr)); simpl.
    + rewrite IH. apply half_hours_split.
    + apply IH.
Qed.

(** C1. Round trip: for every boolean sequence of length 48, compressing it
    with [slots_to_periods] and re-expanding the periods, each one
    contributing (end slot - start slot) copies of its [is_on] value in
    order, gives the sequence back. *)
Theorem slots_to_periods_roundtrip (slots : list bool) :
  length slots = 48%nat ->
  expand_periods (slots_to_periods slots) = Some slots.
Proof.
  destruct slots as [|s0 rest]; [discriminate|]. intros H. simpl in H.
  rewrite slots_to_periods_emit. rewrite expand_emit by lia. reflexivity.
Qed.

Lemma slots_to_periods_roundtrip_sample :
  length sample_timeline = 48%nat
  /\ expand_periods (slots_to_periods sample_timeline) = Some sample_timeline.
Proof.
  split; [reflexivity | apply (slots_to_periods_roundtrip sample_timeline); reflexivity].
Defined.

(** The three periods of the sample day. *)
Example slots_to_periods_sample :
  map (fun p => (p_start p, p_end p, p_is_on p)) (slots_to_periods sample_timeline)
  = [("00:00", "08:00", true); ("08:00", "09:00", false); ("09:00", "24:00", true)].
Proof. reflexivity. Qed.

(** Past one day the end times collide (slot 49 also reads ["24:00"]), so the
    bound on the length matters for reading slots back from the times. *)
Example expand_periods_beyond_a_day :
  expand_periods (slots_to_periods (repeat true 48 ++ [false])) = Some (repeat true 48).
Proof. reflexivity. Qed.

(** C2. Coverage: for every non-empty timeline the periods of
    [slots_to_periods] tile it contiguously from slot 0 to slot
    [len(timeline)] without gap or overlap, consecutive periods alternate
    [is_on], and the [hours] fields add up to [len(timeline) * 0.5]. *)
Theorem slots_to_periods_coverage (slots : list bool) :
  slots <> [] ->
  let ps := slots_to_periods slots in
  ps <> []
  /\ covers 0 ps (length slots)
  /\ alternating ps
  /\ total_hours ps == inject_Z (Z.of_nat (length slots)) * (1 # 2).
Proof.
  destruct slots as [|s0 rest]; [congruence|]. intros _ ps. subst ps.
  rewrite slots_to_periods_emit.
  repeat split.
  - destruct (emit_head rest 1 s0 0 (S (length rest))) as (p & ps & -> & _). discriminate.
  - apply emit_covers; simpl; lia.
  - apply emit_alternating.
  - rewrite emit_total. unfold half_hours. simpl length. rewrite Z.sub_0_r. reflexivity.
Qed.

Lemma slots_to_periods_coverage_sample :
  sample_timeline <> []
  /\ covers 0 (slots_to_periods sample_timeline) 48
  /\ total_hours (slots_to_periods sample_timeline) == 24 # 1.
Proof.
  assert (Hne : sample_timeline <> []) by discriminate.
  split; [exact Hne|].
  destruct (slots_to_periods_coverage sample_timeline Hne) as (_ & Hc & _ & Ht).
  split; [exact Hc|]. rewrite Ht. reflexivity.
Defined.


(* ================================================================== *)
(** * Source A: the hour-state parser *)
(* ================================================================== *)

Lemma hour_slots_length d h : length (hour_slots d h) = 2%nat.
Proof.
  unfold hour_slots.
  repeat match goal with |- context [if ?b then _ else _] => destruct b end; reflexivity.
Qed.

Lemma parse_fold d l : forall acc,
  fold_left
    (fun slots h =>
       let s := hour_state d h in
       if s =? "yes" then slots ++ [true; true]
       else if s =? "no" then slots ++ [false; false]
       else if s =? "first" then slots ++ [false; true]
       else if s =? "second" then slots ++ [true; false]
       else slots ++ [true; true]) l acc
  = acc ++ flat_map (hour_slots d) l.
Proof.
  induction l as [|h l IH]; intros acc; simpl.
  - now rewrite app_nil_r.
  - rewrite IH. unfold hour_slots.
    repeat match goal with |- context [if ?b then _ else _] => destruct b end;
      now rewrite <- app_assoc.
Qed.

Lemma parse_github_day_flat d :
  parse_github_day d = flat_map (hour_slots d) hours_of_day.
Proof. unfold parse_github_day. now rewrite parse_fold. Qed.

Lemma nth_error_pairs {A B} (f : A -> list B) :
  (forall x, length (f x) = 2%nat) ->
  forall l k j, (j < 2)%nat ->
  nth_error (flat_map f l) (2 * k + j)
  = match nth_error l k with Some x => nth_error (f x) j | None => None end.
Proof.
  intros Hf. induction l as [|x l IH]; intros k j Hj.
  - simpl. destruct k; now rewrite ?nth_error_nil.
  - simpl flat_map. destruct k as [|k].
    + simpl. rewrite nth_error_app1 by (rewrite Hf; lia). reflexivity.
    + rewrite nth_error_app2 by (rewrite Hf; lia). rewrite Hf.
      replace (2 * S k + j - 2)%nat with (2 * k + j)%nat by lia.
      simpl nth_error at 2. apply IH. exact Hj.
Qed.

Lemma length_pairs {A B} (f : A -> list B) :
  (forall x, length (f x) = 2%nat) ->
  forall l, length (flat_map f l) = (2 * length l)%nat.
Proof.
  intros Hf. induction l as [|x l IH]; simpl; [reflexivity|].
  rewrite length_app, Hf, IH. lia.
Qed.

Lemma parse_github_day_length d : length (parse_github_day d) = 48%nat.
Proof.
  rewrite parse_github_day_flat, (length_pairs _ (hour_slots_length d)). reflexivity.
Qed.

Lemma parse_github_day_hour d h j :
  (1 <= h <= 24)%nat -> (j < 2)%nat ->
  nth_error (parse_github_day d) (2 * (h - 1) + j) = nth_error (hour_slots d h) j.
Proof.
  intros Hh Hj. rewrite parse_github_day_flat.
  rewrite (nth_error_pairs _ (hour_slots_length d)) by exact Hj.
  unfold hours_of_day.
  replace (nth_error (seq 1 24) (h - 1)) with (Some h); [reflexivity|].
  symmetry. rewrite nth_error_seq.
  destruct (Nat.ltb_spec (h - 1) 24); [f_equal; lia | lia].
Qed.

(** C5. [parse_github_day] returns exactly 48 slots; hour [h] of 1..24
    contributes the two consecutive slots [2(h-1)] and [2(h-1)+1], namely
    yes -> (on, on), no -> (off, off), first -> (off, on),
    second -> (on, off), and (on, on) for a missing or unrecognised hour. *)
Theorem parse_github_day_mapping (d : DayData) :
  let tl := parse_github_day d in
  length tl = 48%nat /\
  forall h : nat, (1 <= h <= 24)%nat ->
    let pair := (nth_error tl (2 * (h - 1)), nth_error tl (2 * (h - 1) + 1)) in
    match get d (str_nat h) with
    | Some s =>
        (s = "yes" -> pair = (Some true, Some true)) /\
        (s = "no" -> pair = (Some false, Some false)) /\
        (s = "first" -> pair = (Some false, Some true)) /\
        (s = "second" -> pair = (Some true, Some false)) /\
        (s <> "yes" -> s <> "no" -> s <> "first" -> s <> "second" ->
         pair = (Some true, Some true))
    | None => pair = (Some true, Some true)
    end.
Proof.
  intros tl. split; [apply parse_github_day_length|].
  intros h Hh pair. subst pair tl.
  pose proof (parse_github_day_hour d h 0 Hh ltac:(lia)) as H0.
  pose proof (parse_github_day_hour d h 1 Hh ltac:(lia)) as H1.
  rewrite Nat.add_0_r in H0. rewrite H0, H1. clear H0 H1.
  unfold hour_slots, hour_state.
  destruct (get d (str_nat h)) as [s|]; [|reflexivity].
  repeat split; intros; subst; try reflexivity.
  destruct (String.eqb_spec s "yes"); [congruence|].
  destruct (String.eqb_spec s "no"); [congruence|].
  destruct (String.eqb_spec s "first"); [congruence|].
  destruct (String.eqb_spec s "second"); [congruence|].
  reflexivity.
Qed.

Lemma parse_github_day_mapping_sample :
  (1 <= 9 <= 24)%nat
  /\ (nth_error (parse_github_day sample_day) 16, nth_error (parse_github_day sample_day) 17)
     = (Some false, Some false)
  /\ (1 <= 10 <= 24)%nat
  /\ (nth_error (parse_github_day sample_day) 18, nth_error (parse_github_day sample_day) 19)
     = (Some true, Some true).
Proof.
  assert (H9 : (1 <= 9 <= 24)%nat) by lia.
  assert (H10 : (1 <= 10 <= 24)%nat) by lia.
  destruct (parse_github_day_mapping sample_day) as [_ Hmap].
  split; [exact H9|]. split.
  - destruct (Hmap 9%nat H9) as (_ & Hno & _). apply Hno. reflexivity.
  - split; [exact H10|]. exact (Hmap 10%nat H10).
Defined.

Example parse_github_day_sample : parse_github_day sample_day = sample_timeline.
Proof. reflexivity. Qed.

(** ** The days [extract_github] stores *)

Lemma all_yes_literal d : all_yes d = true <-> literal_yes d.
Proof.
  unfold all_yes, literal_yes, hours_of_day. rewrite forallb_forall. split.
  - intros Hall h Hh. assert (Hin : In h (seq 1 24)) by (apply in_seq; lia).
    specialize (Hall h Hin). apply String.eqb_eq in Hall. unfold hour_state in Hall.
    destruct (get d (str_nat h)); [right; congruence | now left].
  - intros Hlit h Hin. apply in_seq in Hin. apply String.eqb_eq. unfold hour_state.
    destruct (Hlit h ltac:(lia)) as [-> | ->]; reflexivity.
Qed.

Lemma github_day_exclusive ts d : exclusive (github_day ts d).
Proof.
  unfold github_day, exclusive. destruct (all_yes d); simpl.
  - split; [split; [congruence | discriminate] | split; [discriminate | tauto]].
  - split; [split; [reflexivity | discriminate]|]. split; [|tauto].
    intros tl E. injection E as <-. apply parse_github_day_length.
Qed.

Lemma for_each_app {A S : Type} (body : S -> A -> option S) l1 l2 s :
  for_each body (l1 ++ l2) s = bind (for_each body l1 s) (for_each body l2).
Proof.
  revert s. induction l1 as [|x l1 IH]; intros s; [reflexivity|].
  cbn [app for_each]. destruct (body s x) as [s1|]; [apply IH | reflexivity].
Qed.

Section SourceAFacts.
Variable int : string -> option Z.

(** The keys with their values, as the sort reads them. *)
Lemma decorate_some ks : forall acc dec,
  for_each (fun acc k => n <- int k ;; Some (acc ++ [(n, k)])) ks acc = Some dec ->
  exists new, dec = acc ++ new /\ map snd new = ks
              /\ Forall (fun p => int (snd p) = Some (fst p)) new.
Proof.
  induction ks as [|k ks IH]; intros acc dec E.
  - cbn in E. injection E as <-. exists []. rewrite app_nil_r. auto.
  - rewrite for_each_cons in E. destruct (int k) as [n|] eqn:En; [|discriminate E].
    cbn [bind] in E. destruct (IH _ _ E) as (new & -> & Hm & Hf).
    exists ((n, k) :: new). rewrite <- app_assoc. simpl. repeat split; [congruence|].
    constructor; auto.
Qed.

Lemma decorate_none ks : forall acc,
  for_each (fun acc k => n <- int k ;; Some (acc ++ [(n, k)])) ks acc = None
  <-> exists k, In k ks /\ int k = None.
Proof.
  induction ks as [|k ks IH]; intros acc.
  - cbn. split; [discriminate | intros (k & [] & _)].
  - rewrite for_each_cons. destruct (int k) as [n|] eqn:En; cbn [bind].
    + rewrite IH. split; intros (k' & Hin & Hk); exists k'.
      * split; [now right | exact Hk].
      * destruct Hin as [<-|Hin]; [congruence | auto].
    + split; [intros _; exists k; split; [now left | exact En] | reflexivity].
Qed.

Lemma sorted_key_int_none ks :
  sorted_key_int int ks = None <-> exists k, In k ks /\ int k = None.
Proof.
  unfold sorted_key_int. rewrite <- (decorate_none ks []).
  destruct (for_each _ ks []); cbn [bind]; split; congruence.
Qed.

(** [sorted(ks, key=int)], when it returns: the same keys, every one a
    number, and a key among the first [m] is not greater than one left
    out. *)
Lemma sorted_key_int_some ks l :
  sorted_key_int int ks = Some l ->
  Permutation ks l
  /\ (forall k, In k ks -> exists n, int k = Some n)
  /\ (forall m ts ts' n n',
        In ts (firstn m l) -> In ts' ks -> ~ In ts' (firstn m l) ->
        int ts = Some n -> int ts' = Some n' -> (n <= n')%Z).
Proof.
  unfold sorted_key_int.
  destruct (for_each _ ks []) as [dec|] eqn:E; [|discriminate].
  cbn [bind]. intros El. injection El as <-.
  destruct (decorate_some _ _ _ E) as (new & -> & Hm & Hf). cbn [app] in *.
  set (lt := fun a b : Z * string => (fst a <? fst b)%Z).
  rewrite Forall_forall in Hf.
  assert (Hp : Permutation new (sorted lt new)) by apply sorted_perm.
  split; [|split].
  - rewrite <- Hm. now apply Permutation_map.
  - intros k Hk. rewrite <- Hm in Hk. apply in_map_iff in Hk.
    destruct Hk as ([n k'] & Ek & Hin). simpl in Ek. subst k'.
    exists n. exact (Hf _ Hin).
  - intros m ts ts' n n' Hts Hin Hout En En'.
    rewrite firstn_map in Hts, Hout.
    apply in_map_iff in Hts. destruct Hts as ([z k] & Ek & Hts). simpl in Ek. subst k.
    rewrite <- Hm in Hin. apply in_map_iff in Hin.
    destruct Hin as ([z' k'] & Ek' & Hin). simpl in Ek'. subst k'.
    assert (Hz : int ts = Some z).
    { apply (Hf (z, ts)). apply (Permutation_in _ (Permutation_sym Hp)).
      rewrite <- (firstn_skipn m (sorted lt new)). apply in_or_app. now left. }
    assert (Hz' : int ts' = Some z') by exact (Hf _ Hin).
    assert (Hsk : In (z', ts') (skipn m (sorted lt new))).
    { apply (Permutation_in _ Hp) in Hin.
      rewrite <- (firstn_skipn m (sorted lt new)) in Hin. apply in_app_or in Hin.
      destruct Hin as [Hin|Hin]; [|exact Hin].
      exfalso. apply Hout. apply in_map_iff. exists (z', ts'). auto. }
    assert (Hle : lt (z', ts') (z, ts) = false).
    { apply (Sorted_firstn_le lt) with (l := sorted lt new) (n := m); auto.
      - unfold lt. intros x y z0. rewrite !Z.ltb_ge. lia.
      - apply sorted_Sorted. unfold lt. intros x y. rewrite Z.ltb_lt, Z.ltb_ge. lia. }
    unfold lt in Hle. simpl in Hle. apply Z.ltb_ge in Hle. congruence.
Qed.

Lemma earliest_keys_none fact :
  earliest_keys int fact = None <-> exists ts, In ts (keys fact) /\ int ts = None.
Proof.
  unfold earliest_keys. rewrite <- sorted_key_int_none.
  destruct (sorted_key_int int (keys fact)); cbn [bind]; split; congruence.
Qed.

(** [sorted(fact.keys(), key=int)[:2]], when it returns: at most two keys
    of the feed, each of them a number, and the earliest. *)
Lemma earliest_keys_some fact ks :
  earliest_keys int fact = Some ks ->
  (length ks <= 2)%nat
  /\ (forall ts, In ts (keys fact) -> exists n, int ts = Some n)
  /\ (forall ts, In ts ks -> In ts (keys fact))
  /\ (forall ts ts' n n',
        In ts ks -> In ts' (keys fact) -> ~ In ts' ks ->
        int ts = Some n -> int ts' = Some n' -> (n <= n')%Z).
Proof.
  unfold earliest_keys.
  destruct (sorted_key_int int (keys fact)) as [l|] eqn:E; [|discriminate].
  cbn [bind]. intros Ek. assert (Eks : ks = firstn 2 l) by congruence.
  clear Ek. subst ks.
  destruct (sorted_key_int_some _ _ E) as (Hp & Hn & He).
  split; [apply firstn_le_length|]. split; [exact Hn|]. split.
  - intros ts Hts. apply (Permutation_in _ (Permutation_sym Hp)).
    rewrite <- (firstn_skipn 2 l). apply in_or_app. now left.
  - intros ts ts' n n'. apply He.
Qed.

(** The loop over the day keys, from any dictionary [acc]. *)
Lemma github_loop fact grp l : forall acc days,
  for_each (github_step int fact grp) l acc = Some days ->
  (wf acc -> wf days)
  /\ (length days <= length acc + length l)%nat
  /\ (forall d_str day, In (d_str, day) days -> In (d_str, day) acc \/
        exists ts d dt, In ts l /\ group_day fact ts grp = Some d
                        /\ key_time int ts = Some dt
                        /\ d_str = strftime_Ymd dt /\ day = github_day dt d)
  /\ (forall k, In k (keys acc) -> In k (keys days))
  /\ (forall ts, In ts l -> group_day fact ts grp <> None ->
        exists dt, key_time int ts = Some dt /\ In (strftime_Ymd dt) (keys days))
  /\ (forall d_str,
        (forall ts dt, In ts l -> has_group fact grp ts = true ->
                       key_time int ts = Some dt -> strftime_Ymd dt <> d_str) ->
        get days d_str = get acc d_str).
Proof.
  induction l as [|ts l IH]; intros acc days E.
  - cbn in E. injection E as <-. repeat split; auto; try lia.
    + intros ts [].
  - rewrite for_each_cons in E. unfold github_step at 1 in E.
    destruct (group_day fact ts grp) as [d|] eqn:Eg.
    + destruct (int ts) as [n|] eqn:En; [|discriminate E]. cbn [bind] in E.
      destruct (fromtimestamp n) as [dt|] eqn:Et; [|discriminate E]. cbn [bind] in E.
      assert (Hk : key_time int ts = Some dt) by (unfold key_time; now rewrite En).
      destruct (IH _ _ E) as (H1 & H2 & H3 & H4 & H5 & H6).
      split; [|split; [|split; [|split; [|split]]]].
      * intros Hwf. apply H1. now apply set_wf.
      * pose proof (set_length acc (strftime_Ymd dt) (github_day dt d)).
        cbn [length]. lia.
      * intros d_str day Hin. destruct (H3 _ _ Hin) as [Hs|(ts' & d' & dt' & ? & ? & ? & ? & ?)].
        -- apply set_In in Hs. destruct Hs as [[-> ->]|]; [right|now left].
           exists ts, d, dt. repeat split; auto. now left.
        -- right. exists ts', d', dt'. repeat split; auto. now right.
      * intros k Hk'. apply H4. apply keys_set. now right.
      * intros ts' [<-|Hin] Hne; [|now apply H5].
        exists dt. split; [exact Hk|]. apply H4. apply keys_set. now left.
      * intros d_str Hno. rewrite H6.
        -- apply get_set_other. intros Heq.
           apply (Hno ts dt); [now left | unfold has_group; now rewrite Eg | exact Hk | now symmetry].
        -- intros ts' dt' Hin. apply Hno. now right.
    + destruct (IH _ _ E) as (H1 & H2 & H3 & H4 & H5 & H6).
      split; [|split; [|split; [|split; [|split]]]]; auto.
      * cbn [length]. lia.
      * intros d_str day Hin. destruct (H3 _ _ Hin) as [Hs|(ts' & d' & dt' & ? & ? & ? & ? & ?)];
          [now left|].
        right. exists ts', d', dt'. repeat split; auto. now right.
      * intros ts' [<-|Hin] Hne; [congruence | now apply H5].
      * intros d_str Hno. apply H6. intros ts' dt' Hin. apply Hno. now right.
Qed.

(** The last key of a date decides the day stored under it. *)
Lemma github_loop_last fact grp before ts behind acc days d dt :
  for_each (github_step int fact grp) (before ++ ts :: behind) acc = Some days ->
  group_day fact ts grp = Some d -> key_time int ts = Some dt ->
  (forall ts' dt', In ts' behind -> has_group fact grp ts' = true ->
                   key_time int ts' = Some dt' -> strftime_Ymd dt' <> strftime_Ymd dt) ->
  get days (strftime_Ymd dt) = Some (github_day dt d).
Proof.
  intros E Eg Ek Hno. rewrite for_each_app in E.
  destruct (for_each (github_step int fact grp) before acc) as [s1|]; [|discriminate E].
  cbn [bind] in E. rewrite for_each_cons in E. unfold github_step at 1 in E.
  rewrite Eg in E. unfold key_time in Ek.
  destruct (int ts) as [n|]; [|discriminate Ek]. cbn [bind] in Ek, E. rewrite Ek in E.
  cbn [bind] in E.
  destruct (github_loop _ _ _ _ _ E) as (_ & _ & _ & _ & _ & H6).
  rewrite (H6 _ Hno). apply get_set_same.
Qed.

(** The dictionary of one group: at most two days, each one built by
    [github_day] from one of the two earliest keys, and one for each of
    those keys that has a payload for the group. *)
Lemma github_group_shape fact grp days :
  github_group int fact grp = Some days ->
  exists ks, earliest_keys int fact = Some ks
  /\ wf days /\ (length days <= 2)%nat
  /\ (forall d_str day, In (d_str, day) days ->
        exists ts d dt, In ts ks /\ group_day fact ts grp = Some d
                        /\ key_time int ts = Some dt
                        /\ d_str = strftime_Ymd dt /\ day = github_day dt d)
  /\ (forall ts, In ts ks -> group_day fact ts grp <> None ->
        exists dt, key_time int ts = Some dt /\ In (strftime_Ymd dt) (keys days))
  /\ (forall ts d dt, group_day fact ts grp = Some d -> key_time int ts = Some dt ->
        last_of_date int fact grp ks ts (strftime_Ymd dt) ->
        get days (strftime_Ymd dt) = Some (github_day dt d)).
Proof.
  unfold github_group.
  destruct (earliest_keys int fact) as [ks|] eqn:Ek; [|discriminate].
  cbn [bind]. intros E. exists ks. split; [reflexivity|].
  destruct (github_loop _ _ _ _ _ E) as (H1 & H2 & H3 & _ & H5 & _).
  destruct (earliest_keys_some _ _ Ek) as (Hlen & _).
  split; [apply H1; constructor|]. split; [simpl in H2; lia|]. split; [|split].
  - intros d_str day Hin. destruct (H3 _ _ Hin) as [[]|]; auto.
  - exact H5.
  - intros ts d dt Eg Et (before & behind & -> & Hno).
    exact (github_loop_last _ _ _ _ _ _ _ _ _ E Eg Et Hno).
Qed.

Lemma extract_github_groups data grps res grp days :
  extract_github int data grps = Some res -> In (grp, days) res ->
  exists fact, data = Some fact /\ In grp grps /\ github_group int fact grp = Some days.
Proof.
  destruct data as [fact|]; unfold extract_github;
    [|intros E; injection E as <-; intros []].
  intros E Hin. exists fact. split; [reflexivity|].
  enough (G : In (grp, days) [] \/ (In grp grps /\ github_group int fact grp = Some days))
    by (destruct G as [[]|]; auto).
  revert Hin.
  apply (for_each_inv
    (fun r => In (grp, days) r ->
              In (grp, days) [] \/ (In grp grps /\ github_group int fact grp = Some days))
    _ _ _ _ E); [tauto|].
  intros r x r' Hx Hr Hb Hin.
  destruct (github_group int fact x) as [dd|] eqn:Ed; [|discriminate Hb].
  cbn [bind] in Hb. injection Hb as <-.
  apply set_In in Hin. destruct Hin as [[-> ->]|]; [|auto].
  right. auto.
Qed.

(** Every day of the result was built by [github_day] from a payload of one
    of the two earliest keys. *)
Lemma extract_github_days data grps res grp days d_str day :
  extract_github int data grps = Some res ->
  In (grp, days) res -> In (d_str, day) days ->
  exists fact ks ts d dt,
    data = Some fact /\ earliest_keys int fact = Some ks /\ In ts ks
    /\ group_day fact ts grp = Some d /\ key_time int ts = Some dt
    /\ d_str = strftime_Ymd dt /\ day = github_day dt d.
Proof.
  intros E Hg Hd. destruct (extract_github_groups _ _ _ _ _ E Hg) as (fact & -> & _ & Eg).
  destruct (github_group_shape _ _ _ Eg) as (ks & Ek & _ & _ & Hdays & _).
  destruct (Hdays _ _ Hd) as (ts & d & dt & ? & ? & ? & ? & ?).
  exists fact, ks, ts, d, dt. repeat split; auto.
Qed.

(** [extract_github] returns exactly when the inner loop does for every
    configured group. *)
Lemma extract_github_some_iff fact grps :
  (exists res, extract_github int (Some fact) grps = Some res)
  <-> forall grp, In grp grps -> exists days, github_group int fact grp = Some days.
Proof.
  unfold extract_github. generalize (@nil (string * dict Z DaySchedule)) as acc.
  induction grps as [|g grps IH]; intros acc.
  - cbn. split; [intros _ grp [] | eauto].
  - rewrite for_each_cons. split.
    + intros (res & E). destruct (github_group int fact g) as [days|] eqn:Eg;
        [|discriminate E].
      cbn [bind] in E. intros grp [<-|Hin]; [eauto|].
      apply (proj1 (IH (set acc g days))); eauto.
    + intros Hall. destruct (Hall g (or_introl eq_refl)) as (days & ->). cbn [bind].
      apply IH. intros grp Hin. apply Hall. now right.
Qed.
End SourceAFacts.

(* ================================================================== *)
(** * Source B: the interval parser *)
(* ================================================================== *)

Lemma paint_interval_length tl s tl' :
  paint_interval tl s = Some tl' -> length tl' = length tl.
Proof.
  unfold paint_interval. intros E.
  apply (for_each_inv (fun sl => length sl = length tl) _ _ _ _ E); [reflexivity|].
  intros sl i sl' _ Hl Hs. apply setitem_length in Hs. congruence.
Qed.

Lemma yasno_timeline_length intervals tl :
  yasno_timeline intervals = Some tl -> length tl = 48%nat.
Proof.
  unfold yasno_timeline. intros E.
  apply (for_each_inv (fun sl => length sl = 48%nat) _ _ _ _ E); [apply repeat_length|].
  intros sl s sl' _ Hl Hs. apply paint_interval_length in Hs. congruence.
Qed.

Lemma set_slots_length lo hi v tl : length (set_slots lo hi v tl) = length tl.
Proof.
  unfold set_slots. rewrite length_map, length_combine, length_seq. lia.
Qed.

Lemma nth_error_set_slots lo hi v tl i :
  nth_error (set_slots lo hi v tl) i
  = option_map (fun x => if in_slots lo hi i then v else x) (nth_error tl i).
Proof.
  unfold set_slots. rewrite nth_error_map.
  destruct (nth_error tl i) as [x|] eqn:E.
  - now rewrite (nth_error_enumerate tl 0 i x E).
  - assert (Hc : nth_error (combine (seq 0 (length tl)) tl) i = None).
    { apply nth_error_None. rewrite length_combine, length_seq.
      apply nth_error_None in E. lia. }
    rewrite Hc. reflexivity.
Qed.

Lemma set_slots_ext lo hi lo' hi' v tl :
  (forall i, (i < length tl)%nat -> in_slots lo hi i = in_slots lo' hi' i) ->
  set_slots lo hi v tl = set_slots lo' hi' v tl.
Proof.
  intros H. apply nth_error_ext. intros i. rewrite !nth_error_set_slots.
  destruct (nth_error tl i) eqn:E; [|reflexivity]. simpl.
  rewrite H; [reflexivity|]. apply nth_error_Some. congruence.
Qed.

(** The inner loop over [range(a, a + n)], for indices inside the list. *)
Lemma for_each_setitem_range v n : forall (a : Z) (tl : list bool),
  (0 <= a)%Z -> (a + Z.of_nat n <= Z.of_nat (length tl))%Z ->
  for_each (fun sl i => setitem sl i v) (map (fun k => (a + Z.of_nat k)%Z) (seq 0 n)) tl
  = Some (set_slots a (a + Z.of_nat n) v tl).
Proof.
  induction n as [|n IH]; intros a tl Ha Hn.
  - simpl. f_equal. apply nth_error_ext. intros i. rewrite nth_error_set_slots.
    unfold in_slots. destruct (nth_error tl i); simpl; [|reflexivity].
    destruct (Z.leb_spec a (Z.of_nat i)), (Z.ltb_spec (Z.of_nat i) (a + 0)); simpl;
      try reflexivity; lia.
  - change (seq 0 (S n)) with (0%nat :: seq 1 n). rewrite <- seq_shift.
    cbn [map]. rewrite map_map. cbn [for_each].
    change (Z.of_nat 0) with 0%Z. rewrite Z.add_0_r.
    rewrite setitem_in_range by lia. cbn [bind].
    rewrite (map_ext _ (fun k => (a + 1 + Z.of_nat k)%Z)) by (intros; lia).
    rewrite IH by (rewrite ?update_nth_length; lia).
    f_equal. apply nth_error_ext. intros i.
    rewrite !nth_error_set_slots, nth_error_update_nth.
    unfold in_slots.
    destruct (Nat.eqb_spec i (Z.to_nat a)) as [->|Hne].
    + destruct (Nat.ltb_spec (Z.to_nat a) (length tl)); [|lia].
      destruct (nth_error tl (Z.to_nat a)) eqn:E; [|apply nth_error_None in E; lia].
      cbn [option_map]. zbool.
    + destruct (nth_error tl i); cbn [option_map]; [|reflexivity]. zbool.
Qed.

(** With a start minute that is not negative, the loop over one interval
    does what the description of the parser says. *)
Lemma paint_interval_spec tl s :
  length tl = 48%nat -> (0 <= get0 (i_start s))%Z ->
  paint_interval tl s = Some (paint_spec tl s).
Proof.
  intros Hl Hs. unfold paint_interval, paint_spec, range.
  set (a := (get0 (i_start s) / 30)%Z). set (e := (get0 (i_end s) / 30)%Z).
  assert (Ha : (0 <= a)%Z) by (apply Z.div_pos; lia).
  destruct (Z.le_gt_cases (Z.min e 48) a) as [Hle|Hgt].
  - replace (Z.to_nat (Z.min e 48 - a)) with 0%nat by lia. simpl. f_equal.
    apply nth_error_ext. intros i. rewrite nth_error_set_slots.
    destruct (nth_error tl i); [|reflexivity]. simpl. unfold in_slots, clamp.
    destruct (Z.leb_spec a (Z.of_nat i)),
             (Z.ltb_spec (Z.of_nat i) (Z.max 0 (Z.min 48 e))); simpl;
      try reflexivity; lia.
  - rewrite for_each_setitem_range by lia. f_equal.
    apply set_slots_ext. intros i Hi. unfold in_slots, clamp. f_equal.
    destruct (Z.ltb_spec (Z.of_nat i) (a + Z.of_nat (Z.to_nat (Z.min e 48 - a)))),
             (Z.ltb_spec (Z.of_nat i) (Z.max 0 (Z.min 48 e))); try reflexivity; lia.
Qed.

(** Hence, for intervals whose start minutes are not negative, the timeline
    is the one described: all-on, then every interval painted in input
    order, the last write winning. *)
Lemma yasno_timeline_spec intervals :
  Forall (fun s => (0 <= get0 (i_start s))%Z) intervals ->
  yasno_timeline intervals = Some (timeline_spec intervals).
Proof.
  unfold yasno_timeline, timeline_spec.
  assert (Hl : length (repeat true 48) = 48%nat) by apply repeat_length.
  revert Hl. generalize (repeat true 48) as tl.
  induction intervals as [|s l IH]; intros tl Hl Hall; simpl; [reflexivity|].
  inversion Hall as [|? ? Hs Hr]; subst.
  rewrite paint_interval_spec by assumption. cbn [bind].
  apply IH; [|assumption]. unfold paint_spec. now rewrite set_slots_length.
Qed.

(** The sample day: off from 08:00 to 10:00 only, the cancelled interval
    having overwritten the rest of the outage. *)
Example yasno_timeline_sample :
  yasno_timeline sample_intervals = Some (repeat true 16 ++ repeat false 4 ++ repeat true 28).
Proof. reflexivity. Qed.

(** C4. The interval loop of [extract_yasno] against its description (an
    all-on day, [start_slot = start_minute div 30],
    [end_slot = end_minute div 30] clamped to [[0, 48]], the slots of
    [[start_slot, end_slot)] set, last write wins).  For an interval that
    starts at minute -30 and ends at minute 0 no slot of the day lies in the
    described range, so the described timeline stays all-on; the loop runs
    over [range(-1, 0)] and the negative index writes the last slot of the
    day.  A start further back than 48 slots raises [IndexError]. *)
Theorem extract_yasno_negative_start :
  timeline_spec [interval_before_midnight] = repeat true 48
  /\ extract_yasno (Some yasno_before_midnight) ["GPV1.1"]
     = Some [("GPV1.1",
              [(0%Z, mkDay (Some (repeat true 47 ++ [false]))
                           (mkDatetime 0 7200) "normal")])]
  /\ yasno_timeline [mkInterval (Some (-1500)%Z) (Some 0%Z) (Some "Definite")] = None.
Proof. repeat split; reflexivity. Qed.

(** ** The days [extract_yasno] stores *)

Lemma yasno_day_shape days d days' :
  yasno_day days d = Some days' ->
  (wf days -> wf days') /\ (length days' <= S (length days))%nat /\
  (forall k day, In (k, day) days' -> In (k, day) days \/ (dated d k /\ exclusive day)) /\
  (forall k, In k (keys days') <-> In k (keys days) \/ dated d k).
Proof.
  unfold yasno_day, dated.
  destruct d as [yd|]; [|intros E; injection E as <-].
  2:{ repeat split; auto. intros [|(? & ? & ? & _)]; [assumption | discriminate]. }
  destruct (y_date yd) as [dt|] eqn:Ed; [|intros E; injection E as <-].
  2:{ repeat split; auto. intros [|(? & ? & E & E' & _)]; [assumption|].
      injection E as <-. congruence. }
  assert (G : forall day, exclusive day ->
     let days' := set days (strftime_Ymd dt) day in
     (wf days -> wf days') /\ (length days' <= S (length days))%nat /\
     (forall k day0, In (k, day0) days' -> In (k, day0) days \/
        ((exists yd0 dt0, Some yd = Some yd0 /\ y_date yd0 = Some dt0 /\ strftime_Ymd dt0 = k)
         /\ exclusive day0)) /\
     (forall k, In k (keys days') <-> In k (keys days) \/
        (exists yd0 dt0, Some yd = Some yd0 /\ y_date yd0 = Some dt0 /\ strftime_Ymd dt0 = k))).
  { intros day Hex days0. subst days0. repeat split.
    - apply set_wf.
    - apply set_length.
    - intros k day0 Hin. apply set_In in Hin. destruct Hin as [[-> ->]|]; [right|now left].
      split; [exists yd, dt; auto | exact Hex].
    - intros Hin. apply keys_set in Hin. destruct Hin as [->|]; [right|now left].
      exists yd, dt; auto.
    - intros [Hin|(yd0 & dt0 & E & E' & <-)]; apply keys_set; [now right|left].
      injection E as <-. congruence. }
  destruct (_ =? "EmergencyShutdowns").
  { intros E; injection E as <-. apply G.
    split; simpl; [split; [congruence | discriminate] | split; [discriminate | tauto]]. }
  assert (P : exclusive (mkDay None dt "pending")).
  { split; simpl; [split; [congruence | discriminate] | split; [discriminate | tauto]]. }
  destruct (y_slots yd) as [[|s l]|].
  - intros E; injection E as <-. now apply G.
  - destruct (yasno_timeline (s :: l)) as [tl|] eqn:Et; [|discriminate].
    cbn [bind]. intros E; injection E as <-. apply G.
    split; simpl; [split; [reflexivity | discriminate]|]. split; [|tauto].
    intros tl' E. injection E as <-. now apply yasno_timeline_length in Et.
  - intros E; injection E as <-. now apply G.
Qed.

Lemma yasno_group_shape g days :
  for_each yasno_day [today g; tomorrow g] [] = Some days ->
  wf days /\ (length days <= 2)%nat /\
  (forall k day, In (k, day) days -> exclusive day) /\
  (forall k, In k (keys days) <-> dated (today g) k \/ dated (tomorrow g) k).
Proof.
  cbn [for_each]. destruct (yasno_day [] (today g)) as [d1|] eqn:E1; [|discriminate].
  cbn [bind]. destruct (yasno_day d1 (tomorrow g)) as [d2|] eqn:E2; [|discriminate].
  cbn [bind]. intros E; injection E as <-.
  destruct (yasno_day_shape _ _ _ E1) as (W1 & L1 & I1 & K1).
  destruct (yasno_day_shape _ _ _ E2) as (W2 & L2 & I2 & K2).
  split; [|split; [|split]].
  - apply W2, W1. constructor.
  - simpl in L1. lia.
  - intros k day Hin. apply I2 in Hin. destruct Hin as [Hin|[_ Hex]]; [|exact Hex].
    apply I1 in Hin. destruct Hin as [[]|[_ Hex]]. exact Hex.
  - intros k. split.
    + intros Hk. apply K2 in Hk. destruct Hk as [Hk|]; [|now right].
      apply K1 in Hk. destruct Hk as [[]|]. now left.
    + intros [Hk|Hk]; apply K2; [left; apply K1; now right | now right].
Qed.

Lemma extract_yasno_groups data grps res grp days :
  extract_yasno data grps = Some res -> In (grp, days) res ->
  exists ydata g, data = Some ydata /\ In grp grps
    /\ get ydata (replace "GPV" "" grp) = Some g
    /\ for_each yasno_day [today g; tomorrow g] [] = Some days.
Proof.
  destruct data as [ydata|]; unfold extract_yasno;
    [|intros E; injection E as <-; intros []].
  intros E Hin.
  enough (G : In (grp, days) [] \/ exists g, In grp grps
    /\ get ydata (replace "GPV" "" grp) = Some g
    /\ for_each yasno_day [today g; tomorrow g] [] = Some days).
  { destruct G as [[]|(g & ?)]. exists ydata, g. auto. }
  revert Hin.
  apply (for_each_inv
    (fun r => In (grp, days) r -> In (grp, days) [] \/ exists g, In grp grps
      /\ get ydata (replace "GPV" "" grp) = Some g
      /\ for_each yasno_day [today g; tomorrow g] [] = Some days) _ _ _ _ E); [tauto|].
  intros r x r' Hx Hr Hb Hin. cbv beta zeta in Hb.
  revert Hb. destruct (get ydata (replace "GPV" "" x)) as [g|] eqn:Eg; intros Hb;
    [|injection Hb as <-; auto].
  revert Hb. destruct (for_each yasno_day [today g; tomorrow g] []) as [dd|] eqn:Ed;
    intros Hb; [|discriminate].
  cbn [bind] in Hb. injection Hb as <-.
  apply set_In in Hin. destruct Hin as [[-> ->]|]; [|auto].
  right. exists g. auto.
Qed.


(* ================================================================== *)
(** * Snapshots *)
(* ================================================================== *)

Lemma github_day_by_rule dt d : day_by_rule dt d (github_day dt d).
Proof.
  unfold day_by_rule, github_day. split; intros Hl.
  - apply all_yes_literal in Hl. now rewrite Hl.
  - destruct (all_yes d) eqn:E; [|reflexivity].
    exfalso. apply Hl. now apply all_yes_literal.
Qed.

Lemma group_day_nonempty fact ts grp d : group_day fact ts grp = Some d -> d <> [].
Proof.
  unfold group_day. destruct (get fact ts) as [dd|]; [|discriminate].
  destruct (get dd grp) as [[|x l]|]; try discriminate.
  intros E. injection E as <-. discriminate.
Qed.

(** C6, as stated, fails: a day whose only listed hour carries an
    unrecognised state has every hour resolving to [yes], yet it is stored
    as [normal] with an all-on timeline, not as [pending]. *)
Lemma extract_github_unrecognised_not_pending :
  Forall (fun h => resolved_state day_with_unrecognised h = "yes") hours_of_day
  /\ extract_github int_decimal (Some fact_unrecognised) ["GPV1.1"]
     = Some [("GPV1.1", [(0%Z, mkDay (Some (repeat true 48)) (mkDatetime 0 KYIV_TZ)
                                     "normal")])]
  /\ status (github_day (mkDatetime 0 KYIV_TZ) day_with_unrecognised) <> "pending".
Proof.
  split; [repeat constructor|]. split; [reflexivity | discriminate].
Qed.

(** C6, amended.  When [extract_github] returns, every day it stores for a
    group comes from the non-empty payload [d] that the feed holds for the
    group under one of its two earliest keys, is stored under the date of
    that key and follows the rule: if every hour 1..24 of [d] is literally
    [yes] or missing, the day is [pending] without a timeline; otherwise
    (also when an hour carries an unrecognised state) it is [normal] with
    the 48 slots of [parse_github_day d].  Conversely every payload of the
    two keys has a day stored under its date, and that day follows the rule
    for this payload unless a later key of the same date replaced it. *)
Theorem extract_github_pending (int : string -> option Z)
        (data : option GithubFact) (grps : list string) (res : Snapshot)
        (grp : string) (days : dict Z DaySchedule) :
  extract_github int data grps = Some res -> In (grp, days) res ->
  exists fact ks,
    data = Some fact /\ earliest_keys int fact = Some ks
    /\ (forall d_str day, In (d_str, day) days ->
          exists ts d dt,
            In ts ks /\ group_day fact ts grp = Some d /\ d <> []
            /\ key_time int ts = Some dt /\ strftime_Ymd dt = d_str
            /\ day_by_rule dt d day)
    /\ (forall ts d, In ts ks -> group_day fact ts grp = Some d ->
          exists dt day,
            key_time int ts = Some dt
            /\ get days (strftime_Ymd dt) = Some day
            /\ (last_of_date int fact grp ks ts (strftime_Ymd dt) ->
                day_by_rule dt d day)).
Proof.
  intros E Hg.
  destruct (extract_github_groups _ _ _ _ _ _ E Hg) as (fact & -> & _ & Eg).
  destruct (github_group_shape _ _ _ _ Eg) as (ks & Ek & _ & _ & Hdays & Hkeys & Hlast).
  exists fact, ks. split; [reflexivity|]. split; [exact Ek|]. split.
  - intros d_str day Hin.
    destruct (Hdays _ _ Hin) as (ts & d & dt & Hts & Hgd & Hkt & -> & ->).
    exists ts, d, dt. repeat split; auto.
    + exact (group_day_nonempty _ _ _ _ Hgd).
    + apply github_day_by_rule.
    + apply github_day_by_rule.
  - intros ts d Hts Hgd.
    destruct (Hkeys ts Hts) as (dt & Hkt & Hin); [congruence|].
    apply In_keys_get in Hin. destruct Hin as (day & Hday).
    exists dt, day. split; [exact Hkt|]. split; [exact Hday|].
    intros Hl. rewrite (Hlast _ _ _ Hgd Hkt Hl) in Hday. injection Hday as <-.
    apply github_day_by_rule.
Qed.

(** The feed with an all-[yes] day and a day with an unrecognised hour. *)
Example extract_github_sample :
  extract_github int_decimal (Some fact_pending) ["GPV1.1"]
  = Some [("GPV1.1",
           [ (0%Z, mkDay None (mkDatetime 0 KYIV_TZ) "pending");
             (1%Z, mkDay (Some (repeat true 48)) (mkDatetime 86400 KYIV_TZ) "normal") ])].
Proof. reflexivity. Qed.

Lemma extract_github_pending_sample :
  let days := [ (0%Z, mkDay None (mkDatetime 0 KYIV_TZ) "pending");
                (1%Z, mkDay (Some (repeat true 48)) (mkDatetime 86400 KYIV_TZ) "normal") ] in
  extract_github int_decimal (Some fact_pending) ["GPV1.1"] = Some [("GPV1.1", days)]
  /\ In ("GPV1.1", days) [("GPV1.1", days)]
  /\ exists fact ks,
       Some fact_pending = Some fact /\ earliest_keys int_decimal fact = Some ks
       /\ (forall d_str day, In (d_str, day) days ->
             exists ts d dt,
               In ts ks /\ group_day fact ts "GPV1.1" = Some d /\ d <> []
               /\ key_time int_decimal ts = Some dt /\ strftime_Ymd dt = d_str
               /\ day_by_rule dt d day)
       /\ (forall ts d, In ts ks -> group_day fact ts "GPV1.1" = Some d ->
             exists dt day,
               key_time int_decimal ts = Some dt
               /\ get days (strftime_Ymd dt) = Some day
               /\ (last_of_date int_decimal fact "GPV1.1" ks ts (strftime_Ymd dt) ->
                   day_by_rule dt d day)).
Proof.
  intros days.
  assert (E : extract_github int_decimal (Some fact_pending) ["GPV1.1"]
              = Some [("GPV1.1", days)]) by reflexivity.
  assert (Hin : In ("GPV1.1", days) [("GPV1.1", days)]) by (left; reflexivity).
  split; [exact E|]. split; [exact Hin|].
  exact (extract_github_pending int_decimal (Some fact_pending) ["GPV1.1"] _ "GPV1.1" days
           E Hin).
Defined.

(** C7, as stated, fails for Source A: the two earliest keys of the feed are
    taken before the group is looked up, so a group that is absent from the
    earliest key keeps one date although two are available for it. *)
Lemma extract_github_not_two_earliest_of_group :
  extract_github int_decimal (Some fact_gap) ["GPV1.1"]
  = Some [("GPV1.1", [(1%Z, mkDay (Some (parse_github_day [("1", "no")]))
                                  (mkDatetime 86400 KYIV_TZ) "normal")])]
  /\ firstn 2 (available_dates int_decimal fact_gap "GPV1.1") = [1%Z; 2%Z].
Proof. split; reflexivity. Qed.

(** C7, amended.  For each source and each group the snapshot holds at most
    two dates.  For Source A they are the dates of those among the two
    earliest day keys of the feed (keys sorted ascending as integers, every
    later key being discarded) that carry a payload for the group; for
    Source B they are the dates of the entries [today] and [tomorrow] of the
    group. *)
Theorem snapshot_two_dates (int : string -> option Z) :
  (forall data grps res grp days,
     extract_github int data grps = Some res -> In (grp, days) res ->
     exists fact ks,
       data = Some fact /\ earliest_keys int fact = Some ks
       /\ (length days <= 2)%nat
       /\ (forall d_str, In d_str (keys days) <->
             exists ts dt, In ts ks /\ has_group fact grp ts = true
                           /\ key_time int ts = Some dt /\ strftime_Ymd dt = d_str)
       /\ (length ks <= 2)%nat
       /\ (forall ts, In ts ks -> In ts (keys fact))
       /\ (forall ts ts' n n', In ts ks -> In ts' (keys fact) -> ~ In ts' ks ->
             int ts = Some n -> int ts' = Some n' -> (n <= n')%Z))
  /\ (forall data grps res grp days,
        extract_yasno data grps = Some res -> In (grp, days) res ->
        exists ydata g, data = Some ydata
          /\ get ydata (replace "GPV" "" grp) = Some g
          /\ (length days <= 2)%nat
          /\ (forall d_str, In d_str (keys days) <->
                dated (today g) d_str \/ dated (tomorrow g) d_str)).
Proof.
  split.
  - intros data grps res grp days E Hg.
    destruct (extract_github_groups _ _ _ _ _ _ E Hg) as (fact & -> & _ & Eg).
    destruct (github_group_shape _ _ _ _ Eg) as (ks & Ek & _ & Hlen & Hdays & Hkeys & _).
    destruct (earliest_keys_some _ _ _ Ek) as (Hk2 & _ & Hsub & Hearly).
    exists fact, ks. split; [reflexivity|]. split; [exact Ek|]. split; [exact Hlen|].
    split; [|split; [exact Hk2 | split; [exact Hsub | exact Hearly]]].
    intros d_str. split.
    + intros Hin. unfold keys in Hin. apply in_map_iff in Hin.
      destruct Hin as ([k day] & <- & Hin). simpl.
      destruct (Hdays _ _ Hin) as (ts & d & dt & Hts & Hgd & Hkt & -> & _).
      exists ts, dt. unfold has_group. rewrite Hgd. auto.
    + intros (ts & dt & Hts & Hhas & Hkt & <-).
      destruct (Hkeys ts Hts) as (dt' & Hkt' & Hin).
      * unfold has_group in Hhas. destruct (group_day fact ts grp); [discriminate|discriminate].
      * congruence.
  - intros data grps res grp days E Hin.
    destruct (extract_yasno_groups _ _ _ _ _ E Hin) as (ydata & g & -> & _ & Hg & Hd).
    destruct (yasno_group_shape _ _ Hd) as (_ & Hlen & _ & Hkeys).
    exists ydata, g. auto.
Qed.

Lemma snapshot_two_dates_sample :
  let days := [(1%Z, mkDay (Some (parse_github_day [("1", "no")]))
                           (mkDatetime 86400 KYIV_TZ) "normal")] in
  extract_github int_decimal (Some fact_gap) ["GPV1.1"] = Some [("GPV1.1", days)]
  /\ In ("GPV1.1", days) [("GPV1.1", days)]
  /\ exists fact ks,
       Some fact_gap = Some fact /\ earliest_keys int_decimal fact = Some ks
       /\ (length days <= 2)%nat
       /\ (forall d_str, In d_str (keys days) <->
             exists ts dt, In ts ks /\ has_group fact "GPV1.1" ts = true
                           /\ key_time int_decimal ts = Some dt /\ strftime_Ymd dt = d_str)
       /\ (length ks <= 2)%nat
       /\ (forall ts, In ts ks -> In ts (keys fact))
       /\ (forall ts ts' n n', In ts ks -> In ts' (keys fact) -> ~ In ts' ks ->
             int_decimal ts = Some n -> int_decimal ts' = Some n' -> (n <= n')%Z).
Proof.
  intros days.
  assert (E : extract_github int_decimal (Some fact_gap) ["GPV1.1"]
              = Some [("GPV1.1", days)]) by reflexivity.
  assert (Hin : In ("GPV1.1", days) [("GPV1.1", days)]) by (left; reflexivity).
  split; [exact E|]. split; [exact Hin|].
  exact (proj1 (snapshot_two_dates int_decimal) (Some fact_gap) ["GPV1.1"] _ "GPV1.1" days
           E Hin).
Defined.

(** C10. Status exclusivity: every day either parser stores has a timeline
    if and only if its status is [normal] (so a [pending] or [emergency] day
    carries none), a timeline that is present has exactly 48 slots, and the
    status is one of the three. *)
Theorem status_exclusivity (int : string -> option Z) :
  (forall data grps res grp days d_str day,
     extract_github int data grps = Some res -> In (grp, days) res ->
     In (d_str, day) days -> exclusive day)
  /\ (forall data grps res grp days d_str day,
        extract_yasno data grps = Some res -> In (grp, days) res ->
        In (d_str, day) days -> exclusive day).
Proof.
  split.
  - intros data grps res grp days d_str day E Hg Hd.
    destruct (extract_github_days _ _ _ _ _ _ _ _ E Hg Hd)
      as (fact & ks & ts & d & dt & _ & _ & _ & _ & _ & _ & ->).
    apply github_day_exclusive.
  - intros data grps res grp days d_str day E Hg Hd.
    destruct (extract_yasno_groups _ _ _ _ _ E Hg) as (ydata & g & _ & _ & _ & Hdays).
    destruct (yasno_group_shape _ _ Hdays) as (_ & _ & Hex & _).
    exact (Hex _ _ Hd).
Qed.

(** The sample feed of Source B: a normal day and a pending one. *)
Example extract_yasno_sample :
  extract_yasno (Some yasno_sample) ["GPV1.1"]
  = Some [("GPV1.1",
           [ (0%Z, mkDay (Some (repeat true 16 ++ repeat false 4 ++ repeat true 28))
                         (mkDatetime 0 7200) "normal");
             (1%Z, mkDay None (mkDatetime 86400 7200) "pending") ])].
Proof. reflexivity. Qed.

Lemma status_exclusivity_sample :
  exclusive (mkDay (Some (repeat true 16 ++ repeat false 4 ++ repeat true 28))
                   (mkDatetime 0 7200) "normal")
  /\ exclusive (mkDay (Some (repeat true 48)) (mkDatetime 86400 KYIV_TZ) "normal")
  /\ exclusive (mkDay None (mkDatetime 0 KYIV_TZ) "pending").
Proof.
  split; [|split].
  - refine (proj2 (status_exclusivity int_decimal) (Some yasno_sample) ["GPV1.1"] _
                  "GPV1.1" _ 0%Z _ extract_yasno_sample _ _).
    + left. reflexivity.
    + left. reflexivity.
  - refine (proj1 (status_exclusivity int_decimal) (Some fact_pending) ["GPV1.1"] _
                  "GPV1.1" _ 1%Z _ extract_github_sample _ _).
    + left. reflexivity.
    + right. left. reflexivity.
  - refine (proj1 (status_exclusivity int_decimal) (Some fact_pending) ["GPV1.1"] _
                  "GPV1.1" _ 0%Z _ extract_github_sample _ _).
    + left. reflexivity.
    + left. reflexivity.
Defined.


(* ================================================================== *)
(** * The source merger *)
(* ================================================================== *)

Lemma slots_eqb_same (a b : option (list bool)) :
  option_eqb (list_eqb Bool.eqb) a b = true <-> same_slots a b.
Proof.
  destruct a as [ta|], b as [tb|]; simpl; try (split; [discriminate | tauto]); [|tauto].
  rewrite list_eqb_bool_eq. split; [now intros -> | apply nth_error_ext].
Qed.

Lemma is_match_iff g_d y_d : is_match g_d y_d = true <-> sources_match g_d y_d.
Proof.
  unfold is_match, sources_match. split.
  - destruct g_d as [g|], y_d as [y|]; try discriminate.
    destruct (String.eqb_spec (status g) "normal"); [|discriminate].
    destruct (String.eqb_spec (status y) "normal"); [|discriminate]. simpl.
    destruct (option_eqb _ _ _) eqn:E; [|discriminate]. intros _.
    exists g, y. repeat split; auto. now apply slots_eqb_same.
  - intros (g & y & -> & -> & Hg & Hy & Hs).
    rewrite Hg, Hy. simpl. apply slots_eqb_same in Hs. now rewrite Hs.
Qed.

(** Two timelines that differ in one slot are not identical. *)
Lemma differ_not_match g y tg ty :
  slots g = Some tg -> slots y = Some ty -> differ_in_one_slot tg ty ->
  ~ sources_match (Some g) (Some y).
Proof.
  intros Hg Hy (_ & i & _ & Hi & _) (g' & y' & Eg & Ey & _ & _ & Hs).
  injection Eg as <-. injection Ey as <-. rewrite Hg, Hy in Hs. simpl in Hs.
  apply Hi, Hs.
Qed.

(* ================================================================== *)
(** * The change detector *)
(* ================================================================== *)

Lemma cacheday_eqb_eq a b : cacheday_eqb a b = true <-> a = b.
Proof.
  unfold cacheday_eqb. destruct a as [sa la], b as [sb lb]. simpl.
  rewrite andb_true_iff, String.eqb_eq. split.
  - intros [-> E]. f_equal.
    destruct la, lb; simpl in E; try discriminate; [|reflexivity].
    f_equal. now apply list_eqb_bool_eq.
  - intros E. injection E as -> ->. split; [reflexivity|].
    destruct lb; simpl; [now apply list_eqb_bool_eq | reflexivity].
Qed.

Lemma reordered_cache_eqb (a b : CacheState) :
  wf_cache a -> reordered_cache a b -> cache_eqb a b = true.
Proof.
  intros [Wa Va] Hr. unfold cache_eqb.
  apply (reordered_dict_eqb _ (reordered (reordered eq)) a b); [|exact Wa|exact Hr].
  intros gs gs' Hin Hr2. rewrite Forall_forall in Va. destruct (Va gs Hin) as [Wg Vg].
  apply (reordered_dict_eqb _ (reordered eq) gs gs'); [|exact Wg|exact Hr2].
  intros ds ds' Hin3 Hr3. rewrite Forall_forall in Vg.
  apply (reordered_dict_eqb _ eq ds ds'); [|exact (Vg ds Hin3)|exact Hr3].
  intros x y _ ->. now apply cacheday_eqb_eq.
Qed.

Lemma flip_slot_changes i tl v : nth_error tl i = Some v -> flip_slot i tl <> tl.
Proof.
  intros E Hf. unfold flip_slot in Hf. rewrite E in Hf.
  assert (Hi : nth_error (update_nth tl i (negb v)) i = Some (negb v)).
  { rewrite nth_error_update_nth, Nat.eqb_refl.
    destruct (Nat.ltb_spec i (length tl)) as [|Hge]; [reflexivity|].
    apply nth_error_None in Hge. congruence. }
  rewrite Hf, E in Hi. injection Hi as Hi. now destruct v.
Qed.

(** A timeline that differs as a sequence, under any order of the keys, is
    seen by [==] from both sides. *)
Lemma edit_detected (a b : CacheState) src grp d_str f tl :
  wf_cache a -> reordered_cache a b ->
  cached_timeline b src grp d_str = Some tl -> f tl <> tl ->
  cache_eqb a (edit_cache src grp d_str f b) = false
  /\ cache_eqb (edit_cache src grp d_str f b) a = false.
Proof.
  intros [Wa Va] Hr Hs Hf. unfold cached_timeline in Hs.
  destruct (get b src) as [gs|] eqn:E1; [|discriminate]. cbn [bind] in Hs.
  destruct (get gs grp) as [ds|] eqn:E2; [|discriminate]. cbn [bind] in Hs.
  destruct (get ds d_str) as [day|] eqn:E3; [|discriminate]. cbn [bind] in Hs.
  destruct (reordered_get _ a b src gs Wa Hr E1) as (gsa & A1 & R1).
  destruct (values_In _ _ _ _ Va (get_In _ _ _ A1)) as [Wg Vg].
  destruct (reordered_get _ gsa gs grp ds Wg R1 E2) as (dsa & A2 & R2).
  pose proof (values_In _ _ _ _ Vg (get_In _ _ _ A2)) as Wd.
  destruct (reordered_get _ dsa ds d_str day Wd R2 E3) as (daya & A3 & ->).
  assert (F1 : get (edit_cache src grp d_str f b) src
               = Some (update gs grp (fun ds => update ds d_str (edit_day f))))
    by (exact (get_update b src
                 (fun gs => update gs grp (fun ds => update ds d_str (edit_day f))) gs E1)).
  assert (F2 : get (update gs grp (fun ds => update ds d_str (edit_day f))) grp
               = Some (update ds d_str (edit_day f)))
    by (exact (get_update gs grp (fun ds => update ds d_str (edit_day f)) ds E2)).
  assert (F3 : get (update ds d_str (edit_day f)) d_str = Some (edit_day f day))
    by (exact (get_update ds d_str (edit_day f) day E3)).
  assert (Hne : edit_day f day <> day).
  { unfold edit_day. destruct day as [st sl]. simpl in *. subst sl. simpl.
    intros E. injection E as E. now apply Hf. }
  split.
  - destruct (cache_eqb a _) eqn:E; [exfalso|reflexivity]. unfold cache_eqb in E.
    destruct (dict_eqb_find _ _ _ _ _ E A1) as (y1 & G1 & Q1).
    pose proof (eq_trans (eq_sym F1) G1) as X1; injection X1 as <-.
    destruct (dict_eqb_find _ _ _ _ _ Q1 A2) as (y2 & G2 & Q2).
    pose proof (eq_trans (eq_sym F2) G2) as X2; injection X2 as <-.
    destruct (dict_eqb_find _ _ _ _ _ Q2 A3) as (y3 & G3 & Q3).
    pose proof (eq_trans (eq_sym F3) G3) as X3; injection X3 as <-.
    apply cacheday_eqb_eq in Q3. congruence.
  - destruct (cache_eqb _ a) eqn:E; [exfalso|reflexivity]. unfold cache_eqb in E.
    destruct (dict_eqb_find _ _ _ _ _ E F1) as (y1 & G1 & Q1).
    pose proof (eq_trans (eq_sym A1) G1) as X1; injection X1 as <-.
    destruct (dict_eqb_find _ _ _ _ _ Q1 F2) as (y2 & G2 & Q2).
    pose proof (eq_trans (eq_sym A2) G2) as X2; injection X2 as <-.
    destruct (dict_eqb_find _ _ _ _ _ Q2 F3) as (y3 & G3 & Q3).
    pose proof (eq_trans (eq_sym A3) G3) as X3; injection X3 as <-.
    apply cacheday_eqb_eq in Q3. congruence.
Qed.

Lemma serialize_wf (s : Snapshot) : wf_groups (serialize s).
Proof.
  unfold serialize, wf_groups.
  apply (fold_set_wf wf fst
           (fun gd => fold_left (fun c kv => set c (fst kv)
                        (mkCacheDay (status (snd kv)) (slots (snd kv)))) (snd gd) [])).
  - intros gd _.
    apply (fold_set_wf (fun _ => True) fst
             (fun kv => mkCacheDay (status (snd kv)) (slots (snd kv)))); auto; constructor.
  - constructor.
  - constructor.
Qed.

Lemma new_cache_wf (gh ya : Snapshot) : wf_cache (new_cache gh ya).
Proof.
  unfold new_cache, wf_cache. split.
  - repeat constructor; simpl; intuition discriminate.
  - repeat constructor; apply serialize_wf.
Qed.

(** C8. The test [new_c == old_c] does not see the order of the keys of the
    source, group and date mappings: a cache that holds the serialized
    snapshot with its keys in another order is never reported as changed.
    It does see the slots: against such a cache in which one timeline
    differs as a sequence, and in particular one in which any single slot
    of any timeline is flipped, the result is "changed". *)
Theorem change_detection (gh_sched ya_sched : Snapshot) (old_c : CacheState) :
  reordered_cache (new_cache gh_sched ya_sched) old_c ->
  changed (new_cache gh_sched ya_sched) old_c = false
  /\ (forall src grp d_str f tl,
        cached_timeline old_c src grp d_str = Some tl -> f tl <> tl ->
        changed (new_cache gh_sched ya_sched) (edit_cache src grp d_str f old_c) = true)
  /\ (forall src grp d_str tl i,
        cached_timeline old_c src grp d_str = Some tl -> (i < length tl)%nat ->
        changed (new_cache gh_sched ya_sched)
                (edit_cache src grp d_str (flip_slot i) old_c) = true).
Proof.
  intros Hr. unfold changed.
  assert (Hedit : forall src grp d_str f tl,
             cached_timeline old_c src grp d_str = Some tl -> f tl <> tl ->
             negb (cache_eqb (new_cache gh_sched ya_sched)
                             (edit_cache src grp d_str f old_c)) = true).
  { intros src grp d_str f tl Hs Hf.
    destruct (edit_detected _ _ src grp d_str f tl
                (new_cache_wf gh_sched ya_sched) Hr Hs Hf) as [-> _].
    reflexivity. }
  split; [|split].
  - rewrite reordered_cache_eqb; [reflexivity | apply new_cache_wf | exact Hr].
  - exact Hedit.
  - intros src grp d_str tl i Hs Hi. apply (Hedit src grp d_str (flip_slot i) tl Hs).
    destruct (nth_error tl i) as [v|] eqn:E; [now apply (flip_slot_changes i tl v)|].
    apply nth_error_None in E. lia.
Qed.

Lemma sample_cache_reordered : reordered_cache (new_cache sample_snapshot []) sample_old_cache.
Proof.
  exists [("yasno", []); ("github", serialize sample_snapshot)]. split.
  - apply perm_swap.
  - constructor; [split; [reflexivity|]; exists []; split; constructor|].
    constructor; [|constructor]. split; [reflexivity|].
    exists (serialize sample_snapshot). split; [apply Permutation_refl|].
    constructor; [|constructor]. split; [reflexivity|].
    exists [ (2%Z, mkCacheDay "pending" None);
             (1%Z, mkCacheDay "normal" (Some sample_timeline)) ].
    split; [apply perm_swap|].
    repeat constructor.
Defined.

Lemma change_detection_sample :
  reordered_cache (new_cache sample_snapshot []) sample_old_cache
  /\ changed (new_cache sample_snapshot []) sample_old_cache = false
  /\ cached_timeline sample_old_cache "github" "GPV1.1" 1 = Some sample_timeline
  /\ (20 < length sample_timeline)%nat
  /\ changed (new_cache sample_snapshot [])
             (edit_cache "github" "GPV1.1" 1 (flip_slot 20) sample_old_cache) = true.
Proof.
  assert (Hlen : (20 < length sample_timeline)%nat) by (vm_compute; lia).
  destruct (change_detection sample_snapshot [] sample_old_cache sample_cache_reordered)
    as (Hsame & _ & Hflip).
  split; [exact sample_cache_reordered|]. split; [exact Hsame|].
  split; [reflexivity|]. split; [exact Hlen|].
  exact (Hflip "github" "GPV1.1" 1%Z sample_timeline 20%nat eq_refl Hlen).
Defined.

(** The same two comparisons, run. *)
Example change_detection_run :
  cache_eqb (new_cache sample_snapshot []) sample_old_cache = true
  /\ cache_eqb (new_cache sample_snapshot [])
               (edit_cache "github" "GPV1.1" 1 (flip_slot 20) sample_old_cache) = false.
Proof. split; reflexivity. Qed.

(* ================================================================== *)
(** * Numeral agreement *)
(* ================================================================== *)

Lemma int_of_float_whole hours n : hours == inject_Z n -> int_of_float hours = n.
Proof.
  destruct hours as [p q]. unfold Qeq, int_of_float, inject_Z. simpl.
  intros E. rewrite Z.mul_1_r in E. subst p. apply Z.quot_mul. discriminate.
Qed.

Lemma whole_test hours :
  Qeq_bool hours (inject_Z (int_of_float hours)) = true <-> whole hours.
Proof.
  rewrite Qeq_bool_iff. split.
  - intros E. now exists (int_of_float hours).
  - intros [n E]. now rewrite (int_of_float_whole _ _ E).
Qed.

(** C9. [format_hours_full] applies the agreement rule: a value with a
    fractional part takes the long form; a whole number [n] whose last digit
    is 1 and whose last two digits are not 11 takes the singular form; one
    whose last digit is 2, 3 or 4 and whose last two digits are not 12, 13
    or 14 takes the few form; every other whole number takes the many form.
    The last digit and the last two digits are [n mod 10] and [n mod 100],
    as the code computes them. *)
Theorem format_hours_full_agreement (float_repr : Q -> string) (hours : Q) :
  (~ whole hours ->
     format_hours_full float_repr hours = (float_repr hours ++ " години")%string)
  /\ (forall n : Z, hours == inject_Z n ->
      ((n mod 10 = 1)%Z -> (n mod 100 <> 11)%Z ->
         format_hours_full float_repr hours = (str n ++ " година")%string)
      /\ ((2 <= n mod 10 <= 4)%Z -> ~ (12 <= n mod 100 <= 14)%Z ->
         format_hours_full float_repr hours = (str n ++ " години")%string)
      /\ (~ (n mod 10 = 1 /\ n mod 100 <> 11)%Z ->
          ~ ((2 <= n mod 10 <= 4)%Z /\ ~ (12 <= n mod 100 <= 14)%Z) ->
         format_hours_full float_repr hours = (str n ++ " годин")%string)).
Proof.
  split.
  - intros Hf. unfold format_hours_full.
    destruct (Qeq_bool hours _) eqn:E; [|reflexivity].
    exfalso. apply Hf. now apply whole_test.
  - intros n Hn. unfold format_hours_full.
    replace (Qeq_bool hours _) with true by (symmetry; apply whole_test; now exists n).
    rewrite (int_of_float_whole _ _ Hn). cbv zeta. cbn [existsb].
    repeat split; intros.
    all: repeat match goal with
           | |- context [Z.eqb ?x ?y] => destruct (Z.eqb_spec x y)
           end; cbn [andb orb negb]; try reflexivity; try lia.
Qed.

Lemma format_hours_full_agreement_sample :
  (21 # 1) == inject_Z 21
  /\ format_hours_full repr_half (21 # 1) = "21 година"
  /\ (4 # 2) == inject_Z 2
  /\ format_hours_full repr_half (4 # 2) = "2 години"
  /\ (12 # 1) == inject_Z 12
  /\ format_hours_full repr_half (12 # 1) = "12 годин"
  /\ ~ whole (5 # 2)
  /\ format_hours_full repr_half (5 # 2) = "2.5 години".
Proof.
  assert (H21 : (21 # 1) == inject_Z 21) by reflexivity.
  assert (H2 : (4 # 2) == inject_Z 2) by reflexivity.
  assert (H12 : (12 # 1) == inject_Z 12) by reflexivity.
  assert (Hf : ~ whole (5 # 2)).
  { intros [n E]. unfold Qeq, inject_Z in E. simpl in E. lia. }
  split; [exact H21|]. split.
  { refine (proj1 (proj2 (format_hours_full_agreement repr_half (21 # 1)) 21%Z H21) _ _);
      [reflexivity | discriminate]. }
  split; [exact H2|]. split.
  { refine (proj1 (proj2 (proj2 (format_hours_full_agreement repr_half (4 # 2)) 2%Z H2)) _ _);
      [vm_compute; split; discriminate | vm_compute; intros [H _]; apply H; reflexivity]. }
  split; [exact H12|]. split.
  { refine (proj2 (proj2 (proj2 (format_hours_full_agreement repr_half (12 # 1)) 12%Z H12)) _ _);
      [vm_compute; intros [H _]; discriminate H
      | vm_compute; intros [_ H]; apply H; split; discriminate]. }
  split; [exact Hf|].
  exact (proj1 (format_hours_full_agreement repr_half (5 # 2)) Hf).
Defined.

(** The cases the description of the renderer lists. *)
Example format_hours_full_cases :
  map (fun n => format_hours_full repr_half (inject_Z n))
      [1; 2; 3; 4; 5; 10; 11; 12; 13; 14; 20; 21; 22; 23; 24]%Z
  = ["1 година"; "2 години"; "3 години"; "4 години"; "5 годин"; "10 годин";
     "11 годин"; "12 годин"; "13 годин"; "14 годин"; "20 годин"; "21 година";
     "22 години"; "23 години"; "24 години"].
Proof. reflexivity. Qed.


(* ================================================================== *)
(** * Further properties of the compressor and the renderers *)
(* ================================================================== *)

(** X1. Within one day (slots 0 to 48) [format_slot_time] gives different
    slots different texts, so a period's times determine its slots. *)
Theorem format_slot_time_injective (a b : nat) :
  (a <= 48)%nat -> (b <= 48)%nat -> a <> b ->
  format_slot_time a <> format_slot_time b.
Proof.
  intros Ha Hb Hne E. apply Hne.
  pose proof (slot_of_time_format a Ha) as Sa.
  pose proof (slot_of_time_format b Hb) as Sb.
  rewrite E in Sa. congruence.
Qed.

Lemma format_slot_time_injective_sample :
  (0 <= 48)%nat /\ (48 <= 48)%nat /\ 0%nat <> 48%nat
  /\ format_slot_time 0 <> format_slot_time 48.
Proof.
  assert (H0 : (0 <= 48)%nat) by lia.
  assert (H48 : (48 <= 48)%nat) by lia.
  assert (Hne : 0%nat <> 48%nat) by lia.
  split; [exact H0|]. split; [exact H48|]. split; [exact Hne|].
  exact (format_slot_time_injective 0 48 H0 H48 Hne).
Defined.

Lemma half_hour_count_half_hours a b : half_hour_count (half_hours a b) = (b - a)%nat.
Proof.
  unfold half_hour_count, half_hours. simpl.
  rewrite Z.mul_1_r. rewrite Z.div_mul by discriminate. lia.
Qed.

Lemma expand_by_hours_emit rest : forall i curr start total,
  (start <= i)%nat -> (i + length rest = total)%nat ->
  expand_by_hours (emit rest i curr start total) = repeat curr (i - start) ++ rest.
Proof.
  induction rest as [|b rest IH]; intros i curr start total Hs Hl; simpl in *.
  - unfold expand_by_hours. simpl. rewrite half_hour_count_half_hours.
    rewrite !app_nil_r. f_equal. lia.
  - destruct (Bool.eqb b curr) eqn:E; simpl.
    + apply Bool.eqb_prop in E. subst b. rewrite IH by lia.
      replace (S i - start)%nat with ((i - start) + 1)%nat by lia.
      rewrite repeat_app. rewrite <- app_assoc. reflexivity.
    + unfold expand_by_hours in *. simpl. rewrite half_hour_count_half_hours.
      rewrite IH by lia. replace (S i - i)%nat with 1%nat by lia. reflexivity.
Qed.

(** X2. For a timeline of any length, repeating each period's [is_on] value
    once per half-hour of its [hours] field gives the timeline back: every
    period holds exactly the slots of one run. *)
Theorem slots_to_periods_expand_by_hours (slots : list bool) :
  expand_by_hours (slots_to_periods slots) = slots.
Proof.
  destruct slots as [|s0 rest]; [reflexivity|].
  rewrite slots_to_periods_emit. rewrite expand_by_hours_emit by (simpl; lia). reflexivity.
Qed.

Lemma emit_length rest : forall i curr start total,
  length (emit rest i curr start total) = S (changes (curr :: rest)).
Proof.
  induction rest as [|b rest IH]; intros; [reflexivity|].
  cbn [emit]. change (changes (curr :: b :: rest))
    with ((if Bool.eqb curr b then 0 else 1) + changes (b :: rest))%nat.
  destruct b, curr; cbn [Bool.eqb negb]; cbn [length]; rewrite IH; cbn; lia.
Qed.

(** X3. [slots_to_periods] returns no period exactly for the empty
    timeline, and otherwise one period more than the timeline has changes
    of value. *)
Theorem slots_to_periods_count (slots : list bool) :
  (slots_to_periods slots = [] <-> slots = [])
  /\ (slots <> [] -> length (slots_to_periods slots) = S (changes slots)).
Proof.
  destruct slots as [|s0 rest].
  - split; [tauto | congruence].
  - rewrite slots_to_periods_emit. split.
    + split; [|discriminate]. intros E.
      pose proof (emit_length rest 1 s0 0 (S (length rest))) as H. rewrite E in H.
      discriminate.
    + intros _. apply emit_length.
Qed.

Lemma slots_to_periods_count_sample :
  sample_timeline <> []
  /\ length (slots_to_periods sample_timeline) = S (changes sample_timeline).
Proof.
  assert (Hne : sample_timeline <> []) by discriminate.
  split; [exact Hne|]. exact (proj2 (slots_to_periods_count sample_timeline) Hne).
Defined.

(** ** Totals of the renderers *)

Lemma count_slots_app v a b :
  count_slots v (a ++ b) = (count_slots v a + count_slots v b)%nat.
Proof. unfold count_slots. now rewrite filter_app, length_app. Qed.

Lemma count_slots_repeat v c n :
  count_slots v (repeat c n) = if Bool.eqb c v then n else 0%nat.
Proof.
  unfold count_slots. induction n as [|n IH]; simpl; [now destruct (Bool.eqb c v)|].
  destruct v, c; simpl in *; rewrite ?IH; reflexivity.
Qed.

Lemma hours_of_slots_add a b :
  hours_of_slots (a + b) == hours_of_slots a + hours_of_slots b.
Proof.
  unfold hours_of_slots. rewrite Nat2Z.inj_add, inject_Z_plus. apply Qmult_plus_distr_l.
Qed.

Lemma half_hours_slots a b : (a <= b)%nat -> half_hours a b == hours_of_slots (b - a).
Proof.
  intros H. unfold half_hours, hours_of_slots. rewrite Nat2Z.inj_sub by exact H.
  reflexivity.
Qed.

Lemma hours_where_emit v rest : forall i curr start total,
  (start <= i)%nat -> (i + length rest = total)%nat ->
  hours_where v (emit rest i curr start total)
  == hours_of_slots (count_slots v (repeat curr (i - start) ++ rest)).
Proof.
  induction rest as [|b rest IH]; intros i curr start total Hs Hl.
  - cbn [emit hours_where fold_right p_is_on p_hours].
    rewrite app_nil_r, Qplus_0_r, count_slots_repeat.
    cbn [length] in Hl. replace total with i by lia.
    destruct (Bool.eqb curr v); [now apply half_hours_slots | reflexivity].
  - cbn [emit]. cbn [length] in Hl. destruct (Bool.eqb b curr) eqn:E; cbn [negb].
    + apply Bool.eqb_prop in E. subst b. rewrite IH by lia.
      replace (S i - start)%nat with ((i - start) + 1)%nat by lia.
      rewrite repeat_app, <- app_assoc. reflexivity.
    + cbn [hours_where fold_right p_is_on p_hours].
      change (fold_right _ 0 ?l) with (hours_where v l).
      rewrite IH by lia. replace (S i - i)%nat with 1%nat by lia.
      rewrite (count_slots_app v (repeat curr (i - start))), hours_of_slots_add.
      rewrite count_slots_repeat.
      apply Qplus_comp; [|reflexivity].
      destruct (Bool.eqb curr v); [now apply half_hours_slots | reflexivity].
Qed.

Lemma hours_where_periods v slots :
  hours_where v (slots_to_periods slots) == hours_of_slots (count_slots v slots).
Proof.
  destruct slots as [|s0 rest]; [reflexivity|].
  rewrite slots_to_periods_emit, hours_where_emit by (simpl; lia). reflexivity.
Qed.

(** The loop shared by the two layouts: one line per period, the hours added
    up by [is_on]. *)
Lemma periods_loop_shape (row : Period -> string) periods : forall lines on off,
  let '(lines', on', off') :=
    fold_left (fun st p => let '(lines, total_on, total_off) := st in
       if p_is_on p then (lines ++ [row p], total_on + p_hours p, total_off)
       else (lines ++ [row p], total_on, total_off + p_hours p))
      periods (lines, on, off) in
  lines' = lines ++ map row periods
  /\ on' == on + hours_where true periods /\ off' == off + hours_where false periods.
Proof.
  induction periods as [|p ps IH]; intros lines on off.
  - cbn. rewrite app_nil_r, !Qplus_0_r. repeat split; reflexivity.
  - cbn [fold_left map hours_where fold_right].
    change (fold_right _ 0 ps) with (hours_where true ps) at 1.
    destruct (p_is_on p) eqn:Eon.
    + specialize (IH (lines ++ [row p]) (on + p_hours p) off).
      destruct (fold_left _ _ _) as [[l on'] off']. destruct IH as (-> & -> & ->).
      rewrite <- app_assoc. cbn [Bool.eqb]. repeat split; try reflexivity.
      * rewrite Qplus_assoc. reflexivity.
      * change (fold_right _ 0 ps) with (hours_where false ps).
        rewrite Qplus_0_l. reflexivity.
    + specialize (IH (lines ++ [row p]) on (off + p_hours p)).
      destruct (fold_left _ _ _) as [[l on'] off']. destruct IH as (-> & -> & ->).
      rewrite <- app_assoc. cbn [Bool.eqb]. repeat split; try reflexivity.
      * rewrite Qplus_0_l. reflexivity.
      * change (fold_right _ 0 ps) with (hours_where false ps).
        rewrite Qplus_assoc. reflexivity.
Qed.

(** X4. On the periods of a timeline both layouts produce one line per
    period, in order, and the totals of their summary are half an hour per
    on-slot and half an hour per off-slot of the timeline. *)
Theorem render_totals (float_repr : Q -> string) (ui : Ui) (slots : list bool)
        (head : list string) :
  let ps := slots_to_periods slots in
  let '(lines, total_on, total_off) := render_list_loop float_repr ui ps in
  let '(rows, table_on, table_off) := render_table_loop float_repr ps head in
  lines = map (list_line float_repr ui) ps
  /\ rows = head ++ map (table_row float_repr) ps
  /\ total_on == hours_of_slots (count_slots true slots)
  /\ total_off == hours_of_slots (count_slots false slots)
  /\ table_on == total_on /\ table_off == total_off.
Proof.
  intros ps. unfold render_list_loop, render_table_loop.
  pose proof (periods_loop_shape (list_line float_repr ui) ps [] 0 0) as HL.
  pose proof (periods_loop_shape (table_row float_repr) ps head 0 0) as HT.
  destruct (fold_left _ ps ([], 0, 0)) as [[lines on] off].
  destruct (fold_left _ ps (head, 0, 0)) as [[rows ton] toff].
  destruct HL as (-> & Hon & Hoff). destruct HT as (-> & Hton & Htoff).
  rewrite Qplus_0_l in Hon, Hoff, Hton, Htoff.
  subst ps. rewrite hours_where_periods in Hon, Hoff.
  repeat split; try assumption.
  - now rewrite Hton, Hon, hours_where_periods.
  - now rewrite Htoff, Hoff, hours_where_periods.
Qed.

(** The sample day in the list layout. *)
Example render_list_sample :
  render_list repr_half sample_ui (slots_to_periods sample_timeline)
  = join_lines [ "+ 00:00 - 08:00 … (8 годин)";
                 "- 08:00 - 09:00 … (1 година)";
                 "+ 09:00 - 24:00 … (15 годин)";
                 "";
                 "+ On: 23 години";
                 "- Off: 1 година" ].
Proof. reflexivity. Qed.

(** ** Widths of the table *)

Lemma py_len_format_slot_time n : (n <= 48)%nat -> py_len (format_slot_time n) = 5%nat.
Proof.
  intros H.
  assert (E : forallb (fun n => (py_len (format_slot_time n) =? 5)%nat) (seq 0 49) = true)
    by (vm_compute; reflexivity).
  rewrite forallb_forall in E. apply Nat.eqb_eq, E, in_seq. lia.
Qed.

Lemma emit_times rest : forall i curr start total,
  (start <= i)%nat -> (i + length rest = total)%nat ->
  Forall (fun p => exists a b, (a <= total)%nat /\ (b <= total)%nat
                               /\ p_start p = format_slot_time a
                               /\ p_end p = format_slot_time b)
         (emit rest i curr start total).
Proof.
  induction rest as [|b rest IH]; intros i curr start total Hs Hl; cbn [emit length] in *.
  - constructor; [|constructor]. exists start, total. simpl. repeat split; lia.
  - destruct (negb (Bool.eqb b curr)).
    + constructor; [|apply IH; lia]. exists start, i. simpl. repeat split; lia.
    + apply IH; lia.
Qed.

(** X5. In the table layout every period row of a day (a timeline of at most
    48 slots) is 36 characters wide as soon as the duration fits its column
    of 8, while the separator lines are 38 dashes: the rows are aligned with
    each other and two characters narrower than the rules. *)
Theorem render_table_row_width (float_repr : Q -> string) (slots : list bool) (p : Period) :
  (length slots <= 48)%nat ->
  In p (slots_to_periods slots) ->
  (py_len (format_hours_short float_repr (p_hours p)) <= COL3)%nat ->
  py_len (table_row float_repr p) = 36%nat
  /\ py_len (str_repeat dash (COL1 + COL2 + COL3 + 4)) = 38%nat.
Proof.
  intros Hlen Hin Hdur. split; [|apply py_len_dashes].
  destruct slots as [|s0 rest]; [destruct Hin|].
  rewrite slots_to_periods_emit in Hin.
  pose proof (emit_times rest 1 s0 0 (S (length rest)) ltac:(lia) ltac:(simpl; lia)) as Ht.
  rewrite Forall_forall in Ht. destruct (Ht p Hin) as (a & b & Ha & Hb & Es & Ee).
  simpl in Hlen.
  assert (Hr : py_len (p_start p ++ "-" ++ p_end p)%string = 11%nat).
  { rewrite Es, Ee, !py_len_app, !py_len_format_slot_time by lia. reflexivity. }
  unfold table_row. destruct (p_is_on p).
  - rewrite !py_len_app, ljust_fits, !center_fits; try assumption;
      try (rewrite Hr; unfold COL2; lia); try (simpl; unfold COL1; lia).
    reflexivity.
  - rewrite !py_len_app, ljust_fits, !center_fits; try assumption;
      try (rewrite Hr; unfold COL1; lia); try (simpl; unfold COL2; lia).
    reflexivity.
Qed.

Lemma render_table_row_width_sample :
  let p := mkPeriod "08:00" "09:00" false (half_hours 16 18) in
  (length sample_timeline <= 48)%nat
  /\ In p (slots_to_periods sample_timeline)
  /\ (py_len (format_hours_short repr_half (p_hours p)) <= COL3)%nat
  /\ py_len (table_row repr_half p) = 36%nat.
Proof.
  intros p.
  assert (Hlen : (length sample_timeline <= 48)%nat) by (vm_compute; lia).
  assert (Hin : In p (slots_to_periods sample_timeline)) by (right; left; reflexivity).
  assert (Hdur : (py_len (format_hours_short repr_half (p_hours p)) <= COL3)%nat)
    by (vm_compute; lia).
  split; [exact Hlen|]. split; [exact Hin|]. split; [exact Hdur|].
  exact (proj1 (render_table_row_width repr_half sample_timeline p Hlen Hin Hdur)).
Defined.

(** The sample day in the table layout. *)
Example render_table_sample :
  render_table repr_half sample_ui (slots_to_periods sample_timeline)
  = ("<pre>"
     ++ join_lines [ "--------------------------------------";
                     "     Off     |     On      |  Time  ";
                     "--------------------------------------";
                     "             | 00:00-08:00 |   8г   ";
                     " 08:00-09:00 |             |   1г   ";
                     "             | 09:00-24:00 |  15г   ";
                     "--------------------------------------" ]
     ++ "</pre>"
     ++ join_lines [ ""; "+ On: 23 години"; "- Off: 1 година" ])%string.
Proof. reflexivity. Qed.


(* ================================================================== *)
(** * Further properties of the normaliser *)
(* ================================================================== *)

Lemma extract_github_get (int : string -> option Z) fact grps : forall acc res grp,
  for_each (fun res grp => days <- github_group int fact grp ;; Some (set res grp days))
           grps acc = Some res ->
  get res grp = if existsb (String.eqb grp) grps then github_group int fact grp
                else get acc grp.
Proof.
  induction grps as [|g grps IH]; intros acc res grp E.
  - cbn in E. injection E as <-. reflexivity.
  - rewrite for_each_cons in E.
    destruct (github_group int fact g) as [days|] eqn:Eg; [|discriminate E].
    cbn [bind] in E. rewrite (IH _ _ grp E). cbn [existsb].
    destruct (existsb (String.eqb grp) grps); [now rewrite orb_true_r|].
    rewrite orb_false_r. destruct (String.eqb_spec grp g) as [->|Hne].
    + now rewrite get_set_same.
    + apply get_set_other. congruence.
Qed.

(** X6. For a falsy payload [extract_github] returns the empty dictionary.
    Otherwise it returns exactly when the inner loop returns for every
    configured group, and its result binds exactly the configured groups:
    each one, whether or not the feed has days for it, to the dictionary
    the inner loop builds, and no other key. *)
Theorem extract_github_lookup (int : string -> option Z) (data : option GithubFact)
        (grps : list string) :
  (data = None -> extract_github int data grps = Some [])
  /\ (forall fact, data = Some fact ->
        ((exists res, extract_github int data grps = Some res)
         <-> forall grp, In grp grps -> exists days, github_group int fact grp = Some days))
  /\ (forall res grp,
        extract_github int data grps = Some res ->
        get res grp
        = match data with
          | Some fact =>
              if existsb (String.eqb grp) grps then github_group int fact grp else None
          | None => None
          end).
Proof.
  split; [intros ->; reflexivity|]. split.
  - intros fact ->. apply extract_github_some_iff.
  - intros res grp E. destruct data as [fact|].
    + exact (extract_github_get int fact grps [] res grp E).
    + injection E as <-. reflexivity.
Qed.

Lemma extract_github_lookup_sample :
  extract_github int_decimal (Some fact_gap) ["GPV1.1"; "GPV7.7"]
  = Some [("GPV1.1", [(1%Z, mkDay (Some (parse_github_day [("1", "no")]))
                                  (mkDatetime 86400 KYIV_TZ) "normal")]);
          ("GPV7.7", [])]
  /\ get [("GPV1.1", [(1%Z, mkDay (Some (parse_github_day [("1", "no")]))
                                  (mkDatetime 86400 KYIV_TZ) "normal")]);
          ("GPV7.7", [])] "GPV7.7"
     = (if existsb (String.eqb "GPV7.7") ["GPV1.1"; "GPV7.7"]
        then github_group int_decimal fact_gap "GPV7.7" else None).
Proof.
  assert (E : extract_github int_decimal (Some fact_gap) ["GPV1.1"; "GPV7.7"]
              = Some [("GPV1.1", [(1%Z, mkDay (Some (parse_github_day [("1", "no")]))
                                              (mkDatetime 86400 KYIV_TZ) "normal")]);
                      ("GPV7.7", [])]) by reflexivity.
  split; [exact E|].
  exact (proj2 (proj2 (extract_github_lookup int_decimal (Some fact_gap)
                         ["GPV1.1"; "GPV7.7"])) _ "GPV7.7" E).
Defined.

(** The timestamps [datetime.fromtimestamp] refuses: those before the year
    1 and those that, two hours later, are past the year 9999. *)
Lemma fromtimestamp_none n :
  fromtimestamp n = None <-> (n < MIN_TS \/ MAX_TS - KYIV_TZ < n)%Z.
Proof.
  unfold fromtimestamp, MIN_TS, MAX_TS, KYIV_TZ.
  destruct (Z.leb_spec (-62135596800) n); destruct (Z.leb_spec n 253402300799);
    destruct (Z.leb_spec (n + 7200) 253402300799); cbn [andb];
    split; try discriminate; try reflexivity; lia.
Qed.

Example fromtimestamp_bounds :
  fromtimestamp (-62135596800) = Some (mkDatetime (-62135596800) 7200)
  /\ fromtimestamp (-62135596801) = None
  /\ fromtimestamp 253402293599 = Some (mkDatetime 253402293599 7200)
  /\ fromtimestamp 253402293600 = None
  /\ fromtimestamp 1767304800000 = None.
Proof. repeat split. Qed.

Section SourceAErrors.
Variable int : string -> option Z.

Lemma for_each_raises {A S : Type} (body : S -> A -> option S) (l : list A) : forall s,
  for_each body l s = None <->
  exists before x behind s', l = before ++ x :: behind
                             /\ for_each body before s = Some s' /\ body s' x = None.
Proof.
  induction l as [|x l IH]; intros s.
  - cbn. split; [discriminate|]. intros (before & y & behind & s' & E & _).
    destruct before; discriminate E.
  - rewrite for_each_cons. destruct (body s x) as [s1|] eqn:Eb; cbn [bind].
    + rewrite IH. split.
      * intros (before & y & behind & s' & -> & Ef & En).
        exists (x :: before), y, behind, s'. rewrite for_each_cons, Eb. auto.
      * intros (before & y & behind & s' & E & Ef & En).
        destruct before as [|b before]; cbn in E; injection E as <- ->.
        -- cbn in Ef. injection Ef as <-. congruence.
        -- rewrite for_each_cons, Eb in Ef. cbn [bind] in Ef.
           exists before, y, behind, s'. auto.
    + split; [intros _|reflexivity].
      exists [], x, l, s. auto.
Qed.

Lemma github_step_none fact grp days ts :
  github_step int fact grp days ts = None <->
  has_group fact grp ts = true /\ key_time int ts = None.
Proof.
  unfold github_step, has_group, key_time.
  destruct (group_day fact ts grp) as [d|]; [|split; [discriminate | intros [H _]; discriminate H]].
  destruct (int ts) as [n|]; cbn [bind]; [|tauto].
  destruct (fromtimestamp n); cbn [bind]; split; auto; try discriminate.
  intros [_ H]. discriminate H.
Qed.

Lemma github_group_none fact grp :
  github_group int fact grp = None <->
  (exists ts, In ts (keys fact) /\ int ts = None)
  \/ exists ks ts, earliest_keys int fact = Some ks /\ In ts ks
                   /\ has_group fact grp ts = true /\ key_time int ts = None.
Proof.
  unfold github_group. destruct (earliest_keys int fact) as [ks|] eqn:Ek; cbn [bind].
  - rewrite for_each_raises. split.
    + intros (before & ts & behind & s' & -> & _ & En). right.
      exists (before ++ ts :: behind), ts. apply github_step_none in En.
      split; [reflexivity|]. split; [apply in_or_app; right; now left | exact En].
    + intros [(ts & Hin & En)|(ks' & ts & Eks & Hin & Hg)].
      * exfalso. destruct (earliest_keys_some _ _ _ Ek) as (_ & Hn & _).
        destruct (Hn ts Hin) as (n & E). congruence.
      * injection Eks as <-.
        assert (G : forall acc, for_each (github_step int fact grp) ks acc = None).
        { clear Ek. induction ks as [|k ks IH]; intros acc; [destruct Hin|].
          rewrite for_each_cons.
          destruct (github_step int fact grp acc k) as [s1|] eqn:Es; [|reflexivity].
          cbn [bind]. destruct Hin as [->|Hin]; [|now apply IH].
          exfalso. apply (github_step_none fact grp acc ts) in Hg. congruence. }
        apply for_each_raises. exact (G []).
  - split; [intros _; left; now apply earliest_keys_none | reflexivity].
Qed.

(** X20. [extract_github] raises exactly when the payload is truthy, a group
    is configured and either some day key of the feed is not a number for
    [int] (the sort reads every key), or one of the two earliest keys has a
    payload for a configured group and a timestamp outside the years that
    [datetime.fromtimestamp] accepts in the zone of Kyiv, as a key in
    milliseconds has.  A key of a later day, or of a day without payload
    for the configured groups, is never converted. *)
Theorem extract_github_raises (data : option GithubFact) (grps : list string) :
  extract_github int data grps = None
  <-> exists fact,
        data = Some fact /\ grps <> []
        /\ ((exists ts, In ts (keys fact) /\ int ts = None)
            \/ exists ks grp ts n,
                 earliest_keys int fact = Some ks /\ In grp grps /\ In ts ks
                 /\ has_group fact grp ts = true /\ int ts = Some n
                 /\ (n < MIN_TS \/ MAX_TS - KYIV_TZ < n)%Z).
Proof.
  destruct data as [fact|]; [|split; [discriminate | intros (f & E & _); discriminate E]].
  assert (Hiff : extract_github int (Some fact) grps = None
                 <-> exists grp, In grp grps /\ github_group int fact grp = None).
  { split.
    - unfold extract_github. rewrite for_each_raises.
      intros (before & grp & behind & s' & -> & _ & En). exists grp.
      split; [apply in_or_app; right; now left|].
      destruct (github_group int fact grp); [discriminate En | reflexivity].
    - intros (grp & Hin & En).
      destruct (extract_github int (Some fact) grps) as [res|] eqn:E; [|reflexivity].
      exfalso.
      destruct (proj1 (extract_github_some_iff int fact grps) (ex_intro _ res E) grp Hin)
        as (days & Ed). congruence. }
  rewrite Hiff. split.
  - intros (grp & Hin & En). exists fact. split; [reflexivity|].
    split; [intros ->; destruct Hin|].
    apply github_group_none in En.
    destruct En as [Hk|(ks & ts & Ek & Hts & Hg & Hkt)]; [now left|].
    unfold key_time in Hkt. destruct (int ts) as [n|] eqn:En.
    + right. exists ks, grp, ts, n. cbn [bind] in Hkt. apply fromtimestamp_none in Hkt. auto 8.
    + left. exists ts. split; [|exact En].
      destruct (earliest_keys_some _ _ _ Ek) as (_ & _ & Hsub & _). auto.
  - intros (f & Ef & Hne & Hcase). injection Ef as <-.
    destruct Hcase as [Hk|(ks & grp & ts & n & Ek & Hin & Hts & Hg & En & Hr)].
    + destruct grps as [|g grps]; [congruence|]. exists g. split; [now left|].
      apply github_group_none. now left.
    + exists grp. split; [exact Hin|]. apply github_group_none. right.
      exists ks, ts. repeat split; auto. unfold key_time. rewrite En. cbn [bind].
      now apply fromtimestamp_none.
Qed.
End SourceAErrors.

Lemma extract_github_raises_sample :
  extract_github int_decimal (Some fact_milliseconds) ["GPV1.1"] = None
  /\ extract_github int_decimal (Some fact_not_a_number) ["GPV1.1"] = None
  /\ extract_github int_decimal (Some fact_milliseconds) ["GPV7.7"] = Some [("GPV7.7", [])].
Proof.
  split; [|split; [|reflexivity]].
  - apply (proj2 (extract_github_raises int_decimal (Some fact_milliseconds) ["GPV1.1"])).
    exists fact_milliseconds. split; [reflexivity|]. split; [discriminate|]. right.
    exists ["1767304800000"], "GPV1.1", "1767304800000", 1767304800000%Z.
    split; [reflexivity|]. split; [now left|]. split; [now left|].
    split; [reflexivity|]. split; [reflexivity|]. right. reflexivity.
  - apply (proj2 (extract_github_raises int_decimal (Some fact_not_a_number) ["GPV1.1"])).
    exists fact_not_a_number. split; [reflexivity|]. split; [discriminate|]. left.
    exists "tomorrow". split; [right; now left | reflexivity].
Defined.

Lemma extract_yasno_keys_acc ydata grps : forall acc res,
  for_each
    (fun res grp =>
       let key := replace "GPV" "" grp in
       match get ydata key with
       | None => Some res
       | Some g =>
           days <- for_each yasno_day [today g; tomorrow g] [] ;;
           Some (set res grp days)
       end) grps acc = Some res ->
  forall grp, In grp (keys res) <->
              In grp (keys acc) \/ (In grp grps /\ In (replace "GPV" "" grp) (keys ydata)).
Proof.
  induction grps as [|g0 grps IH]; intros acc res E grp.
  - cbn [for_each] in E. injection E as <-. simpl. tauto.
  - rewrite for_each_cons in E. cbv beta zeta in E. revert E.
    destruct (get ydata (replace "GPV" "" g0)) as [g|] eqn:Eg.
    + destruct (for_each yasno_day [today g; tomorrow g] []) as [days|] eqn:Ed;
        intros E; [|discriminate E].
      cbn [bind] in E. rewrite (IH _ _ E grp), keys_set. simpl.
      assert (Hk : In (replace "GPV" "" g0) (keys ydata)) by (apply In_keys_get; eauto).
      split.
      * intros [[->|H]|[H1 H2]]; auto.
      * intros [H|[[<-|H1] H2]]; auto.
    + intros E. cbn [bind] in E. rewrite (IH _ _ E grp). simpl.
      assert (Hk : ~ In (replace "GPV" "" g0) (keys ydata)).
      { intros H. apply In_keys_get in H. destruct H as [v H]. congruence. }
      split.
      * intros [H|[H1 H2]]; auto.
      * intros [H|[[<-|H1] H2]]; auto. contradiction.
Qed.

(** X7. When [extract_yasno] returns, a group is a key of the result
    exactly when it is configured and the feed has its key, the group name
    with every ["GPV"] removed; unlike Source A, a configured group that the
    feed lacks gets no entry. *)
Theorem extract_yasno_keys (data : option YasnoData) (grps : list string)
        (res : Snapshot) :
  extract_yasno data grps = Some res ->
  forall grp, In grp (keys res) <->
              exists ydata, data = Some ydata /\ In grp grps
                            /\ In (replace "GPV" "" grp) (keys ydata).
Proof.
  destruct data as [ydata|]; unfold extract_yasno; intros E grp.
  - rewrite (extract_yasno_keys_acc ydata grps [] res E grp). simpl. split.
    + intros [[]|[H1 H2]]. exists ydata. auto.
    + intros (y & Ey & H1 & H2). injection Ey as <-. auto.
  - injection E as <-. simpl. split; [tauto|]. intros (y & Ey & _). discriminate.
Qed.

Lemma extract_yasno_keys_sample :
  extract_yasno (Some yasno_sample) ["GPV1.1"; "GPV2.1"]
  = Some [("GPV1.1",
           [ (0%Z, mkDay (Some (repeat true 16 ++ repeat false 4 ++ repeat true 28))
                         (mkDatetime 0 7200) "normal");
             (1%Z, mkDay None (mkDatetime 86400 7200) "pending") ])]
  /\ (In "GPV2.1" ["GPV1.1"]
      <-> exists ydata, Some yasno_sample = Some ydata /\ In "GPV2.1" ["GPV1.1"; "GPV2.1"]
                        /\ In (replace "GPV" "" "GPV2.1") (keys ydata)).
Proof.
  assert (E : extract_yasno (Some yasno_sample) ["GPV1.1"; "GPV2.1"]
              = Some [("GPV1.1",
                       [ (0%Z, mkDay (Some (repeat true 16 ++ repeat false 4 ++ repeat true 28))
                                     (mkDatetime 0 7200) "normal");
                         (1%Z, mkDay None (mkDatetime 86400 7200) "pending") ])])
    by reflexivity.
  split; [exact E|].
  exact (extract_yasno_keys (Some yasno_sample) ["GPV1.1"; "GPV2.1"] _ E "GPV2.1").
Defined.

(** ** The interval loop on any start *)

Lemma raises_dec_spec s : raises_dec s = true <-> raises_index_error s.
Proof.
  unfold raises_dec, raises_index_error. rewrite andb_true_iff, !Z.ltb_lt. tauto.
Qed.

(** One assignment [slots[j] = v] on a day of 48 slots. *)
Lemma setitem_day (tl : list bool) (j : Z) v :
  length tl = 48%nat -> (-48 <= j < 48)%Z ->
  exists tl', setitem tl j v = Some tl' /\ length tl' = 48%nat
    /\ forall i, (i < 48)%nat ->
         nth_error tl' i
         = if ((Z.of_nat i =? j) || (Z.of_nat i - 48 =? j))%Z then Some v
           else nth_error tl i.
Proof.
  intros Hl Hj. unfold setitem. rewrite Hl.
  destruct (Z.leb_spec 0 j), (Z.ltb_spec j (Z.of_nat 48)); cbn [andb]; try lia.
  - eexists. split; [reflexivity|]. split; [now rewrite update_nth_length|].
    intros i Hi. rewrite nth_error_update_nth, Hl.
    destruct (Nat.eqb_spec i (Z.to_nat j)), (Z.eqb_spec (Z.of_nat i) j),
      (Z.eqb_spec (Z.of_nat i - 48) j); cbn [orb]; try lia; try reflexivity.
    destruct (Nat.ltb_spec (Z.to_nat j) 48); [reflexivity | lia].
  - destruct (Z.leb_spec (- Z.of_nat 48) j), (Z.ltb_spec j 0); cbn [andb]; try lia.
    eexists. split; [reflexivity|]. split; [now rewrite update_nth_length|].
    intros i Hi. rewrite nth_error_update_nth, Hl.
    destruct (Nat.eqb_spec i (Z.to_nat (Z.of_nat 48 + j))), (Z.eqb_spec (Z.of_nat i) j),
      (Z.eqb_spec (Z.of_nat i - 48) j); cbn [orb]; try lia; try reflexivity.
    destruct (Nat.ltb_spec (Z.to_nat (Z.of_nat 48 + j)) 48); [reflexivity | lia].
Qed.

(** The loop over [range(a, a + n)] on a day, all indices from -48 on. *)
Lemma for_each_setitem_day v n : forall (a : Z) (tl : list bool),
  length tl = 48%nat -> (-48 <= a)%Z -> (a + Z.of_nat n <= 48)%Z ->
  exists tl',
    for_each (fun sl i => setitem sl i v) (map (fun k => (a + Z.of_nat k)%Z) (seq 0 n)) tl
    = Some tl'
    /\ length tl' = 48%nat
    /\ forall i, (i < 48)%nat ->
         nth_error tl' i
         = if (((a <=? Z.of_nat i) && (Z.of_nat i <? a + Z.of_nat n))
               || ((a <=? Z.of_nat i - 48) && (Z.of_nat i - 48 <? a + Z.of_nat n)))%Z
           then Some v else nth_error tl i.
Proof.
  induction n as [|n IH]; intros a tl Hl Ha Hn.
  - exists tl. split; [reflexivity|]. split; [exact Hl|]. intros i Hi.
    destruct (Z.leb_spec a (Z.of_nat i)), (Z.ltb_spec (Z.of_nat i) (a + Z.of_nat 0)),
      (Z.leb_spec a (Z.of_nat i - 48)), (Z.ltb_spec (Z.of_nat i - 48) (a + Z.of_nat 0));
      cbn [andb orb]; try reflexivity; lia.
  - change (seq 0 (S n)) with (0%nat :: seq 1 n). rewrite <- seq_shift.
    cbn [map]. rewrite map_map, for_each_cons.
    change (Z.of_nat 0) with 0%Z. rewrite Z.add_0_r.
    destruct (setitem_day tl a v Hl ltac:(lia)) as (t1 & E1 & L1 & N1).
    rewrite E1. cbn [bind].
    rewrite (map_ext _ (fun k => (a + 1 + Z.of_nat k)%Z)) by (intros; lia).
    destruct (IH (a + 1)%Z t1 L1 ltac:(lia) ltac:(lia)) as (t2 & E2 & L2 & N2).
    exists t2. split; [exact E2|]. split; [exact L2|].
    intros i Hi. rewrite (N2 i Hi), (N1 i Hi).
    destruct (Z.leb_spec (a + 1) (Z.of_nat i)), (Z.ltb_spec (Z.of_nat i) (a + 1 + Z.of_nat n)),
      (Z.leb_spec (a + 1) (Z.of_nat i - 48)),
      (Z.ltb_spec (Z.of_nat i - 48) (a + 1 + Z.of_nat n)),
      (Z.leb_spec a (Z.of_nat i)), (Z.ltb_spec (Z.of_nat i) (a + Z.of_nat (S n))),
      (Z.leb_spec a (Z.of_nat i - 48)), (Z.ltb_spec (Z.of_nat i - 48) (a + Z.of_nat (S n))),
      (Z.eqb_spec (Z.of_nat i) a), (Z.eqb_spec (Z.of_nat i - 48) a);
      cbn [andb orb]; try reflexivity; lia.
Qed.

(** One interval on a day: it raises, or paints the slots it writes. *)
Lemma paint_interval_day tl s :
  length tl = 48%nat ->
  if raises_dec s then paint_interval tl s = None
  else exists tl', paint_interval tl s = Some tl' /\ length tl' = 48%nat
         /\ forall i, (i < 48)%nat ->
              nth_error tl' i
              = if writes_slot s i then Some (interval_on s) else nth_error tl i.
Proof.
  intros Hl. unfold raises_dec, paint_interval, range, writes_slot, interval_on.
  set (a := (get0 (i_start s) / 30)%Z). set (e := Z.min (get0 (i_end s) / 30) 48).
  set (v := option_eqb String.eqb (i_type s) (Some "NotPlanned")).
  destruct (Z.ltb_spec a (-48)), (Z.ltb_spec a e); cbn [andb].
  - destruct (Z.to_nat (e - a)) as [|n] eqn:En; [lia|].
    change (seq 0 (S n)) with (0%nat :: seq 1 n). cbn [map]. rewrite for_each_cons.
    unfold setitem. rewrite Hl.
    destruct (Z.leb_spec 0 (a + Z.of_nat 0)), (Z.ltb_spec (a + Z.of_nat 0) (Z.of_nat 48)),
      (Z.leb_spec (- Z.of_nat 48) (a + Z.of_nat 0)), (Z.ltb_spec (a + Z.of_nat 0) 0);
      cbn [andb]; try reflexivity; lia.
  - replace (Z.to_nat (e - a)) with 0%nat by lia. exists tl.
    split; [reflexivity|]. split; [exact Hl|]. intros i Hi.
    destruct (Z.leb_spec a (Z.of_nat i)), (Z.ltb_spec (Z.of_nat i) e),
      (Z.leb_spec a (Z.of_nat i - 48)), (Z.ltb_spec (Z.of_nat i - 48) e);
      cbn [andb orb]; try reflexivity; lia.
  - destruct (for_each_setitem_day v (Z.to_nat (e - a)) a tl Hl ltac:(lia) ltac:(lia))
      as (tl' & E & L & N).
    exists tl'. split; [exact E|]. split; [exact L|]. intros i Hi. rewrite (N i Hi).
    replace (a + Z.of_nat (Z.to_nat (e - a)))%Z with e by lia. reflexivity.
  - replace (Z.to_nat (e - a)) with 0%nat by lia. exists tl.
    split; [reflexivity|]. split; [exact Hl|]. intros i Hi.
    destruct (Z.leb_spec a (Z.of_nat i)), (Z.ltb_spec (Z.of_nat i) e),
      (Z.leb_spec a (Z.of_nat i - 48)), (Z.ltb_spec (Z.of_nat i - 48) e);
      cbn [andb orb]; try reflexivity; lia.
Qed.

Lemma yasno_timeline_day intervals : forall tl,
  length tl = 48%nat ->
  (for_each paint_interval intervals tl = None <-> Exists raises_index_error intervals)
  /\ (forall tl', for_each paint_interval intervals tl = Some tl' ->
        forall i, (i < 48)%nat ->
          nth_error tl' i
          = option_map
              (fun x => fold_left (fun v s => if writes_slot s i then interval_on s else v)
                                  intervals x) (nth_error tl i)).
Proof.
  induction intervals as [|s l IH]; intros tl Hl.
  - split.
    + split; [discriminate | intros H; inversion H].
    + intros tl' E i Hi. injection E as <-. simpl. now destruct (nth_error tl i).
  - rewrite for_each_cons. pose proof (paint_interval_day tl s Hl) as Hp.
    destruct (raises_dec s) eqn:Er.
    + rewrite Hp. cbn [bind]. split.
      * split; [intros _; left; now apply raises_dec_spec | reflexivity].
      * discriminate.
    + destruct Hp as (t1 & E1 & L1 & N1). rewrite E1. cbn [bind].
      destruct (IH t1 L1) as [IHn IHs]. split.
      * rewrite IHn. split; [now right|].
        intros H. inversion H as [? ? Hs|]; subst; [|assumption].
        apply raises_dec_spec in Hs. congruence.
      * intros tl' E i Hi. rewrite (IHs tl' E i Hi), (N1 i Hi). cbn [fold_left].
        destruct (nth_error tl i) as [x|] eqn:Ex.
        -- now destruct (writes_slot s i).
        -- apply nth_error_None in Ex. lia.
Qed.

(** X8. The interval loop of [extract_yasno] raises [IndexError] exactly
    when some interval starts more than 48 slots before the day (start
    minute below -1440) and its range is not empty; in every other case it
    returns a timeline. *)
Theorem yasno_timeline_index_error (intervals : list Interval) :
  yasno_timeline intervals = None <-> Exists raises_index_error intervals.
Proof.
  unfold yasno_timeline. apply yasno_timeline_day. apply repeat_length.
Qed.

(** X9. When the interval loop returns, slot [i] of the timeline holds the
    value of the last interval, in input order, whose loop writes it, and
    [on] when none does.  An interval writes the slots of
    [[start, min(end, 48))] and, for a negative start, also the slots that
    the negative indices of that range reach from the end of the day. *)
Theorem yasno_timeline_last_write (intervals : list Interval) (tl : list bool) (i : nat) :
  yasno_timeline intervals = Some tl -> (i < 48)%nat ->
  nth_error tl i = Some (last_write intervals i).
Proof.
  unfold yasno_timeline, last_write. intros E Hi.
  destruct (yasno_timeline_day intervals (repeat true 48) (repeat_length _ _)) as [_ H].
  rewrite (H tl E i Hi), nth_error_repeat by exact Hi. reflexivity.
Qed.

Lemma yasno_timeline_last_write_sample :
  yasno_timeline sample_intervals = Some (repeat true 16 ++ repeat false 4 ++ repeat true 28)
  /\ (21 < 48)%nat
  /\ nth_error (repeat true 16 ++ repeat false 4 ++ repeat true 28) 21
     = Some (last_write sample_intervals 21)
  /\ yasno_timeline [interval_before_midnight] = Some (repeat true 47 ++ [false])
  /\ (47 < 48)%nat
  /\ nth_error (repeat true 47 ++ [false]) 47
     = Some (last_write [interval_before_midnight] 47).
Proof.
  assert (E1 : yasno_timeline sample_intervals
               = Some (repeat true 16 ++ repeat false 4 ++ repeat true 28)) by reflexivity.
  assert (E2 : yasno_timeline [interval_before_midnight] = Some (repeat true 47 ++ [false]))
    by reflexivity.
  assert (H21 : (21 < 48)%nat) by lia.
  assert (H47 : (47 < 48)%nat) by lia.
  split; [exact E1|]. split; [exact H21|].
  split; [exact (yasno_timeline_last_write sample_intervals _ 21 E1 H21)|].
  split; [exact E2|]. split; [exact H47|].
  exact (yasno_timeline_last_write [interval_before_midnight] _ 47 E2 H47).
Defined.

Lemma yasno_timeline_index_error_sample :
  Exists raises_index_error [mkInterval (Some (-1500)%Z) (Some 0%Z) None]
  /\ yasno_timeline [mkInterval (Some (-1500)%Z) (Some 0%Z) None] = None.
Proof.
  assert (H : Exists raises_index_error [mkInterval (Some (-1500)%Z) (Some 0%Z) None])
    by (left; split; reflexivity).
  split; [exact H|]. exact (proj2 (yasno_timeline_index_error _) H).
Defined.

(* ================================================================== *)
(** * Further properties of the merger *)
(* ================================================================== *)

(** The order of texts, as [sorted] uses it. *)
Lemma string_leb_trans (a b c : string) :
  (a <=? b)%string = true -> (b <=? c)%string = true -> (a <=? c)%string = true.
Proof.
  unfold String.leb. revert b c.
  induction a as [|x a IH]; intros [|y b] [|z c]; simpl; try easy.
  unfold Ascii.compare.
  destruct (N.compare_spec (N_of_ascii x) (N_of_ascii y)) as [Exy|Hxy|Hxy];
    destruct (N.compare_spec (N_of_ascii y) (N_of_ascii z)) as [Eyz|Hyz|Hyz];
    destruct (N.compare_spec (N_of_ascii x) (N_of_ascii z)) as [Exz|Hxz|Hxz];
    try easy; try lia.
  apply IH.
Qed.

Lemma string_ltb_leb (a b : string) : (b <? a)%string = false <-> (a <=? b)%string = true.
Proof.
  unfold String.ltb, String.leb. rewrite (String.compare_antisym a b).
  destruct (String.compare b a); simpl; split; congruence.
Qed.

Lemma string_ltb_asym (a b : string) : (a <? b)%string = true -> (b <? a)%string = false.
Proof.
  unfold String.ltb. rewrite (String.compare_antisym a b).
  destruct (String.compare b a); simpl; congruence.
Qed.

Lemma group_dates_In padded_year gh ya grp d_str :
  In d_str (group_dates padded_year gh ya grp) <->
  (exists day, day_of gh grp d_str = Some day) \/ (exists day, day_of ya grp d_str = Some day).
Proof.
  unfold group_dates, day_of.
  rewrite <- (Permutation_in' eq_refl (sorted_perm _ _)) by reflexivity.
  rewrite nodup_In, in_app_iff.
  destruct (get gh grp) as [dg|], (get ya grp) as [dy|]; rewrite ?In_keys_get; simpl;
    split; intros [H|H]; auto; try contradiction; destruct H; discriminate.
Qed.

(** X10. The dates the merger walks for a group are the dates under which
    either source has a day for it, each once, in the ascending order of
    their texts ["%Y-%m-%d"]: every date stands before the dates whose text
    is greater or equal as a string.  Where the platform does not pad the
    year this is not the order of the days (see [group_dates_text_order]). *)
Theorem group_dates_spec (padded_year : bool) (gh ya : Snapshot) (grp : string) :
  NoDup (group_dates padded_year gh ya grp)
  /\ StronglySorted
       (fun a b => (date_text padded_year a <=? date_text padded_year b)%string = true)
       (group_dates padded_year gh ya grp)
  /\ forall d_str, In d_str (group_dates padded_year gh ya grp) <->
       (exists day, day_of gh grp d_str = Some day)
       \/ (exists day, day_of ya grp d_str = Some day).
Proof.
  split; [|split; [|apply group_dates_In]].
  - unfold group_dates. eapply Permutation_NoDup; [apply sorted_perm | apply NoDup_nodup].
  - unfold group_dates.
    set (lt := fun a b => (date_text padded_year a <? date_text padded_year b)%string).
    assert (Hs : StronglySorted (fun a b => lt b a = false)
                   (sorted lt (nodup Z.eq_dec
                      ((match get gh grp with Some days => keys days | None => [] end)
                       ++ (match get ya grp with Some days => keys days | None => [] end))))).
    { apply sorted_StronglySorted; unfold lt.
      - intros x y. apply string_ltb_asym.
      - intros x y z. rewrite !string_ltb_leb. apply string_leb_trans. }
    revert Hs. generalize (sorted lt (nodup Z.eq_dec
      ((match get gh grp with Some days => keys days | None => [] end)
       ++ (match get ya grp with Some days => keys days | None => [] end)))) as l.
    intros l Hs. induction Hs as [|a l Hl IH Hall]; constructor; [exact IH|].
    rewrite Forall_forall in *. intros b Hb. apply string_ltb_leb, Hall, Hb.
Qed.

(** Two days of the years 999 and 1000 where the year is not padded: the
    later day comes first. *)
Example group_dates_text_order :
  let early := (-354650)%Z in
  let late := (-354285)%Z in
  let gh := [("GPV1.1", [ (early, mkDay None (mkDatetime (early * 86400) 0) "pending");
                          (late, mkDay None (mkDatetime (late * 86400) 0) "pending") ])] in
  date_text false early = "999-01-01" /\ date_text false late = "1000-01-01"
  /\ group_dates false gh [] "GPV1.1" = [late; early]
  /\ group_dates true gh [] "GPV1.1" = [early; late].
Proof. vm_compute. repeat split. Qed.

Section MergerFacts.
Variable cfg : Config.
Variable padded_year : bool.
Variable format_day : DaySchedule -> datetime -> string -> string.
Variable header_of : string -> string.
Variable footer : string.

(** The list [src_msgs] of a date that one of the sources has is not empty,
    and joined it is the entry of the date. *)
Lemma day_sources_merged g_d y_d :
  (exists day, g_d = Some day) \/ (exists day, y_d = Some day) ->
  exists m ms,
    day_sources cfg format_day g_d y_d = Some (m :: ms)
    /\ merged_entry cfg format_day g_d y_d
         (String.concat (nl ++ separator_source cfg ++ nl)%string (m :: ms)).
Proof.
  intros H. unfold day_sources.
  destruct g_d as [g|]; [|destruct y_d as [y|]].
  - cbn [bind]. destruct (is_match (Some g) y_d) eqn:Em; cbn [bind].
    + eexists _, _. split; [reflexivity|].
      pose proof (proj1 (is_match_iff _ _) Em) as Hm.
      assert (Hy : exists y, y_d = Some y).
      { destruct Hm as (g' & y' & _ & Ey & _). eauto. }
      destruct Hy as (y & ->).
      unfold merged_entry. cbv zeta. cbn [String.concat].
      split; [|split; [|split; [|split]]].
      * intros _. exists g. split; [reflexivity|]. f_equal.
        cbn [append]. f_equal. now rewrite !append_assoc.
      * intros Hn. contradiction.
      * intros g' _ Ey. discriminate Ey.
      * intros y' Eg. discriminate Eg.
      * intros g' y' tg ty Eg Ey Hg Hy Hd. injection Eg as <-. injection Ey as <-.
        exfalso. exact (differ_not_match _ _ _ _ Hg Hy Hd Hm).
    + assert (Hn : ~ sources_match (Some g) y_d).
      { intros Hm. apply is_match_iff in Hm. congruence. }
      destruct y_d as [y|]; cbn [app]; eexists _, _; (split; [reflexivity|]);
        unfold merged_entry; cbv zeta;
        (split; [|split; [|split; [|split]]]); try (intros; contradiction);
        try (intros; discriminate).
      * intros _ g' y' Eg Ey. injection Eg as <-. injection Ey as <-. reflexivity.
      * intros g' y' tg ty Eg Ey _ _ _. injection Eg as <-. injection Ey as <-. reflexivity.
      * intros g' Eg _. injection Eg as <-. reflexivity.
  - cbn [bind]. simpl. eexists _, _. split; [reflexivity|].
    unfold merged_entry. cbv zeta.
    split; [|split; [|split; [|split]]]; try (intros; discriminate).
    + intros (g' & y' & Eg & _). discriminate Eg.
    + intros y' _ Ey. injection Ey as <-. reflexivity.
  - exfalso. destruct H as [[? H]|[? H]]; discriminate.
Qed.

Lemma group_days_dates gh ya grp (dates : list Z) : forall day_msgs,
  (forall d_str, In d_str dates -> In d_str (group_dates padded_year gh ya grp)) ->
  exists more,
    for_each
      (fun day_msgs d_str =>
         src_msgs <- day_sources cfg format_day (day_of gh grp d_str) (day_of ya grp d_str) ;;
         match src_msgs with
         | [] => Some day_msgs
         | _ => Some (day_msgs
                      ++ [String.concat (nl ++ separator_source cfg ++ nl)%string src_msgs])
         end) dates day_msgs = Some (day_msgs ++ more)
    /\ Forall2 (fun d_str day_msg =>
                  merged_entry cfg format_day (day_of gh grp d_str) (day_of ya grp d_str)
                               day_msg) dates more.
Proof.
  induction dates as [|d dates IH]; intros day_msgs Hin.
  - exists []. rewrite app_nil_r. split; [reflexivity | constructor].
  - rewrite for_each_cons.
    destruct (day_sources_merged (day_of gh grp d) (day_of ya grp d)) as (m & ms & E & Hm).
    { apply group_dates_In with (padded_year := padded_year), Hin. now left. }
    rewrite E. cbn [bind].
    destruct (IH (day_msgs ++ [String.concat (nl ++ separator_source cfg ++ nl)%string (m :: ms)]))
      as (more & Em & Fm).
    { intros d' Hd'. apply Hin. now right. }
    rewrite Em. eexists. rewrite <- app_assoc. split; [reflexivity|].
    constructor; [exact Hm | exact Fm].
Qed.

(** The list [day_msgs] of a group: one entry for each of its first two
    dates. *)
Lemma group_days_merged gh ya grp :
  exists day_msgs,
    group_days cfg padded_year format_day gh ya grp = Some day_msgs
    /\ Forall2 (fun d_str day_msg =>
                  merged_entry cfg format_day (day_of gh grp d_str) (day_of ya grp d_str)
                               day_msg)
               (firstn 2 (group_dates padded_year gh ya grp)) day_msgs.
Proof.
  unfold group_days.
  destruct (group_days_dates gh ya grp (firstn 2 (group_dates padded_year gh ya grp)) [])
    as (more & E & F).
  { intros d Hd. rewrite <- (firstn_skipn 2 (group_dates padded_year gh ya grp)).
    apply in_or_app. now left. }
  exists more. rewrite E. auto.
Qed.

(** The loop over the groups: one block for every group that has a date. *)
Lemma format_msg_loop gh ya (grps : list string) : forall blocks,
  exists more,
    for_each
      (fun blocks grp =>
         let grp_num := replace "GPV" "" grp in
         let header := header_of grp_num in
         match group_dates padded_year gh ya grp with
         | [] => Some blocks
         | _ =>
             day_msgs <- group_days cfg padded_year format_day gh ya grp ;;
             match day_msgs with
             | [] => Some blocks
             | _ =>
                 let body := String.concat (nl ++ separator_day cfg ++ nl)%string day_msgs in
                 Some (blocks ++ [(header ++ nl ++ body)%string])
             end
         end) grps blocks = Some (blocks ++ more)
    /\ Forall2 (merged_block cfg padded_year format_day header_of gh ya)
               (filter (has_dates padded_year gh ya) grps) more.
Proof.
  induction grps as [|g grps IH]; intros blocks.
  - exists []. rewrite app_nil_r. split; [reflexivity | constructor].
  - rewrite for_each_cons. cbv beta zeta. cbv beta zeta in IH. cbn [filter].
    unfold has_dates at 1.
    destruct (group_dates padded_year gh ya g) as [|d ds] eqn:Ed.
    + cbn [bind]. apply IH.
    + destruct (group_days_merged gh ya g) as (dm & Edm & Fdm). rewrite Edm. cbn [bind].
      rewrite Ed in Fdm. destruct dm as [|m dm]; [inversion Fdm|].
      cbv beta iota. cbn [bind].
      match goal with |- context [for_each _ grps (blocks ++ [?b])] =>
        destruct (IH (blocks ++ [b])) as (more & Em & Fm); rewrite Em end.
      eexists. rewrite <- app_assoc. split; [reflexivity|].
      constructor; [|exact Fm].
      exists (m :: dm). split; [reflexivity|]. rewrite Ed. exact Fdm.
Qed.

(** The blocks of a message do not depend on the footer. *)
Lemma format_msg_blocks gh ya :
  exists blocks,
    Forall2 (merged_block cfg padded_year format_day header_of gh ya)
            (filter (has_dates padded_year gh ya) (groups cfg)) blocks
    /\ forall footer' : string,
         format_msg cfg padded_year format_day header_of footer' gh ya
         = Some (match blocks with
                 | [] => None
                 | _ => Some (String.concat (nl ++ nl ++ nl) blocks ++ footer')%string
                 end).
Proof.
  destruct (format_msg_loop gh ya (groups cfg) []) as (more & E & F).
  exists more. split; [exact F|]. intros footer'. unfold format_msg.
  cbv beta zeta in E. cbv beta zeta. rewrite E. cbn [bind app].
  destruct more; reflexivity.
Qed.

(** A message with a block is not the empty text. *)
Lemma blocks_text gh ya grps blocks footer' :
  Forall2 (merged_block cfg padded_year format_day header_of gh ya) grps blocks ->
  blocks <> [] ->
  (String.concat (nl ++ nl ++ nl) blocks ++ footer')%string <> ""%string.
Proof.
  assert (Hempty : forall a b : string, (a ++ b)%string = ""%string -> a = ""%string)
    by (intros [|c a] b E; [reflexivity | discriminate E]).
  intros F Hne E. apply Hempty in E.
  destruct F as [|grp b grps' bs (day_msgs & Eb & _) F']; [congruence|].
  assert (Hb : b = ""%string).
  { destruct bs as [|b' bs]; cbn [String.concat] in E; [exact E | now apply Hempty in E]. }
  rewrite Hb in Eb. symmetry in Eb. destruct (header_of (replace "GPV" "" grp)); discriminate Eb.
Qed.

Lemma format_msg_total gh ya :
  exists r, format_msg cfg padded_year format_day header_of footer gh ya = Some r.
Proof.
  destruct (format_msg_blocks gh ya) as (blocks & _ & E). eexists. apply E.
Qed.

(** Without a date in any group there is no message. *)
Lemma format_msg_no_dates gh ya :
  (forall grp, In grp (groups cfg) -> group_dates padded_year gh ya grp = []) ->
  format_msg cfg padded_year format_day header_of footer gh ya = Some None.
Proof.
  intros Hall. destruct (format_msg_blocks gh ya) as (blocks & F & E). rewrite (E footer).
  assert (G : forall l, (forall grp, In grp l -> group_dates padded_year gh ya grp = []) ->
              filter (has_dates padded_year gh ya) l = []).
  { induction l as [|g l IHl]; intros Hl; [reflexivity|]. simpl. unfold has_dates at 1.
    rewrite (Hl g (or_introl eq_refl)). apply IHl. intros grp Hg. apply Hl. now right. }
  rewrite (G _ Hall) in F. inversion F. reflexivity.
Qed.

Lemma format_msg_empty :
  format_msg cfg padded_year format_day header_of footer [] [] = Some None.
Proof. apply format_msg_no_dates. reflexivity. Qed.

(** C3. In the merger a match holds if and only if both source days are
    present, both have status [normal] and their timelines are element-wise
    identical; two timelines that differ in exactly one slot never match.
    The message [format_msg] returns is built on that test: it has one block
    for every configured group that has a date, in the order of the
    configuration, and the block holds one entry for each of the first two
    dates of the group; the entry of a date is the single rendering with
    the label of both sources when the two days of that group and date
    match, and otherwise the rendering of each source that is present,
    source A before source B. *)
Theorem merge_exactness (gh ya : Snapshot) :
  (forall g_d y_d, is_match g_d y_d = true <-> sources_match g_d y_d)
  /\ (forall g y tg ty,
        slots g = Some tg -> slots y = Some ty -> differ_in_one_slot tg ty ->
        is_match (Some g) (Some y) = false)
  /\ exists blocks,
       Forall2 (merged_block cfg padded_year format_day header_of gh ya)
               (filter (has_dates padded_year gh ya) (groups cfg)) blocks
       /\ format_msg cfg padded_year format_day header_of footer gh ya
          = Some (match blocks with
                  | [] => None
                  | _ => Some (String.concat (nl ++ nl ++ nl) blocks ++ footer)%string
                  end).
Proof.
  split; [apply is_match_iff|]. split.
  2:{ destruct (format_msg_blocks gh ya) as (blocks & F & E).
      exists blocks. split; [exact F | apply E]. }
  intros g y tg ty Hg Hy Hd.
  destruct (is_match (Some g) (Some y)) eqn:E; [|reflexivity].
  apply is_match_iff in E. exfalso. exact (differ_not_match _ _ _ _ Hg Hy Hd E).
Qed.

(** X11. [format_msg] never raises: the lookup [(g_d or y_d)["date"]] is
    only reached for dates that one of the sources has.  It returns [None]
    when no configured group has a date in either source, and a message as
    soon as one has. *)
Theorem format_msg_result (gh ya : Snapshot) :
  ((forall grp, In grp (groups cfg) -> group_dates padded_year gh ya grp = []) ->
   format_msg cfg padded_year format_day header_of footer gh ya = Some None)
  /\ ((exists grp, In grp (groups cfg) /\ group_dates padded_year gh ya grp <> []) ->
      exists msg,
        format_msg cfg padded_year format_day header_of footer gh ya = Some (Some msg)).
Proof.
  split; [apply format_msg_no_dates|].
  destruct (format_msg_blocks gh ya) as (blocks & F & E). rewrite (E footer).
  apply Forall2_length in F.
  - intros (grp & Hin & Hne). destruct blocks as [|b blocks]; [|eauto]. exfalso.
    assert (Hf : In grp (filter (has_dates padded_year gh ya) (groups cfg))).
    { apply filter_In. split; [exact Hin|]. unfold has_dates.
      destruct (group_dates padded_year gh ya grp); congruence. }
    destruct (filter _ (groups cfg)); [destruct Hf | discriminate].
Qed.
End MergerFacts.

Lemma merge_exactness_sample :
  differ_in_one_slot sample_timeline (flip_slot 20 sample_timeline)
  /\ is_match (day_of snapshot_a "GPV1.1" 1) (day_of snapshot_b "GPV1.1" 1) = false
  /\ exists blocks,
       Forall2 (merged_block sample_cfg false sample_format_day sample_header
                             snapshot_a snapshot_b)
               (filter (has_dates false snapshot_a snapshot_b) (groups sample_cfg)) blocks
       /\ format_msg sample_cfg false sample_format_day sample_header "."
                     snapshot_a snapshot_b
          = Some (match blocks with
                  | [] => None
                  | _ => Some (String.concat (nl ++ nl ++ nl) blocks ++ ".")%string
                  end).
Proof.
  assert (Hd : differ_in_one_slot sample_timeline (flip_slot 20 sample_timeline)).
  { split; [reflexivity|]. exists 20%nat. split; [vm_compute; lia|].
    split; [discriminate|]. intros j Hj.
    do 48 (destruct j as [|j]; [try reflexivity; congruence|]).
    reflexivity. }
  destruct (merge_exactness sample_cfg false sample_format_day sample_header "."
              snapshot_a snapshot_b) as (_ & Hone & Hmsg).
  split; [exact Hd|]. split; [|exact Hmsg].
  exact (Hone (mkDay (Some sample_timeline) (mkDatetime 86400 7200) "normal")
              (mkDay (Some (flip_slot 20 sample_timeline)) (mkDatetime 86400 10800) "normal")
              _ _ eq_refl eq_refl Hd).
Defined.

(** The message of the two snapshots that differ in one slot: both sources,
    source A first. *)
Example merge_sample :
  format_msg sample_cfg false sample_format_day sample_header "." snapshot_a snapshot_b
  = Some (Some ("Group 1.1" ++ nl ++ "github" ++ nl ++ "--" ++ nl ++ "yasno" ++ ".")%string).
Proof. reflexivity. Qed.

Lemma format_msg_result_sample :
  (forall grp, In grp (groups sample_cfg) -> group_dates false [("GPV9.9", [])] [] grp = [])
  /\ format_msg sample_cfg false sample_format_day sample_header "."
                [("GPV9.9", [])] [] = Some None
  /\ (exists grp, In grp (groups sample_cfg)
                  /\ group_dates false sample_snapshot [] grp <> [])
  /\ (exists msg, format_msg sample_cfg false sample_format_day sample_header "."
                             sample_snapshot [] = Some (Some msg)).
Proof.
  assert (H1 : forall grp, In grp (groups sample_cfg) ->
             group_dates false [("GPV9.9", [])] [] grp = [])
    by (intros grp [<-|[]]; reflexivity).
  assert (H2 : exists grp, In grp (groups sample_cfg)
                           /\ group_dates false sample_snapshot [] grp <> [])
    by (exists "GPV1.1"; split; [left; reflexivity | discriminate]).
  split; [exact H1|]. split.
  - exact (proj1 (format_msg_result sample_cfg false sample_format_day sample_header "."
                    [("GPV9.9", [])] []) H1).
  - split; [exact H2|].
    exact (proj2 (format_msg_result sample_cfg false sample_format_day sample_header "."
                    sample_snapshot []) H2).
Defined.

(** The message of the sample snapshot with the stand-in renderer. *)
Example format_msg_sample :
  format_msg sample_cfg false sample_format_day sample_header "."
             sample_snapshot sample_snapshot
  = Some (Some ("Group 1.1" ++ nl ++ "github" ++ nl ++ "==" ++ nl
                ++ "github" ++ nl ++ "--" ++ nl ++ "yasno" ++ ".")%string).
Proof. reflexivity. Qed.

(* ================================================================== *)
(** * Further properties of the change detector *)
(* ================================================================== *)

(** X12. For caches with distinct keys the test [a == b] holds exactly when
    both hold the same sources, under each source the same groups, under
    each group the same dates, and under each date the same status and
    slots: any added or missing key and any changed day is a change. *)
Theorem cache_eqb_extensional (a b : CacheState) :
  wf_cache a -> wf_cache b -> (cache_eqb a b = true <-> cache_sim a b).
Proof.
  intros [Wa Va] [Wb Vb]. unfold cache_eqb, cache_sim.
  apply dict_eqb_sim; [exact Wa | exact Wb|].
  intros gs gs' Hg Hg'. rewrite Forall_forall in Va, Vb.
  destruct (Va gs Hg) as [Wg Vg]. destruct (Vb gs' Hg') as [Wg' Vg'].
  apply dict_eqb_sim; [exact Wg | exact Wg'|].
  intros ds ds' Hd Hd'. rewrite Forall_forall in Vg, Vg'.
  apply dict_eqb_sim; [exact (Vg ds Hd) | exact (Vg' ds' Hd')|].
  intros x y _ _. apply cacheday_eqb_eq.
Qed.

Lemma sample_old_cache_wf : wf_cache sample_old_cache.
Proof.
  split; [repeat constructor; simpl; intuition discriminate|].
  repeat constructor; simpl; intuition discriminate.
Defined.

Lemma cache_eqb_extensional_sample :
  wf_cache default_cache /\ wf_cache sample_old_cache
  /\ (cache_eqb default_cache sample_old_cache = true
      <-> cache_sim default_cache sample_old_cache).
Proof.
  assert (Hd : wf_cache default_cache).
  { split; [repeat constructor; simpl; intuition discriminate|].
    repeat constructor; simpl; intuition discriminate. }
  split; [exact Hd|]. split; [exact sample_old_cache_wf|].
  exact (cache_eqb_extensional default_cache sample_old_cache Hd sample_old_cache_wf).
Defined.

Lemma cache_eqb_refl (c : CacheState) : wf_cache c -> cache_eqb c c = true.
Proof.
  intros [Wc Vc]. unfold cache_eqb.
  apply (dict_eqb_sim _ (dict_sim (dict_sim eq))); [exact Wc | exact Wc | |].
  - intros gs gs' Hg Hg'. rewrite Forall_forall in Vc.
    destruct (Vc gs Hg) as [Wg Vg]. destruct (Vc gs' Hg') as [Wg' Vg'].
    apply dict_eqb_sim; [exact Wg | exact Wg'|].
    intros ds ds' Hd Hd'. rewrite Forall_forall in Vg, Vg'.
    apply dict_eqb_sim; [exact (Vg ds Hd) | exact (Vg' ds' Hd')|].
    intros x y _ _. apply cacheday_eqb_eq.
  - apply dict_sim_refl. intros gs. apply dict_sim_refl. intros ds.
    apply dict_sim_refl. reflexivity.
Qed.

(** X13. For a snapshot with distinct keys [serialize] keeps the groups in
    order and, under every group and date, stores the status and the slots
    of the snapshot's day, dropping only its [date]. *)
Theorem serialize_lookup (s : Snapshot) (grp : string) (d_str : Z) :
  wf_snapshot s ->
  keys (serialize s) = keys s
  /\ (ds <- get (serialize s) grp ;; get ds d_str) = option_map strip_day (day_of s grp d_str).
Proof.
  intros [Ws Vs]. unfold serialize.
  set (F := fun d : dict Z DaySchedule =>
              fold_left (fun c kv => set c (fst kv)
                           (mkCacheDay (status (snd kv)) (slots (snd kv)))) d []).
  change (fold_left _ s []) with (fold_left (fun r gd => set r (fst gd) (F (snd gd))) s []).
  rewrite (fold_set_map F s []) by exact Ws.
  cbn [app]. split.
  - unfold keys. rewrite map_map. reflexivity.
  - rewrite (get_map_values F s grp). unfold day_of.
    destruct (get s grp) as [days|] eqn:Eg; [|reflexivity]. cbn [option_map bind].
    unfold F. change (fold_left _ days []) with
      (fold_left (fun c kv => set c (fst kv) (strip_day (snd kv))) days []).
    rewrite (fold_set_map strip_day days []).
    + cbn [app]. apply get_map_values.
    + apply (values_In wf s grp days Vs). now apply get_In.
Qed.

Lemma serialize_lookup_sample :
  wf_snapshot sample_snapshot
  /\ (ds <- get (serialize sample_snapshot) "GPV1.1" ;; get ds 1%Z)
     = option_map strip_day (day_of sample_snapshot "GPV1.1" 1).
Proof.
  assert (Hw : wf_snapshot sample_snapshot).
  { split; [repeat constructor; simpl; intuition discriminate|].
    repeat constructor; simpl; intuition discriminate. }
  split; [exact Hw|]. exact (proj2 (serialize_lookup sample_snapshot "GPV1.1" 1%Z Hw)).
Defined.


(* ================================================================== *)
(** * Message bookkeeping and the run *)
(* ================================================================== *)

Lemma prune_msgs_split (ids : list Z) :
  prune_msgs ids
  = (map DeleteMessage (firstn (length ids - MAX_MESSAGES) ids),
     skipn (length ids - MAX_MESSAGES) ids).
Proof.
  unfold MAX_MESSAGES. induction ids as [|old rest IH]; [reflexivity|].
  cbn [prune_msgs]. unfold MAX_MESSAGES.
  destruct (Nat.ltb_spec 3 (length (old :: rest))) as [Hlt|Hge].
  - rewrite IH. cbn [length] in *.
    replace (S (length rest) - 3)%nat with (S (length rest - 3)) by lia. reflexivity.
  - cbn [length] in *. replace (S (length rest) - 3)%nat with 0%nat by lia. reflexivity.
Qed.

(** X14. [manage_msgs] pins the new message, then deletes the oldest ids,
    oldest first, until [MAX_MESSAGES] are left: the list written back is
    the last three of the old ids followed by the new one, which is always
    kept as the last entry. *)
Theorem manage_msgs_keeps_newest (ids : list Z) (mid : Z) :
  let all := ids ++ [mid] in
  let drop := (length all - MAX_MESSAGES)%nat in
  manage_msgs ids mid
  = (PinChatMessage mid :: map DeleteMessage (firstn drop all), skipn drop all)
  /\ length (snd (manage_msgs ids mid)) = Nat.min (length all) MAX_MESSAGES
  /\ last (snd (manage_msgs ids mid)) 0%Z = mid.
Proof.
  intros all drop. unfold manage_msgs. fold all. rewrite prune_msgs_split. fold drop.
  split; [reflexivity|]. cbn [snd]. split.
  - rewrite length_skipn. subst drop. lia.
  - subst drop all. unfold MAX_MESSAGES. rewrite skipn_app.
    rewrite length_app. cbn [length].
    replace (length ids + 1 - 3 - length ids)%nat with 0%nat by lia. cbn [skipn].
    apply last_last.
Qed.

Example manage_msgs_sample :
  manage_msgs [1; 2; 3; 4]%Z 7%Z
  = ([PinChatMessage 7; DeleteMessage 1; DeleteMessage 2], [3; 4; 7]%Z).
Proof. reflexivity. Qed.

Lemma extract_yasno_empty grps : extract_yasno (Some []) grps = Some [].
Proof.
  unfold extract_yasno. generalize (@nil (string * dict Z DaySchedule)) as acc.
  induction grps as [|g grps IH]; intros acc; [reflexivity|].
  rewrite for_each_cons. cbn [get bind]. apply IH.
Qed.

(** The calls [post_all] makes: all of them when none raises, otherwise
    those up to the first one that does. *)
Lemma post_all_spec raises reqs : forall k,
  match post_all raises k reqs with
  | (made, true) =>
      made = reqs /\ forall i, (i < length reqs)%nat -> raises (k + i)%nat = false
  | (made, false) =>
      exists i, (i < length reqs)%nat /\ raises (k + i)%nat = true
                /\ made = firstn (S i) reqs
  end.
Proof.
  induction reqs as [|r reqs IH]; intros k; cbn [post_all].
  - split; [reflexivity|]. intros i Hi. simpl in Hi. lia.
  - destruct (raises k) eqn:Ek.
    + exists 0%nat. cbn [length firstn]. rewrite Nat.add_0_r. split; [lia | auto].
    + specialize (IH (S k)). destruct (post_all raises (S k) reqs) as [made [|]].
      * destruct IH as [-> Hall]. split; [reflexivity|].
        intros [|i] Hi; [now rewrite Nat.add_0_r|].
        cbn [length] in Hi. replace (k + S i)%nat with (S k + i)%nat by lia.
        apply Hall. lia.
      * destruct IH as (i & Hi & Hr & ->). exists (S i). cbn [length].
        replace (k + S i)%nat with (S k + i)%nat by lia. split; [lia | auto].
Qed.

Lemma manage_msgs_pin ids mid :
  exists reqs, fst (manage_msgs ids mid) = PinChatMessage mid :: reqs.
Proof.
  unfold manage_msgs. destruct (prune_msgs (ids ++ [mid])) as [reqs ids']. simpl. eauto.
Qed.

(** What [deliver] leaves behind, case by case. *)
Lemma deliver_spec w cache_file ids new_c msg mid :
  let r := deliver w cache_file ids new_c msg mid in
  let plan := manage_msgs ids mid in
  sent r = Some msg
  /\ (exists k, requests r = firstn (S k) (fst plan))
  /\ ((outcome r = Done /\ requests r = fst plan /\ ids_after r = snd plan
       /\ cache_after r = Some new_c
       /\ (forall k, (k < length (fst plan))%nat -> post_raises w k = false)
       /\ write_ids_fault w = None /\ save_cache_fault w = None)
      \/ (outcome r = Raised /\ ids_after r = ids /\ cache_after r = cache_file
          /\ exists k, (k < length (fst plan))%nat /\ post_raises w k = true)
      \/ (outcome r = Raised /\ requests r = fst plan /\ cache_after r = cache_file
          /\ write_ids_fault w = Some (ids_after r))
      \/ (outcome r = Raised /\ requests r = fst plan /\ ids_after r = snd plan
          /\ write_ids_fault w = None /\ save_cache_fault w = Some (cache_after r))).
Proof.
  cbv zeta. unfold deliver.
  destruct (manage_msgs_pin ids mid) as (rest & Hpin).
  destruct (manage_msgs ids mid) as [reqs ids'] eqn:Emm. cbn [fst snd] in *. subst reqs.
  pose proof (post_all_spec (post_raises w) (PinChatMessage mid :: rest) 0) as Hp.
  destruct (post_all (post_raises w) 0 (PinChatMessage mid :: rest)) as [made [|]].
  - destruct Hp as [-> Hall].
    assert (Hpre : exists k, PinChatMessage mid :: rest
                             = firstn (S k) (PinChatMessage mid :: rest)).
    { exists (length rest). cbn [firstn]. now rewrite firstn_all. }
    destruct (write_ids_fault w) as [ids_left|] eqn:Ew;
      [|destruct (save_cache_fault w) as [cache_left|] eqn:Es]; cbn;
      (split; [reflexivity|]); (split; [exact Hpre|]).
    + right. right. left. auto.
    + right. right. right. auto.
    + left. repeat split; auto.
  - destruct Hp as (i & Hi & Hr & ->). cbn.
    split; [reflexivity|]. split; [exists i; reflexivity|].
    right. left. repeat split; auto. exists i. auto.
Qed.

Section MainFacts.
Variable cfg : Config.
Variable int : string -> option Z.
Variable padded_year : bool.
Variable format_day : DaySchedule -> datetime -> string -> string.
Variable header_of : string -> string.

(** A run in which both extractions return, on its way to the delivery. *)
Lemma main_extracted footer send_tg w gh_data ya_data cache_file ids gh_sched ya_sched :
  extract_github int gh_data (groups cfg) = Some gh_sched ->
  extract_yasno ya_data (groups cfg) = Some ya_sched ->
  let r := main cfg int padded_year format_day header_of footer send_tg
                w gh_data ya_data cache_file ids in
  let fm := format_msg cfg padded_year format_day header_of footer gh_sched ya_sched in
  let untouched o s := mkRun o cache_file ids s [] in
  (fm = Some None /\ In r [untouched NoData None; untouched NoChanges None;
                           untouched NoMessage None])
  \/ (cache_eqb (new_cache gh_sched ya_sched) (get_cache cache_file) = true
      /\ (r = untouched NoData None \/ r = untouched NoChanges None))
  \/ (exists msg, fm = Some (Some msg) /\ msg <> ""%string
        /\ (cache_eqb (new_cache gh_sched ya_sched) (get_cache cache_file) = true
            /\ r = untouched NoChanges None
            \/ cache_eqb (new_cache gh_sched ya_sched) (get_cache cache_file) = false
               /\ ((send_tg msg = None \/ send_tg msg = Some 0%Z)
                   /\ r = untouched SendFailed (Some msg)
                   \/ exists mid, send_tg msg = Some mid /\ mid <> 0%Z
                        /\ r = deliver w cache_file ids (new_cache gh_sched ya_sched)
                                       msg mid))).
Proof.
  intros E1 E2. cbv zeta. unfold main.
  destruct (format_msg_blocks cfg padded_year format_day header_of gh_sched ya_sched)
    as (blocks & F & Efm). rewrite (Efm footer).
  destruct (negb _ && negb _)%bool eqn:Enodata.
  { assert (Eg : gh_data = None) by (destruct gh_data; [discriminate | reflexivity]).
    subst gh_data. cbn [extract_github] in E1. injection E1 as <-.
    assert (Ey : ya_sched = []).
    { destruct ya_data as [[|x l]|]; [rewrite extract_yasno_empty in E2 | discriminate Enodata
                                      | cbn in E2]; congruence. }
    subst ya_sched.
    pose proof (format_msg_empty cfg padded_year format_day header_of footer) as Ee.
    rewrite (Efm footer) in Ee. left. split; [exact Ee | now left]. }
  rewrite E1, E2, (Efm footer).
  destruct (cache_eqb (new_cache gh_sched ya_sched) (get_cache cache_file)) eqn:Ec.
  { right. left. auto. }
  destruct blocks as [|b blocks].
  { left. split; [reflexivity|]. right. right. now left. }
  right. right.
  pose proof (blocks_text cfg padded_year format_day header_of gh_sched ya_sched _
                (b :: blocks) footer F ltac:(discriminate)) as Hne.
  exists (String.concat (nl ++ nl ++ nl) (b :: blocks) ++ footer)%string.
  split; [reflexivity|]. split; [exact Hne|]. right. split; [reflexivity|].
  destruct (String.concat (nl ++ nl ++ nl) (b :: blocks) ++ footer)%string as [|c msg] eqn:Em;
    [congruence|].
  destruct (send_tg (String c msg)) as [mid|]; [|left; auto].
  destruct (Z.eq_dec mid 0) as [->|Hmid]; [left; auto|].
  right. exists mid. split; [reflexivity|]. split; [exact Hmid|].
  destruct mid; [congruence | reflexivity | reflexivity].
Qed.

(** The run as far as the delivery: either it ends before [send_tg] has
    answered an id, with nothing touched, or it is [deliver]. *)
Lemma main_cases footer send_tg w gh_data ya_data cache_file ids :
  let r := main cfg int padded_year format_day header_of footer send_tg
                w gh_data ya_data cache_file ids in
  (requests r = [] /\ cache_after r = cache_file /\ ids_after r = ids
   /\ ((outcome r = Raised /\ sent r = None
        /\ (extract_github int gh_data (groups cfg) = None
            \/ extract_yasno ya_data (groups cfg) = None))
       \/ (In (outcome r) [NoData; NoChanges; NoMessage; SendFailed]
           /\ extract_github int gh_data (groups cfg) <> None
           /\ extract_yasno ya_data (groups cfg) <> None
           /\ forall gh_sched ya_sched msg mid,
                extract_github int gh_data (groups cfg) = Some gh_sched ->
                extract_yasno ya_data (groups cfg) = Some ya_sched ->
                changed (new_cache gh_sched ya_sched) (get_cache cache_file) = true ->
                format_msg cfg padded_year format_day header_of footer gh_sched ya_sched
                = Some (Some msg) ->
                msg <> ""%string -> send_tg msg = Some mid -> mid = 0%Z)))
  \/ exists gh_sched ya_sched msg mid,
       extract_github int gh_data (groups cfg) = Some gh_sched
       /\ extract_yasno ya_data (groups cfg) = Some ya_sched
       /\ changed (new_cache gh_sched ya_sched) (get_cache cache_file) = true
       /\ format_msg cfg padded_year format_day header_of footer gh_sched ya_sched
          = Some (Some msg)
       /\ msg <> ""%string /\ send_tg msg = Some mid /\ mid <> 0%Z
       /\ r = deliver w cache_file ids (new_cache gh_sched ya_sched) msg mid.
Proof.
  intros r.
  destruct (extract_github int gh_data (groups cfg)) as [gh_sched|] eqn:E1.
  2:{ left. subst r. unfold main. rewrite E1.
      destruct (negb _ && negb _)%bool eqn:Enodata.
      - exfalso. destruct gh_data; [discriminate Enodata | discriminate E1].
      - cbn. repeat split; auto. }
  destruct (extract_yasno ya_data (groups cfg)) as [ya_sched|] eqn:E2.
  2:{ left. subst r. unfold main. rewrite E1, E2.
      destruct (negb _ && negb _)%bool eqn:Enodata.
      - exfalso. destruct gh_data; [discriminate Enodata|].
        destruct ya_data as [[|x l]|]; [rewrite extract_yasno_empty in E2 | | ];
          discriminate.
      - cbn. repeat split; auto. }
  pose proof (main_extracted footer send_tg w gh_data ya_data cache_file ids _ _ E1 E2) as H.
  cbv zeta in H. fold r in H.
  assert (Hnone : forall (P : Prop), Some gh_sched <> None /\ Some ya_sched <> None)
    by (intros _; split; discriminate).
  destruct H as [(Efm & Hr)|[(Ec & Hr)|(msg & Efm & Hne & Hr)]].
  - left. assert (Ho : requests r = [] /\ cache_after r = cache_file /\ ids_after r = ids
                       /\ In (outcome r) [NoData; NoChanges; NoMessage; SendFailed]).
    { simpl in Hr. destruct Hr as [<-|[<-|[<-|[]]]]; cbn; auto 8. }
    destruct Ho as (H1 & H2 & H3 & H4). repeat split; auto. right.
    split; [exact H4|]. split; [discriminate|]. split; [discriminate|].
    intros g y msg mid Eg Ey _ Em. injection Eg as <-. injection Ey as <-. congruence.
  - left. assert (Ho : requests r = [] /\ cache_after r = cache_file /\ ids_after r = ids
                       /\ In (outcome r) [NoData; NoChanges; NoMessage; SendFailed]).
    { destruct Hr as [->| ->]; cbn; auto 8. }
    destruct Ho as (H1 & H2 & H3 & H4). repeat split; auto. right.
    split; [exact H4|]. split; [discriminate|]. split; [discriminate|].
    intros g y msg mid Eg Ey Hch. injection Eg as <-. injection Ey as <-.
    unfold changed in Hch. rewrite Ec in Hch. discriminate Hch.
  - destruct Hr as [(Ec & ->)|(Ec & [(Hs & ->)|(mid & Hs & Hmid & Hr)])].
    + left. cbn. repeat split; auto. right. split; [auto|].
      split; [discriminate|]. split; [discriminate|].
      intros g y msg' mid Eg Ey Hch. injection Eg as <-. injection Ey as <-.
      unfold changed in Hch. rewrite Ec in Hch. discriminate Hch.
    + left. cbn. repeat split; auto. right. split; [auto 6|].
      split; [discriminate|]. split; [discriminate|].
      intros g y msg' mid Eg Ey _ Em _ Es. injection Eg as <-. injection Ey as <-.
      rewrite Efm in Em. injection Em as <-. destruct Hs as [Hs|Hs]; congruence.
    + right. exists gh_sched, ya_sched, msg, mid. unfold changed. rewrite Ec.
      repeat split; auto.
Qed.


(** X16. After a run that ended with "Done.", a second run on the same
    payloads, reading the files the first one left, ends with
    "No changes.", whatever the clock shows in its footer and whatever
    [send_tg] and the world would do: a delivered snapshot is not sent
    twice. *)
Theorem main_rerun_no_changes footer send_tg w footer' send_tg' w'
        gh_data ya_data cache_file ids :
  let r := main cfg int padded_year format_day header_of footer send_tg
                w gh_data ya_data cache_file ids in
  outcome r = Done ->
  outcome (main cfg int padded_year format_day header_of footer' send_tg'
                w' gh_data ya_data (cache_after r) (ids_after r)) = NoChanges.
Proof.
  intros r Hd.
  destruct (main_cases footer send_tg w gh_data ya_data cache_file ids)
    as [(Hr & Hc & Hi & Ho) | (gh_sched & ya_sched & msg & mid & E1 & E2 & Hch & Em & Hne
                               & Es & Hmid & Er)]; fold r in Hr, Hc, Hi, Ho || fold r in Er.
  - exfalso. destruct Ho as [(Ho & _)|(Hin & _)]; rewrite Hd in *; [discriminate|].
    simpl in Hin. intuition discriminate.
  - destruct (deliver_spec w cache_file ids (new_cache gh_sched ya_sched) msg mid)
      as (_ & _ & Hcase).
    rewrite <- Er in Hcase.
    destruct Hcase as [(_ & _ & _ & Hc & _)|[(Ho & _)|[(Ho & _)|(Ho & _)]]];
      try (rewrite Ho in Hd; discriminate Hd).
    rewrite Hc.
    pose proof (main_extracted footer' send_tg' w' gh_data ya_data
                  (Some (new_cache gh_sched ya_sched)) (ids_after r) _ _ E1 E2) as H.
    cbv zeta in H.
    assert (Eq : cache_eqb (new_cache gh_sched ya_sched)
                           (get_cache (Some (new_cache gh_sched ya_sched))) = true)
      by (cbn [get_cache]; apply cache_eqb_refl, new_cache_wf).
    destruct (format_msg_blocks cfg padded_year format_day header_of gh_sched ya_sched)
      as (blocks & _ & Efm).
    destruct H as [(Efm' & _)|[(_ & [Hr|Hr])|(msg' & _ & _ & [(_ & Hr)|(Ec & _)])]].
    + rewrite (Efm footer) in Em. rewrite (Efm footer') in Efm'.
      destruct blocks; [discriminate Em | discriminate Efm'].
    + exfalso.
      assert (Hnd : forall ft st wd,
                 main cfg int padded_year format_day header_of ft st wd gh_data ya_data
                      (Some (new_cache gh_sched ya_sched)) (ids_after r)
                 = mkRun NoData (Some (new_cache gh_sched ya_sched)) (ids_after r) None [] ->
                 (negb match gh_data with Some _ => true | None => false end
                  && negb match ya_data with Some (_ :: _) => true | _ => false end)%bool
                 = true).
      { intros ft st wd. unfold main. destruct (negb _ && negb _)%bool; [reflexivity|].
        rewrite E1, E2, Eq. discriminate. }
      pose proof (Hnd _ _ _ Hr) as Hn.
      assert (Eg : gh_data = None) by (destruct gh_data; [discriminate | reflexivity]).
      subst gh_data. cbn [extract_github] in E1. injection E1 as <-.
      assert (Ey : ya_sched = []).
      { destruct ya_data as [[|x l]|]; [rewrite extract_yasno_empty in E2 | discriminate Hn
                                        | cbn in E2]; congruence. }
      subst ya_sched.
      rewrite (format_msg_empty cfg padded_year format_day header_of footer) in Em.
      discriminate Em.
    + rewrite Hr. reflexivity.
    + rewrite Hr. reflexivity.
    + congruence.
Qed.

(** X17. An exception leaves [main] exactly when [extract_github] raises,
    when [extract_yasno] raises, or when, after [send_tg] has delivered the
    message, one of the requests of [manage_msgs] or one of the two file
    writes raises; the merger never raises. *)
Theorem main_raised_iff footer send_tg w gh_data ya_data cache_file ids :
  outcome (main cfg int padded_year format_day header_of footer send_tg
                w gh_data ya_data cache_file ids) = Raised
  <-> extract_github int gh_data (groups cfg) = None
      \/ extract_yasno ya_data (groups cfg) = None
      \/ exists gh_sched ya_sched msg mid,
           extract_github int gh_data (groups cfg) = Some gh_sched
           /\ extract_yasno ya_data (groups cfg) = Some ya_sched
           /\ changed (new_cache gh_sched ya_sched) (get_cache cache_file) = true
           /\ format_msg cfg padded_year format_day header_of footer gh_sched ya_sched
              = Some (Some msg)
           /\ msg <> ""%string /\ send_tg msg = Some mid /\ mid <> 0%Z
           /\ ((exists k, (k < length (fst (manage_msgs ids mid)))%nat
                          /\ post_raises w k = true)
               \/ write_ids_fault w <> None \/ save_cache_fault w <> None).
Proof.
  destruct (main_cases footer send_tg w gh_data ya_data cache_file ids)
    as [(Hr & Hc & Hi & Ho) | (gh_sched & ya_sched & msg & mid & E1 & E2 & Hch & Em & Hne
                               & Es & Hmid & Er)].
  - destruct Ho as [(Ho & _ & Hex)|(Hin & Hg & Hy & Hno)].
    + split; [intros _|intros _; exact Ho]. destruct Hex; auto.
    + split.
      * intros Ho. rewrite Ho in Hin. simpl in Hin. intuition discriminate.
      * intros [Hn|[Hn|(g & y & msg & mid & E1 & E2 & Hch & Em & Hne & Es & Hmid & _)]];
          [contradiction | contradiction |].
        exfalso. apply Hmid. exact (Hno _ _ _ _ E1 E2 Hch Em Hne Es).
  - rewrite Er.
    destruct (deliver_spec w cache_file ids (new_cache gh_sched ya_sched) msg mid)
      as (_ & _ & Hcase).
    split.
    + intros Ho. right. right. exists gh_sched, ya_sched, msg, mid.
      repeat split; auto.
      destruct Hcase as [(Hd & _)|[(_ & _ & _ & Hk)|[(_ & _ & _ & Hw)|(_ & _ & _ & _ & Hs)]]].
      * rewrite Hd in Ho. discriminate Ho.
      * now left.
      * right. left. congruence.
      * right. right. congruence.
    + intros [Hn|[Hn|(g & y & msg' & mid' & E1' & E2' & _ & Em' & _ & Es' & _ & Hf)]];
        [congruence | congruence |].
      rewrite E1 in E1'. injection E1' as <-. rewrite E2 in E2'. injection E2' as <-.
      rewrite Em in Em'. injection Em' as <-. rewrite Es in Es'. injection Es' as <-.
      destruct Hcase as [(_ & _ & _ & _ & Hp & Hw & Hs)|[(Ho & _)|[(Ho & _)|(Ho & _)]]]; auto.
      exfalso. destruct Hf as [(k & Hk & Hr)|[Hf|Hf]]; [|contradiction|contradiction].
      rewrite (Hp k Hk) in Hr. discriminate Hr.
Qed.

(** X21. A run that raised after [send_tg] had delivered the message and
    left the cache file as it was is not remembered: a second run on the
    same payloads hands the same blocks to [send_tg] again, followed by the
    footer of its own time. *)
Theorem main_resends_after_fault footer send_tg w footer' send_tg' w'
        gh_data ya_data cache_file ids msg :
  let r := main cfg int padded_year format_day header_of footer send_tg
                w gh_data ya_data cache_file ids in
  outcome r = Raised -> sent r = Some msg -> cache_after r = cache_file ->
  exists body,
    msg = (body ++ footer)%string
    /\ sent (main cfg int padded_year format_day header_of footer' send_tg'
                  w' gh_data ya_data (cache_after r) (ids_after r))
       = Some (body ++ footer')%string.
Proof.
  intros r Ho Hs Hc.
  destruct (main_cases footer send_tg w gh_data ya_data cache_file ids)
    as [(_ & _ & _ & Hcase) | (gh_sched & ya_sched & msg0 & mid & E1 & E2 & Hch & Em & Hne
                               & Es & Hmid & Er)]; fold r in Hcase || fold r in Er.
  - exfalso. destruct Hcase as [(_ & Hn & _)|(Hin & _)]; [congruence|].
    rewrite Ho in Hin. simpl in Hin. intuition discriminate.
  - destruct (deliver_spec w cache_file ids (new_cache gh_sched ya_sched) msg0 mid)
      as (Hs0 & _ & _).
    rewrite <- Er in Hs0. rewrite Hs in Hs0. injection Hs0 as <-.
    rewrite Hc.
    destruct (format_msg_blocks cfg padded_year format_day header_of gh_sched ya_sched)
      as (blocks & F & Efm).
    rewrite (Efm footer) in Em. destruct blocks as [|b blocks]; [discriminate Em|].
    injection Em as Em. exists (String.concat (nl ++ nl ++ nl) (b :: blocks)).
    split; [now symmetry|].
    pose proof (main_extracted footer' send_tg' w' gh_data ya_data cache_file (ids_after r)
                  _ _ E1 E2) as H.
    cbv zeta in H. unfold changed in Hch. apply negb_true_iff in Hch.
    destruct H as [(Efm' & _)|[(Ec & _)|(msg' & Efm' & _ & [(Ec & _)|(_ & Hr)])]].
    + rewrite (Efm footer') in Efm'. discriminate Efm'.
    + congruence.
    + congruence.
    + rewrite (Efm footer') in Efm'. injection Efm' as <-.
      destruct Hr as [(_ & ->)|(mid' & _ & _ & ->)]; [reflexivity|].
      destruct (deliver_spec w' cache_file (ids_after r) (new_cache gh_sched ya_sched)
                  (String.concat (nl ++ nl ++ nl) (b :: blocks) ++ footer')%string mid')
        as (Hs' & _). exact Hs'.
Qed.
End MainFacts.

(** The sample run: one new message with three ids on file, in a calm world,
    and the same run when the second request raises. *)
Example main_sample :
  main sample_cfg int_decimal false sample_format_day sample_header "." sample_send
       calm (Some sample_fact) None None [1; 2; 3]%Z
  = mkRun Done
          (Some (new_cache [("GPV1.1", [(1%Z, mkDay (Some sample_timeline)
                                                   (mkDatetime 86400 KYIV_TZ) "normal")])]
                           []))
          [2; 3; 7]%Z
          (Some ("Group 1.1" ++ nl ++ "github" ++ ".")%string)
          [PinChatMessage 7; DeleteMessage 1].
Proof. reflexivity. Qed.

Example main_sample_interrupted :
  main sample_cfg int_decimal false sample_format_day sample_header "." sample_send
       second_post_raises (Some sample_fact) None None [1; 2; 3]%Z
  = mkRun Raised None [1; 2; 3]%Z
          (Some ("Group 1.1" ++ nl ++ "github" ++ ".")%string)
          [PinChatMessage 7; DeleteMessage 1].
Proof. reflexivity. Qed.

(** The same run when [save_cache] raises: the pin and the delete are
    posted and the ids are rewritten, the cache is not. *)
Example main_sample_cache_fault :
  main sample_cfg int_decimal false sample_format_day sample_header "." sample_send
       save_cache_raises (Some sample_fact) None None [1; 2; 3]%Z
  = mkRun Raised None [2; 3; 7]%Z
          (Some ("Group 1.1" ++ nl ++ "github" ++ ".")%string)
          [PinChatMessage 7; DeleteMessage 1].
Proof. reflexivity. Qed.

(** A feed with a day key in milliseconds: the run ends in the exception of
    [datetime.fromtimestamp]. *)
Example main_sample_milliseconds :
  main sample_cfg int_decimal false sample_format_day sample_header "." sample_send
       calm (Some fact_milliseconds) None None [1; 2; 3]%Z
  = mkRun Raised None [1; 2; 3]%Z None [].
Proof. reflexivity. Qed.


Lemma main_rerun_no_changes_sample :
  let r := main sample_cfg int_decimal false sample_format_day sample_header "." sample_send
                calm (Some sample_fact) None None [1; 2; 3]%Z in
  outcome r = Done
  /\ outcome (main sample_cfg int_decimal false sample_format_day sample_header "!"
                   (fun _ => None) second_post_raises
                   (Some sample_fact) None (cache_after r) (ids_after r)) = NoChanges.
Proof.
  intros r.
  assert (Hd : outcome r = Done) by reflexivity.
  split; [exact Hd|].
  exact (main_rerun_no_changes sample_cfg int_decimal false sample_format_day sample_header
           "." sample_send calm "!" (fun _ => None) second_post_raises
           (Some sample_fact) None None [1; 2; 3]%Z Hd).
Defined.

Lemma main_resends_after_fault_sample :
  let r := main sample_cfg int_decimal false sample_format_day sample_header "." sample_send
                second_post_raises (Some sample_fact) None None [1; 2; 3; 4]%Z in
  outcome r = Raised
  /\ sent r = Some ("Group 1.1" ++ nl ++ "github" ++ ".")%string
  /\ cache_after r = None
  /\ exists body,
       ("Group 1.1" ++ nl ++ "github" ++ ".")%string = (body ++ ".")%string
       /\ sent (main sample_cfg int_decimal false sample_format_day sample_header "!"
                     sample_send calm (Some sample_fact) None
                     (cache_after r) (ids_after r))
          = Some (body ++ "!")%string.
Proof.
  intros r.
  assert (Ho : outcome r = Raised) by reflexivity.
  assert (Hs : sent r = Some ("Group 1.1" ++ nl ++ "github" ++ ".")%string) by reflexivity.
  assert (Hc : cache_after r = None) by reflexivity.
  split; [exact Ho|]. split; [exact Hs|]. split; [exact Hc|].
  exact (main_resends_after_fault sample_cfg int_decimal false sample_format_day
           sample_header "." sample_send second_post_raises "!" sample_send calm
           (Some sample_fact) None None [1; 2; 3; 4]%Z _ Ho Hs Hc).
Defined.

(* ================================================================== *)
(** * The day header *)
(* ================================================================== *)

Lemma day_name_total (dt : datetime) :
  exists name, get DAYS_UA (weekday dt) = Some name /\ has_char bracket name = false.
Proof.
  unfold weekday. pose proof (Z.mod_pos_bound (strftime_Ymd dt + 3) 7 ltac:(lia)) as Hb.
  assert (Hw : In ((strftime_Ymd dt + 3) mod 7)%Z [0; 1; 2; 3; 4; 5; 6]%Z) by (simpl; lia).
  simpl in Hw.
  repeat (destruct Hw as [<-|Hw]; [eexists; split; reflexivity|]).
  destruct Hw.
Qed.

Section FormatDayFacts.
Variable float_repr : Q -> string.
Variable ui : Ui.
Variable cfg : Config.
Variable strftime_dm : datetime -> string.

(** X18. [format_day] never raises [KeyError]: every weekday has a name in
    [DAYS_UA].  For an [emergency] or [pending] day the text is the header,
    an empty line and the fixed status text, whatever the slots and the
    style; for any other status without slots it is the header and an empty
    line. *)
Theorem format_day_status_override (data : DaySchedule) (date : datetime) (src : string) :
  (exists day_name, get DAYS_UA (weekday date) = Some day_name)
  /\ forall day_name, get DAYS_UA (weekday date) = Some day_name ->
       let header := (day_header_prefix ui strftime_dm date day_name
                      ++ "[" ++ source_name cfg src ++ "]:")%string in
       (status data = "emergency" ->
        format_day float_repr ui cfg strftime_dm data date src
        = Some (join_lines [header; ""%string; text_emergency ui]))
       /\ (status data = "pending" ->
           format_day float_repr ui cfg strftime_dm data date src
           = Some (join_lines [header; ""%string; text_pending ui]))
       /\ (status data <> "emergency" -> status data <> "pending" ->
           (slots data = None \/ slots data = Some []) ->
           format_day float_repr ui cfg strftime_dm data date src
           = Some (join_lines [header; ""%string])).
Proof.
  split; [destruct (day_name_total date) as (name & En & _); eauto|].
  intros name En. cbv zeta. unfold format_day, day_header_prefix. rewrite En. cbn [bind].
  rewrite !append_assoc. cbn [append].
  repeat split.
  - intros ->. reflexivity.
  - intros ->. reflexivity.
  - intros H1 H2 Hs.
    destruct (String.eqb_spec (status data) "emergency"); [contradiction|].
    destruct (String.eqb_spec (status data) "pending"); [contradiction|].
    destruct Hs as [-> | ->]; reflexivity.
Qed.

(** X19. The header of a day rendered for source A ends with the label
    ["[<name of A>]"], and when neither the calendar icon nor the date text
    contains a ["["] the replacement the merger applies on a match turns
    exactly that label into ["[<name of A>, <name of B>]"], leaving the
    header before it untouched. *)
Theorem format_day_combined_label (data : DaySchedule) (date : datetime) (day_name : string) :
  get DAYS_UA (weekday date) = Some day_name ->
  has_char bracket (icon_calendar ui) = false ->
  has_char bracket (strftime_dm date) = false ->
  let old := ("[" ++ github_name cfg ++ "]")%string in
  let new := ("[" ++ github_name cfg ++ ", " ++ yasno_name cfg ++ "]")%string in
  exists rest,
    format_day float_repr ui cfg strftime_dm data date "github"
    = Some (day_header_prefix ui strftime_dm date day_name ++ old ++ rest)%string
    /\ replace old new (day_header_prefix ui strftime_dm date day_name ++ old ++ rest)%string
       = (day_header_prefix ui strftime_dm date day_name ++ new ++ replace old new rest)%string.
Proof.
  intros En Hi Hd old new.
  assert (Hn : has_char bracket day_name = false).
  { destruct (day_name_total date) as (name & En' & Hn). congruence. }
  assert (Hfd : exists tail,
             format_day float_repr ui cfg strftime_dm data date "github"
             = Some (join_lines ((day_header_prefix ui strftime_dm date day_name
                                  ++ old ++ ":")%string :: tail))).
  { unfold format_day, day_header_prefix, old. rewrite En. cbn [bind].
    unfold source_name. cbn [String.eqb Ascii.eqb Bool.eqb].
    rewrite !append_assoc. cbn [append].
    destruct (status data =? "emergency"); [eexists; reflexivity|].
    destruct (status data =? "pending"); [eexists; reflexivity|].
    destruct (slots data) as [[|b tl]|]; try (eexists; reflexivity).
    destruct (style ui =? "table"); eexists; reflexivity. }
  destruct Hfd as (tail & Efd).
  destruct (join_lines_head
              (day_header_prefix ui strftime_dm date day_name ++ old ++ ":")%string tail)
    as (r & Er).
  exists (":" ++ r)%string. split.
  - rewrite Efd, Er. f_equal. rewrite !append_assoc. reflexivity.
  - assert (Hp : has_char bracket (day_header_prefix ui strftime_dm date day_name) = false).
    { unfold day_header_prefix. rewrite !has_char_app, Hi, Hd, Hn. reflexivity. }
    set (pre := day_header_prefix ui strftime_dm date day_name) in *.
    set (o := (github_name cfg ++ "]")%string).
    change (replace (String bracket o) new (pre ++ (String bracket o ++ (":" ++ r)))%string
            = (pre ++ new ++ replace (String bracket o) new (":" ++ r))%string).
    rewrite (replace_skips_prefix bracket o new pre _ Hp), replace_at. reflexivity.
Qed.
End FormatDayFacts.

Lemma format_day_status_override_sample :
  let data := mkDay (Some sample_timeline) (mkDatetime 0 7200) "pending" in
  get DAYS_UA (weekday (mkDatetime 0 7200)) = Some "Четвер"
  /\ status data = "pending"
  /\ format_day repr_half sample_ui sample_cfg (fun _ => "01.01") data
                (mkDatetime 0 7200) "yasno"
     = Some (join_lines ["#  01.01 (Четвер) [Yasno]:"; ""; "Schedule pending"]).
Proof.
  intros data.
  assert (En : get DAYS_UA (weekday (mkDatetime 0 7200)) = Some "Четвер") by reflexivity.
  assert (Hs : status data = "pending") by reflexivity.
  split; [exact En|]. split; [exact Hs|].
  destruct (proj2 (format_day_status_override repr_half sample_ui sample_cfg
                     (fun _ => "01.01") data (mkDatetime 0 7200) "yasno") _ En)
    as (_ & Hp & _).
  exact (Hp Hs).
Defined.

Lemma format_day_combined_label_sample :
  let data := mkDay (Some sample_timeline) (mkDatetime 0 7200) "normal" in
  get DAYS_UA (weekday (mkDatetime 0 7200)) = Some "Четвер"
  /\ has_char bracket (icon_calendar sample_ui) = false
  /\ has_char bracket "01.01" = false
  /\ exists rest,
       format_day repr_half sample_ui sample_cfg (fun _ => "01.01") data
                  (mkDatetime 0 7200) "github"
       = Some ("#  01.01 (Четвер) " ++ "[GitHub]" ++ rest)%string
       /\ replace "[GitHub]" "[GitHub, Yasno]" ("#  01.01 (Четвер) " ++ "[GitHub]" ++ rest)%string
          = ("#  01.01 (Четвер) " ++ "[GitHub, Yasno]"
             ++ replace "[GitHub]" "[GitHub, Yasno]" rest)%string.
Proof.
  intros data.
  assert (En : get DAYS_UA (weekday (mkDatetime 0 7200)) = Some "Четвер") by reflexivity.
  assert (Hi : has_char bracket (icon_calendar sample_ui) = false) by reflexivity.
  assert (Hd : has_char bracket "01.01" = false) by reflexivity.
  split; [exact En|]. split; [exact Hi|]. split; [exact Hd|].
  exact (format_day_combined_label repr_half sample_ui sample_cfg (fun _ => "01.01")
           data (mkDatetime 0 7200) "Четвер" En Hi Hd).
Defined.
